(** * Form evaluation saga (app/client/src/sagas/FormEvaluationSaga.ts)

    A shallow embedding of the evaluation request sequencer
    ([setFormEvaluationSagaAsync]) and of the dynamic value fetcher
    ([fetchDynamicValuesSaga], [fetchDynamicValueSaga]), with the
    properties the specification states about them. *)

From stdpp Require Import base option list gmap strings pretty.
From Stdlib Require Import ZArith Lia Ascii String.

Set Warnings "-register-all".

Open Scope string_scope.
Open Scope Z_scope.

(** ** JavaScript values

    Plain data (configs, parameters, evaluated values, API responses) is a
    tree.  An object is the list of its own enumerable properties in
    enumeration order, which is the order of [Object.keys] and
    [Object.entries]. *)

Inductive JsVal : Type :=
| JUndefined
| JNull
| JBool (b : bool)
| JNum (n : Z)
| JStr (s : string)
| JArr (items : list JsVal)
| JObj (props : list (string * JsVal)).

(** What a [throw] carries: the runtime's TypeError or a value raised by a
    collaborator. *)
Inductive Exn : Type :=
| TypeError
| Thrown (v : JsVal).

Inductive Result (A : Type) : Type :=
| Ok (a : A)
| Throw (e : Exn).
Arguments Ok {A} a.
Arguments Throw {A} e.

Module Js.

(** [!!v] *)
Definition truthy (v : JsVal) : bool :=
  match v with
  | JUndefined | JNull => false
  | JBool b => b
  | JNum n => negb (n =? 0)
  | JStr s => negb (String.eqb s "")
  | JArr _ | JObj _ => true
  end.

Definition nullish (v : JsVal) : bool :=
  match v with
  | JUndefined | JNull => true
  | _ => false
  end.

(** Property bags: lookup of the first binding of a key. *)
Fixpoint lookup {A} (k : string) (o : list (string * A)) : option A :=
  match o with
  | [] => None
  | (k', v) :: o' => if String.eqb k k' then Some v else lookup k o'
  end.

Definition has {A} (k : string) (o : list (string * A)) : bool :=
  match lookup k o with Some _ => true | None => false end.

(** [o[k] = v] on an object: an existing property keeps its place, a new
    one goes last. *)
Fixpoint set {A} (k : string) (v : A) (o : list (string * A))
  : list (string * A) :=
  match o with
  | [] => [(k, v)]
  | (k', v') :: o' =>
      if String.eqb k k' then (k, v) :: o' else (k', v') :: set k v o'
  end.

(** [{...o, ...extra}] *)
Definition assign {A} (o extra : list (string * A)) : list (string * A) :=
  fold_left (fun acc kv => set kv.1 kv.2 acc) extra o.

Fixpoint chars (s : string) : list JsVal :=
  match s with
  | EmptyString => []
  | String a s' => JStr (String a EmptyString) :: chars s'
  end.

Definition indexed (l : list JsVal) : list (string * JsVal) :=
  imap (fun i v => (pretty i, v)) l.

(** The own enumerable properties of a value, as [Object.entries] and
    object spread see them. *)
Definition entries (v : JsVal) : list (string * JsVal) :=
  match v with
  | JObj o => o
  | JArr l => indexed l
  | JStr s => indexed (chars s)
  | _ => []
  end.

(** [Object.entries(v)] throws on undefined and null. *)
Definition object_entries (v : JsVal) : Result (list (string * JsVal)) :=
  if nullish v then Throw TypeError else Ok (entries v).

(** [v[k]] (also written [v.k]). *)
Definition get (v : JsVal) (k : string) : Result JsVal :=
  match v with
  | JUndefined | JNull => Throw TypeError
  | JObj o => Ok (default JUndefined (lookup k o))
  | JArr l =>
      if String.eqb k "length" then Ok (JNum (Z.of_nat (List.length l)))
      else Ok (default JUndefined (lookup k (indexed l)))
  | JStr s =>
      if String.eqb k "length" then Ok (JNum (Z.of_nat (String.length s)))
      else Ok (default JUndefined (lookup k (indexed (chars s))))
  | _ => Ok JUndefined
  end.

(** [v?.k] *)
Definition get_opt (v : JsVal) (k : string) : Result JsVal :=
  if nullish v then Ok JUndefined else get v k.

(** [k in v]: a TypeError unless [v] is an object. *)
Definition has_in (k : string) (v : JsVal) : Result bool :=
  match v with
  | JObj o => Ok (has k o)
  | JArr l => Ok (String.eqb k "length" || has k (indexed l))
  | _ => Throw TypeError
  end.

(** [v > 0] for the values a [length] can be. *)
Definition gt_zero (v : JsVal) : bool :=
  match v with
  | JNum n => 0 <? n
  | JBool b => b
  | _ => false
  end.

(** [v === 200] *)
Definition is_num (n : Z) (v : JsVal) : bool :=
  match v with
  | JNum m => m =? n
  | _ => false
  end.

(** *** lodash [get]

    [get(object, path)] for a string [path], after lodash 4.17: [get],
    [baseGet], [castPath], [isKey] and [stringToPath].  The three regular
    expressions they use are written out as scanners: [reIsPlainProp]
    (word characters only), [reIsDeepProp] (a dot, or a bracket closed
    after characters that are no brackets or after a quoted text) and
    [rePropName] (a run of characters other than dot and brackets; a
    bracket holding an index or a quoted text; or the empty name between
    two separators). *)

Definition dot : ascii := ascii_of_nat 46.
Definition lbracket : ascii := ascii_of_nat 91.
Definition rbracket : ascii := ascii_of_nat 93.
Definition backslash : ascii := ascii_of_nat 92.
Definition minus : ascii := ascii_of_nat 45.

Definition is_quote (a : ascii) : bool :=
  Ascii.eqb a (ascii_of_nat 34) || Ascii.eqb a (ascii_of_nat 39).

(** What [.] of a regular expression does not match. *)
Definition is_line_terminator (a : ascii) : bool :=
  Ascii.eqb a (ascii_of_nat 10) || Ascii.eqb a (ascii_of_nat 13).

(** [\d] and [\w] *)
Definition is_digit (a : ascii) : bool :=
  let n := nat_of_ascii a in (48 <=? n)%nat && (n <=? 57)%nat.

Definition is_word (a : ascii) : bool :=
  let n := nat_of_ascii a in
  is_digit a || ((65 <=? n)%nat && (n <=? 90)%nat)
  || ((97 <=? n)%nat && (n <=? 122)%nat) || (n =? 95)%nat.

(** What [[^.[\]]] does not match. *)
Definition is_separator (a : ascii) : bool :=
  Ascii.eqb a dot || Ascii.eqb a lbracket || Ascii.eqb a rbracket.

(** [(?:(?!\q)[^\\]|\\.)*?\q\]] after an opening quote [q]: the characters
    up to the first quote that no backslash escapes, which a [\]] has to
    follow.  Gives the text with [reEscapeChar] applied (a backslash gives
    way to the character it escapes) and the number of characters read,
    counting the [n] read before. *)
Fixpoint quoted (q : ascii) (s : list ascii) (text : list ascii) (n : nat)
  : option (list ascii * nat) :=
  match s with
  | [] => None
  | c :: s' =>
      if Ascii.eqb c q then
        match s' with
        | c' :: _ =>
            if Ascii.eqb c' rbracket then Some (text, (n + 2)%nat) else None
        | [] => None
        end
      else if Ascii.eqb c backslash then
        match s' with
        | c' :: s'' =>
            if is_line_terminator c' then None
            else quoted q s'' (text ++ [c'])%list (n + 2)%nat
        | [] => None
        end
      else quoted q s' (text ++ [c])%list (n + 1)%nat
  end.

(** The longest run of digits at the head of [s], and what follows it. *)
Fixpoint digits (s : list ascii) : list ascii * list ascii :=
  match s with
  | c :: s' =>
      if is_digit c then let '(run, rest) := digits s' in (c :: run, rest)
      else ([], s)
  | [] => ([], [])
  end.

(** [(-?\d+(?:\.\d+)?)\]] *)
Definition number (s : list ascii) : option (list ascii * nat) :=
  let '(sign, s1) :=
    match s with
    | c :: s' => if Ascii.eqb c minus then ([c], s') else ([], s)
    | [] => ([], s)
    end in
  let '(whole, s2) := digits s1 in
  match whole, s2 with
  | _ :: _, c :: s3 =>
      if Ascii.eqb c rbracket then
        Some ((sign ++ whole)%list, S (List.length (sign ++ whole)%list))
      else if Ascii.eqb c dot then
        let '(fraction, s4) := digits s3 in
        match fraction, s4 with
        | _ :: _, c' :: _ =>
            if Ascii.eqb c' rbracket then
              Some ((sign ++ whole ++ dot :: fraction)%list,
                    S (List.length (sign ++ whole ++ dot :: fraction)%list))
            else None
        | _, _ => None
        end
      else None
  | _, _ => None
  end.

(** The second alternative of [rePropName], after its [\[]: an index or a
    quoted name, with the number of characters it takes. *)
Definition bracketed (s : list ascii) : option (list ascii * nat) :=
  match number s with
  | Some found => Some found
  | None =>
      match s with
      | q :: s' => if is_quote q then quoted q s' [] 1 else None
      | [] => None
      end
  end.

(** [(?:\.|\[\])] at the head of [s]: what follows it. *)
Definition after_hole (s : list ascii) : option (list ascii) :=
  match s with
  | c :: s' =>
      if Ascii.eqb c dot then Some s'
      else if Ascii.eqb c lbracket then
        match s' with
        | c' :: s'' => if Ascii.eqb c' rbracket then Some s'' else None
        | [] => None
        end
      else None
  | [] => None
  end.

(** The third alternative of [rePropName], the lookahead
    [(?=(?:\.|\[\])(?:\.|\[\]|$))]: an empty name stands here. *)
Definition empty_name (s : list ascii) : bool :=
  match after_hole s with
  | Some [] => true
  | Some rest => bool_decide (is_Some (after_hole rest))
  | None => false
  end.

Definition flush (name : list ascii) : list string :=
  match name with
  | [] => []
  | _ => [string_of_list_ascii name]
  end.

(** The matches of [rePropName] from left to right, as
    [string.replace(rePropName, ...)] visits them.  [name] is the run of
    [[^.[\]]+] being read and [skip] the number of characters still to pass
    over, those of the bracket just matched. *)
Fixpoint names (skip : nat) (name : list ascii) (s : list ascii)
  : list string :=
  match s with
  | [] => flush name
  | c :: s' =>
      match skip with
      | S k => names k name s'
      | O =>
          if is_separator c then
            (flush name ++
             match (if Ascii.eqb c lbracket then bracketed s' else None) with
             | Some (text, n) => string_of_list_ascii text :: names n [] s'
             | None =>
                 (if empty_name (c :: s') then [""] else []) ++ names 0 [] s'
             end)%list
          else names 0 (name ++ [c])%list s'
      end
  end.

(** [stringToPath(string)] *)
Definition stringToPath (s : string) : list string :=
  let cs := list_ascii_of_string s in
  ((match cs with
    | c :: _ => if Ascii.eqb c dot then [""] else []
    | [] => []
    end) ++ names 0 [] cs)%list.

(** [[^[\]]*\]] *)
Fixpoint closes (s : list ascii) : bool :=
  match s with
  | c :: s' =>
      if Ascii.eqb c rbracket then true
      else if Ascii.eqb c lbracket then false
      else closes s'
  | [] => false
  end.

(** [reIsDeepProp.test(s)] *)
Fixpoint is_deep (s : list ascii) : bool :=
  match s with
  | [] => false
  | c :: s' =>
      Ascii.eqb c dot
      || (Ascii.eqb c lbracket
          && (closes s'
              || match s' with
                 | q :: s'' =>
                     is_quote q && bool_decide (is_Some (quoted q s'' [] 1))
                 | [] => false
                 end))
      || is_deep s'
  end.

(** [path in Object(object)] for a path that is not a plain name: no
    inherited property has such a name, so it is an own property. *)
Definition has_own (path : string) (object : JsVal) : bool :=
  match object with
  | JObj o => has path o
  | JArr l => has path (indexed l)
  | JStr s => has path (indexed (chars s))
  | _ => false
  end.

(** [isKey(path, object)] *)
Definition isKey (path : string) (object : JsVal) : bool :=
  forallb is_word (list_ascii_of_string path)
  || negb (is_deep (list_ascii_of_string path))
  || has_own path object.

(** [castPath(path, object)] *)
Definition castPath (path : string) (object : JsVal) : list string :=
  if isKey path object then [path] else stringToPath path.

(** The loop of [baseGet]: [undefined] when the value walked into is
    undefined or null before the path has ended. *)
Fixpoint get_path (v : JsVal) (path : list string) : JsVal :=
  match path with
  | [] => v
  | k :: rest =>
      match get v k with
      | Ok v' => get_path v' rest
      | Throw _ => JUndefined
      end
  end.

(** [get(object, path)]: [baseGet] gives [undefined] for an empty path. *)
Definition lodash_get (object : JsVal) (path : string) : JsVal :=
  if nullish object then JUndefined
  else
    match castPath path object with
    | [] => JUndefined
    | keys => get_path object keys
    end.

End Js.

(** ** The store the sagas run against

    [DynamicValues] and [ConditionalOutput] objects are shared by reference
    between the evaluation output, the queue of values to be fetched and the
    published state, so they live in a heap and are named by their address.
    A [DynamicValues] object is a bag of properties ([allowedToFetch],
    [isLoading], [hasStarted], [hasFetchFailed], [data], [config],
    [evaluatedConfig]); a [ConditionalOutput] holds an optional reference to
    one in [fetchDynamicValues], next to its other properties. *)

Abbreviation DynamicValues := (list (string * JsVal)).

Record ConditionalOutput : Type := mkConditionalOutput {
  fetchDynamicValues : option nat;
  otherProps : list (string * JsVal)
}.

(** [FormEvalOutput] and the queue of values to be fetched: field key to
    the address of its [ConditionalOutput]. *)
Abbreviation FormEvalOutput := (list (string * nat)).

(** The payload of a form evaluation action, as far as the saga reads it;
    the configuration it carries goes to the evaluation function
    untouched. *)
Record FormEvalActionPayload : Type := mkPayload {
  formId : string;
  datasourceId : option string;
  pluginId : option string
}.

Record ReduxAction : Type := mkAction {
  type : string;
  payload : FormEvalActionPayload
}.

(** What the evaluation function returns: the evaluation state, form id to
    [FormEvalOutput], or a value that is no object at all.  The objects an
    evaluation state refers to are in the heap when it arrives. *)
Inductive Primitive : Type :=
| PUndefined
| PNull
| PBool (b : bool)
| PNum (n : Z)
| PStr (s : string).

Inductive WorkerResponse : Type :=
| WPrimitive (p : Primitive)
| WState (forms : list (string * FormEvalOutput)).

(** The effects the sagas yield, in order: errors logged, the calls of the
    evaluation function and of the fetchers, the waits, the calls of the
    backend, the forks and the two kinds of state published. *)
Inductive Event : Type :=
| EvLogError (e : Exn)
| EvCallEvalFormConfig (action : ReduxAction) (currentEvalState : JsVal)
| EvPutEvaluationState (workerResponse : WorkerResponse)
| EvFork (nextAction : ReduxAction)
| EvRace
| EvDelay (ms : Z)
| EvCallFetchDynamicValues (queueOfValuesToBeFetched : FormEvalOutput)
    (formId : string) (evalOutput : FormEvalOutput)
    (datasourceId pluginId : string)
| EvCallFetchDynamicValue (configProperty : string) (dynamicFetchedValues : nat)
| EvFetchDynamicFormValues (url : JsVal) (body : JsVal)
| EvPutFormEvaluation (formId : string) (evalOutput : FormEvalOutput).

Record World : Type := mkWorld {
  dynHeap : gmap nat DynamicValues;
  condHeap : gmap nat ConditionalOutput;
  trace : list Event
}.

(** Sagas: state passing with exceptions; the world survives a throw. *)
Definition Saga (A : Type) : Type := World -> Result A * World.

Definition ret {A} (a : A) : Saga A := fun w => (Ok a, w).

Definition throw {A} (e : Exn) : Saga A := fun w => (Throw e, w).

Definition bind {A B} (m : Saga A) (k : A -> Saga B) : Saga B :=
  fun w =>
    match m w with
    | (Ok a, w') => k a w'
    | (Throw e, w') => (Throw e, w')
    end.

Definition try_catch {A} (body : Saga A) (handler : Exn -> Saga A) : Saga A :=
  fun w =>
    match body w with
    | (Ok a, w') => (Ok a, w')
    | (Throw e, w') => handler e w'
    end.

Definition lift {A} (r : Result A) : Saga A := fun w => (r, w).

Declare Scope saga_scope.
Delimit Scope saga_scope with saga.
Notation "x <- m ;; k" := (bind m (fun x => k))
  (at level 100, m at next level, right associativity) : saga_scope.
Notation "m ;;; k" := (bind m (fun _ => k))
  (at level 100, right associativity) : saga_scope.
Open Scope saga_scope.

Definition emit (ev : Event) : Saga unit :=
  fun w => (Ok tt, mkWorld (dynHeap w) (condHeap w) (trace w ++ [ev])).

(** [yield put(...)]: the effect, and what the store makes of it. *)
Definition put (ev : Event) (outcome : Result unit) : Saga unit :=
  fun w => (outcome, mkWorld (dynHeap w) (condHeap w) (trace w ++ [ev])).

(** [log.error(e)] *)
Definition log_error (e : Exn) : Saga unit := emit (EvLogError e).

(** [d.k = v] on a [DynamicValues] object. *)
Definition set_dyn (d : nat) (k : string) (v : JsVal) : Saga unit :=
  fun w =>
    match dynHeap w !! d with
    | Some o =>
        (Ok tt, mkWorld (<[d := Js.set k v o]> (dynHeap w)) (condHeap w) (trace w))
    | None => (Throw TypeError, w)
    end.

(** [Object.assign({}, src)]: a new object with the own properties of
    [src], none when [src] is undefined. *)
Definition object_assign_empty (src : option nat) : Saga nat :=
  fun w =>
    let d := fresh (dom (dynHeap w)) in
    let o := default [] (src ≫= fun s => dynHeap w !! s) in
    (Ok d, mkWorld (<[d := o]> (dynHeap w)) (condHeap w) (trace w)).

(** [c.fetchDynamicValues], a TypeError when [c] is undefined. *)
Definition read_fetchDynamicValues (c : option nat) : Saga (option nat) :=
  fun w =>
    match c ≫= fun a => condHeap w !! a with
    | Some o => (Ok (fetchDynamicValues o), w)
    | None => (Throw TypeError, w)
    end.

(** [c.fetchDynamicValues = d] *)
Definition write_fetchDynamicValues (c : option nat) (d : nat) : Saga unit :=
  fun w =>
    match c ≫= fun a => (fun o => (a, o)) <$> condHeap w !! a with
    | Some (a, o) =>
        (Ok tt, mkWorld (dynHeap w)
                  (<[a := mkConditionalOutput (Some d) (otherProps o)]> (condHeap w))
                  (trace w))
    | None => (Throw TypeError, w)
    end.

(** Pure steps that can throw. *)
Definition rbind {A B} (r : Result A) (k : A -> Result B) : Result B :=
  match r with
  | Ok a => k a
  | Throw e => Throw e
  end.

Declare Scope result_scope.
Delimit Scope result_scope with result.
Notation "x <~ r ;; k" := (rbind r (fun x => k))
  (at level 100, r at next level, right associativity) : result_scope.

(** ** The collaborators of the fetcher

    The selectors and the plugin API are outside the saga; a run is given
    what they answer.  Of the selected action the saga reads the name only. *)
Record Env : Type := mkEnv {
  getAction : string -> Result (option string);
  getDataTree : Result JsVal;
  defaultDynamicTriggerURL : string -> string;
  fetchDynamicFormValues : JsVal -> JsVal -> Result JsVal
}.

Section FetchDynamicValue.

(** Helpers imported from utils/DynamicBindingUtils and
    entities/Action/actionProperties. *)
Variable getDynamicBindings : JsVal -> Result JsVal.
Variable getDataTreeActionConfigPath : JsVal -> Result string.
Variable isDynamicValue : JsVal -> bool.

(** [getDynamicBindings(value)?.jsSnippets[0]] *)
Definition firstSnippet (value : JsVal) : Result JsVal :=
  (bindings <~ getDynamicBindings value ;;
   if Js.nullish bindings then Ok JUndefined
   else snippets <~ Js.get bindings "jsSnippets" ;; Js.get snippets "0")%result.

(** [get(evalAction?.__evaluation__?.evaluatedValues, path)] *)
Definition evaluatedValueAt (evalAction : JsVal) (path : string) : Result JsVal :=
  (evaluation <~ Js.get_opt evalAction "__evaluation__" ;;
   evaluatedValues <~ Js.get_opt evaluation "evaluatedValues" ;;
   Ok (Js.lodash_get evaluatedValues path))%result.

(** One turn of the [forEach] over the entries of
    [config.params.parameters]. *)
Definition substituteParameter (evalAction : JsVal)
    (substitutedParameters : list (string * JsVal)) (entry : string * JsVal)
  : Result (list (string * JsVal)) :=
  (dynamicBindingValue <~ firstSnippet entry.2 ;;
   dataTreeActionConfigPath <~ getDataTreeActionConfigPath dynamicBindingValue ;;
   evaluatedValue <~ evaluatedValueAt evalAction dataTreeActionConfigPath ;;
   if Js.truthy evaluatedValue then
     Ok (Js.set entry.1
           (if isDynamicValue evaluatedValue then JStr "" else evaluatedValue)
           substitutedParameters)
   else Ok substitutedParameters)%result.

Fixpoint substituteAll (evalAction : JsVal) (entries : list (string * JsVal))
    (substitutedParameters : list (string * JsVal))
  : Result (list (string * JsVal)) :=
  match entries with
  | [] => Ok substitutedParameters
  | entry :: rest =>
      (acc <~ substituteParameter evalAction substitutedParameters entry ;;
       substituteAll evalAction rest acc)%result
  end.

(** Lines 199-224: the substituted parameters, empty unless the config
    declares parameters and the action is in the data tree. *)
Definition substitutedParametersOf (config evalAction : JsVal)
  : Result (list (string * JsVal)) :=
  (configParams <~ Js.get_opt config "params" ;;
   declared <~ Js.has_in "parameters" configParams ;;
   if declared && Js.truthy evalAction then
     parameters <~ Js.get configParams "parameters" ;;
     entries <~ Js.object_entries parameters ;;
     substituteAll evalAction entries []
   else Ok [])%result.

(** Lines 226-239: [evaluatedParams]. *)
Definition evaluatedParamsOf (params : JsVal)
    (substitutedParameters : list (string * JsVal))
  : Result (list (string * JsVal)) :=
  (declared <~ Js.has_in "parameters" params ;;
   if declared then
     parameters <~ Js.get params "parameters" ;;
     Ok (Js.set "parameters"
           (JObj (Js.assign (Js.entries parameters) substitutedParameters))
           (Js.entries params))
   else Ok (Js.entries params))%result.

(** Lines 175-182: the URL to call. *)
Definition urlOf (env : Env) (datasourceId : string) (evaluatedConfig : JsVal)
  : Result JsVal :=
  (let url := JStr (defaultDynamicTriggerURL env datasourceId) in
   declared <~ Js.has_in "url" evaluatedConfig ;;
   if declared then
     configured <~ Js.get evaluatedConfig "url" ;;
     if Js.truthy configured then
       len <~ Js.get configured "length" ;;
       Ok (if Js.gt_zero len then configured else url)
     else Ok url
   else Ok url)%result.

(** Lines 191-196: [evalAction]. *)
Definition evalActionOf (env : Env) (actionId : string) : Result JsVal :=
  (action <~ getAction env actionId ;;
   dataTree <~ getDataTree env ;;
   match action with
   | Some name => Js.get dataTree name
   | None => Ok JUndefined
   end)%result.

(** The object sent to the backend. *)
Definition requestBody (actionId configProperty datasourceId pluginId : string)
    (evaluatedParams : list (string * JsVal)) : JsVal :=
  JObj (Js.assign
          [("actionId", JStr actionId); ("configProperty", JStr configProperty);
           ("datasourceId", JStr datasourceId); ("pluginId", JStr pluginId)]
          evaluatedParams).

(** [const { config, evaluatedConfig } = d]: a TypeError when [d] is
    undefined. *)
Definition destructure (d : option nat) : Saga (JsVal * JsVal) :=
  fun w =>
    match d ≫= fun a => dynHeap w !! a with
    | Some o =>
        (Ok (default JUndefined (Js.lookup "config" o),
             default JUndefined (Js.lookup "evaluatedConfig" o)), w)
    | None => (Throw TypeError, w)
    end.

(** Lines 167-239 and the arguments of the call at 242: everything
    [fetchDynamicValueSaga] does before it calls the backend. *)
Definition fetchRequest (env : Env) (value : option nat)
    (dynamicFetchedValues : nat)
    (actionId datasourceId pluginId configProperty : string)
  : Saga (JsVal * JsVal) :=
  fdv <- read_fetchDynamicValues value ;;
  configs <- destructure fdv ;;
  let config := configs.1 in
  let evaluatedConfig := configs.2 in
  params <- lift (Js.get evaluatedConfig "params") ;;
  set_dyn dynamicFetchedValues "hasStarted" (JBool true) ;;;
  url <- lift (urlOf env datasourceId evaluatedConfig) ;;
  evalAction <- lift (evalActionOf env actionId) ;;
  substitutedParameters <- lift (substitutedParametersOf config evalAction) ;;
  evaluatedParams <- lift (evaluatedParamsOf params substitutedParameters) ;;
  ret (url, requestBody actionId configProperty datasourceId pluginId
              evaluatedParams).

(** [yield call(PluginsApi.fetchDynamicFormValues, url, body)] *)
Definition callApi (env : Env) (url body : JsVal) : Saga JsVal :=
  emit (EvFetchDynamicFormValues url body) ;;;
  lift (fetchDynamicFormValues env url body).

(** Lines 253-260: what is done with the response. *)
Definition fetchResponse (dynamicFetchedValues : nat) (response : JsVal)
  : Saga unit :=
  set_dyn dynamicFetchedValues "isLoading" (JBool false) ;;;
  responseMeta <- lift (Js.get response "responseMeta") ;;
  status <- lift (Js.get responseMeta "status") ;;
  let failed :=
    set_dyn dynamicFetchedValues "hasFetchFailed" (JBool true) ;;;
    set_dyn dynamicFetchedValues "data" (JArr []) in
  if Js.is_num 200 status then
    data <- lift (Js.get response "data") ;;
    hasTrigger <- lift (Js.has_in "trigger" data) ;;
    if (hasTrigger : bool) then
      trigger <- lift (Js.get data "trigger") ;;
      set_dyn dynamicFetchedValues "data" trigger ;;;
      set_dyn dynamicFetchedValues "hasFetchFailed" (JBool false)
    else failed
  else failed.

(** Lines 261-266: the [catch]. *)
Definition fetchCatch (dynamicFetchedValues : nat) (e : Exn) : Saga unit :=
  log_error e ;;;
  set_dyn dynamicFetchedValues "hasFetchFailed" (JBool true) ;;;
  set_dyn dynamicFetchedValues "isLoading" (JBool false) ;;;
  set_dyn dynamicFetchedValues "data" (JArr []).

(** Lines 167-260: the [try] block. *)
Definition fetchTry (env : Env) (value : option nat)
    (dynamicFetchedValues : nat)
    (actionId datasourceId pluginId configProperty : string) : Saga unit :=
  request <- fetchRequest env value dynamicFetchedValues actionId
               datasourceId pluginId configProperty ;;
  response <- callApi env request.1 request.2 ;;
  fetchResponse dynamicFetchedValues response.

(** The request went out and the backend answered [response]. *)
Definition answered (env : Env) (value : option nat)
    (dynamicFetchedValues : nat)
    (actionId datasourceId pluginId configProperty : string)
    (w : World) (response : JsVal) : Prop :=
  exists url body w1,
    fetchRequest env value dynamicFetchedValues actionId datasourceId
      pluginId configProperty w = (Ok (url, body), w1) /\
    fetchDynamicFormValues env url body = Ok response.

Definition fetchDynamicValueSaga (env : Env) (value : option nat)
    (dynamicFetchedValues : nat)
    (actionId datasourceId pluginId configProperty : string) : Saga nat :=
  try_catch
    (fetchTry env value dynamicFetchedValues actionId datasourceId pluginId
       configProperty)
    (fetchCatch dynamicFetchedValues) ;;;
  ret dynamicFetchedValues.

(** The [for] loop of [fetchDynamicValuesSaga]; [envs i] is what the
    collaborators answer during turn [i]. *)
Fixpoint fetchLoop (envs : nat -> Env) (i : nat) (keys : list string)
    (queueOfValuesToBeFetched : FormEvalOutput) (formId : string)
    (evalOutput : FormEvalOutput) (datasourceId pluginId : string)
  : Saga unit :=
  match keys with
  | [] => ret tt
  | key :: rest =>
      let target := Js.lookup key evalOutput in
      current <- read_fetchDynamicValues target ;;
      copy <- object_assign_empty current ;;
      emit (EvCallFetchDynamicValue key copy) ;;;
      fetched <- fetchDynamicValueSaga (envs i)
                   (Js.lookup key queueOfValuesToBeFetched) copy
                   formId datasourceId pluginId key ;;
      write_fetchDynamicValues target fetched ;;;
      fetchLoop envs (S i) rest queueOfValuesToBeFetched formId evalOutput
        datasourceId pluginId
  end.

(** [published] is what the store answers to the final [put]. *)
Definition fetchDynamicValuesSaga (envs : nat -> Env)
    (published : Result unit)
    (queueOfValuesToBeFetched : FormEvalOutput) (formId : string)
    (evalOutput : FormEvalOutput) (datasourceId pluginId : string)
  : Saga unit :=
  fetchLoop envs 0 (fst <$> queueOfValuesToBeFetched)
    queueOfValuesToBeFetched formId evalOutput datasourceId pluginId ;;;
  put (EvPutFormEvaluation formId evalOutput) published.

End FetchDynamicValue.

(** [extractQueueOfValuesToBeFetched]: the fields whose
    [fetchDynamicValues] is present and allowed to fetch, in the order of
    [Object.entries(evalOutput)]. *)
Definition isFetchable (w : World) (value : nat) : Result bool :=
  match condHeap w !! value with
  | None => Throw TypeError
  | Some c =>
      match fetchDynamicValues c with
      | None => Ok false
      | Some d =>
          match dynHeap w !! d with
          | None => Ok false
          | Some o =>
              Ok (Js.has "allowedToFetch" o
                  && Js.truthy (default JUndefined (Js.lookup "allowedToFetch" o)))
          end
      end
  end.

Fixpoint extractLoop (w : World) (entries output : FormEvalOutput)
  : Result FormEvalOutput :=
  match entries with
  | [] => Ok output
  | (key, value) :: rest =>
      (fetchable <~ isFetchable w value ;;
       extractLoop w rest (if (fetchable : bool) then Js.set key value output
                           else output))%result
  end.

Definition extractQueueOfValuesToBeFetched (w : World)
    (evalOutput : FormEvalOutput) : Result FormEvalOutput :=
  extractLoop w evalOutput [].

(** ** The request sequencer

    [setFormEvaluationSagaAsync] runs between suspension points: the call
    of the evaluation function, the race on the readiness signals, the
    delay, and each call of the backend.  A suspended saga is a task; the
    outside resumes one task at a time, and between two resumptions other
    requests may be submitted. *)

(** Where [fetchDynamicValuesSaga] stands while the backend is called for
    the current key. *)
Record FetchFrame : Type := mkFrame {
  frameQueue : FormEvalOutput;
  frameFormId : string;
  frameEvalOutput : FormEvalOutput;
  frameDatasourceId : string;
  framePluginId : string;
  frameTurn : nat;
  frameTarget : option nat;
  frameCopy : nat;
  frameRest : list string;
  frameUrl : JsVal;
  frameBody : JsVal
}.

Inductive Task : Type :=
| AwaitEvaluation (action : ReduxAction)
| AwaitReady (action : ReduxAction) (evalOutput queue : FormEvalOutput)
| AwaitDelay (action : ReduxAction) (evalOutput queue : FormEvalOutput)
| AwaitBackend (frame : FetchFrame).

(** The module-level [isEvaluating] and [evalQueue], the suspended sagas,
    and the store. *)
Record System : Type := mkSystem {
  isEvaluating : bool;
  evalQueue : list ReduxAction;
  tasks : list Task;
  world : World
}.

Definition record (ev : Event) (w : World) : World :=
  mkWorld (dynHeap w) (condHeap w) (trace w ++ [ev]).

(** The [catch] of [setFormEvaluationSagaAsync]:
    [log.error(e); setIsEvaluating(false)]. *)
Definition caught (e : Exn) (sys : System) : System :=
  mkSystem false (evalQueue sys) (tasks sys) (record (EvLogError e) (world sys)).

Definition spawn (t : Task) (ev : Event) (sys : System) : System :=
  mkSystem (isEvaluating sys) (evalQueue sys) (tasks sys ++ [t])
    (record ev (world sys)).

(** [!!workerResponse] *)
Definition truthyResponse (workerResponse : WorkerResponse) : bool :=
  match workerResponse with
  | WState _ => true
  | WPrimitive PUndefined | WPrimitive PNull => false
  | WPrimitive (PBool b) => b
  | WPrimitive (PNum n) => negb (n =? 0)
  | WPrimitive (PStr s) => negb (String.eqb s "")
  end.

(** [workerResponse[formId]], as far as it is a truthy object: a TypeError
    on undefined and null, nothing on the other primitives. *)
Definition outputOf (workerResponse : WorkerResponse) (form : string)
  : Result (option FormEvalOutput) :=
  match workerResponse with
  | WState forms => Ok (Js.lookup form forms)
  | WPrimitive PUndefined | WPrimitive PNull => Throw TypeError
  | WPrimitive _ => Ok None
  end.

(** [x ? x : ""] *)
Definition orEmpty (x : option string) : string := default "" x.

(** Lines 68-82: from the entry to the call of the evaluation function;
    [currentEvalState] is what the [select] answers. *)
Definition setFormEvaluationSagaAsync (action : ReduxAction)
    (currentEvalState : Result JsVal) (sys : System) : System :=
  if isEvaluating sys then
    mkSystem (isEvaluating sys) (evalQueue sys ++ [action]) (tasks sys)
      (world sys)
  else
    let sys := mkSystem true (evalQueue sys) (tasks sys) (world sys) in
    match currentEvalState with
    | Ok state =>
        spawn (AwaitEvaluation action) (EvCallEvalFormConfig action state) sys
    | Throw e => caught e sys
    end.

(** Lines 83-112: from the return of the evaluation function to the race;
    [published] is what the store answers to the [put], [nextEvalState]
    what the [select] of the forked saga gets. *)
Definition afterEvaluation (action : ReduxAction)
    (workerResponse : Result WorkerResponse) (published : Result unit)
    (nextEvalState : Result JsVal) (sys : System) : System :=
  match workerResponse with
  | Throw e => caught e sys
  | Ok workerResponse =>
      let sys1 :=
        if truthyResponse workerResponse then
          mkSystem (isEvaluating sys) (evalQueue sys) (tasks sys)
            (record (EvPutEvaluationState workerResponse) (world sys))
        else sys in
      match (if truthyResponse workerResponse then published else Ok tt) with
      | Throw e => caught e sys1
      | Ok _ =>
          let sys2 := mkSystem false (evalQueue sys1) (tasks sys1) (world sys1) in
          match evalQueue sys2 with
          | nextAction :: queue =>
              setFormEvaluationSagaAsync nextAction nextEvalState
                (mkSystem false queue (tasks sys2)
                   (record (EvFork nextAction) (world sys2)))
          | [] =>
              match outputOf workerResponse (formId (payload action)) with
              | Throw e => caught e sys2
              | Ok None => sys2
              | Ok (Some evalOutput) =>
                  match extractQueueOfValuesToBeFetched (world sys2) evalOutput with
                  | Throw e => caught e sys2
                  | Ok queue => spawn (AwaitReady action evalOutput queue) EvRace sys2
                  end
              end
          end
      end
  end.

Section Sequencer.

Variable getDynamicBindings : JsVal -> Result JsVal.
Variable getDataTreeActionConfigPath : JsVal -> Result string.
Variable isDynamicValue : JsVal -> bool.

(** [fetchDynamicValuesSaga] up to its next call of the backend:
    [Some frame] when it is suspended there, [None] when it has
    published and returned. *)
Fixpoint fetchAdvance (envs : nat -> Env) (published : Result unit)
    (i : nat) (keys : list string)
    (queueOfValuesToBeFetched : FormEvalOutput) (formId : string)
    (evalOutput : FormEvalOutput) (datasourceId pluginId : string)
  : Saga (option FetchFrame) :=
  match keys with
  | [] =>
      put (EvPutFormEvaluation formId evalOutput) published ;;; ret None
  | key :: rest =>
      let target := Js.lookup key evalOutput in
      current <- read_fetchDynamicValues target ;;
      copy <- object_assign_empty current ;;
      emit (EvCallFetchDynamicValue key copy) ;;;
      fun w =>
        match fetchRequest getDynamicBindings getDataTreeActionConfigPath
                isDynamicValue (envs i)
                (Js.lookup key queueOfValuesToBeFetched) copy formId
                datasourceId pluginId key w with
        | (Ok request, w1) =>
            (emit (EvFetchDynamicFormValues request.1 request.2) ;;;
             ret (Some (mkFrame queueOfValuesToBeFetched formId evalOutput
                          datasourceId pluginId i target copy rest
                          request.1 request.2))) w1
        | (Throw e, w1) =>
            (fetchCatch copy e ;;;
             write_fetchDynamicValues target copy ;;;
             fetchAdvance envs published (S i) rest queueOfValuesToBeFetched
               formId evalOutput datasourceId pluginId) w1
        end
  end.

(** The backend has answered (or the call has thrown): the rest of
    [fetchDynamicValueSaga] for the current key, then the loop again. *)
Definition fetchAnswer (frame : FetchFrame) (answer : Result JsVal)
    (envs : nat -> Env) (published : Result unit)
  : Saga (option FetchFrame) :=
  try_catch
    (response <- lift answer ;; fetchResponse (frameCopy frame) response)
    (fetchCatch (frameCopy frame)) ;;;
  write_fetchDynamicValues (frameTarget frame) (frameCopy frame) ;;;
  fetchAdvance envs published (S (frameTurn frame)) (frameRest frame)
    (frameQueue frame) (frameFormId frame) (frameEvalOutput frame)
    (frameDatasourceId frame) (framePluginId frame).

(** Run the fetcher inside the [try] of the sequencer. *)
Definition runFetch (m : Saga (option FetchFrame)) (sys : System) : System :=
  match m (world sys) with
  | (Ok None, w) => mkSystem (isEvaluating sys) (evalQueue sys) (tasks sys) w
  | (Ok (Some frame), w) =>
      mkSystem (isEvaluating sys) (evalQueue sys)
        (tasks sys ++ [AwaitBackend frame]) w
  | (Throw e, w) =>
      caught e (mkSystem (isEvaluating sys) (evalQueue sys) (tasks sys) w)
  end.

(** What the outside can do: submit a request, or resume the task at
    position [i] with the answer it waits for. *)
Inductive Label : Type :=
| Submit (action : ReduxAction) (currentEvalState : Result JsVal)
| EvaluationDone (i : nat) (workerResponse : Result WorkerResponse)
    (published : Result unit) (nextEvalState : Result JsVal)
| Ready (i : nat)
| DelayElapsed (i : nat) (envs : nat -> Env) (published : Result unit)
| BackendAnswered (i : nat) (answer : Result JsVal) (envs : nat -> Env)
    (published : Result unit).

Definition without (i : nat) (sys : System) : System :=
  mkSystem (isEvaluating sys) (evalQueue sys) (delete i (tasks sys))
    (world sys).

Definition step (sys : System) (l : Label) : option System :=
  match l with
  | Submit action currentEvalState =>
      Some (setFormEvaluationSagaAsync action currentEvalState sys)
  | EvaluationDone i workerResponse published nextEvalState =>
      match tasks sys !! i with
      | Some (AwaitEvaluation action) =>
          Some (afterEvaluation action workerResponse published
                  nextEvalState (without i sys))
      | _ => None
      end
  | Ready i =>
      match tasks sys !! i with
      | Some (AwaitReady action evalOutput queue) =>
          Some (spawn (AwaitDelay action evalOutput queue) (EvDelay 500)
                  (without i sys))
      | _ => None
      end
  | DelayElapsed i envs published =>
      match tasks sys !! i with
      | Some (AwaitDelay action evalOutput queue) =>
          let form := formId (payload action) in
          let ds := orEmpty (datasourceId (payload action)) in
          let pl := orEmpty (pluginId (payload action)) in
          let sys1 := without i sys in
          Some (runFetch
                  (emit (EvCallFetchDynamicValues queue form evalOutput ds pl) ;;;
                   fetchAdvance envs published 0 queue.*1 queue form
                     evalOutput ds pl)
                  sys1)
      | _ => None
      end
  | BackendAnswered i answer envs published =>
      match tasks sys !! i with
      | Some (AwaitBackend frame) =>
          Some (runFetch (fetchAnswer frame answer envs published)
                  (without i sys))
      | _ => None
      end
  end.

(** A run: the labels applied one after the other. *)
Fixpoint run (sys : System) (labels : list Label) : option System :=
  match labels with
  | [] => Some sys
  | l :: rest =>
      match step sys l with
      | Some sys' => run sys' rest
      | None => None
      end
  end.

(** The cascade run to its end, the backend answering each call as
    [envs] has it: the suspended saga is resumed until it returns, at most
    [n] times. *)
Fixpoint settle (envs : nat -> Env) (published : Result unit) (n : nat)
    (outcome : Result (option FetchFrame) * World) : Result unit * World :=
  match outcome with
  | (Throw e, w) => (Throw e, w)
  | (Ok None, w) => (Ok tt, w)
  | (Ok (Some frame), w) =>
      match n with
      | O => (Ok tt, w)
      | S n' =>
          settle envs published n'
            (fetchAnswer frame
               (fetchDynamicFormValues (envs (frameTurn frame))
                  (frameUrl frame) (frameBody frame))
               envs published w)
      end
  end.

Definition throws {A} (outcome : Result A * World) : bool :=
  match outcome with
  | (Throw _, _) => true
  | _ => false
  end.

(** The step resumes a fetch cascade and an error escapes from it into
    the [catch] of the sequencer. *)
Definition cascadeThrows (sys : System) (l : Label) : bool :=
  match l with
  | DelayElapsed i envs published =>
      match tasks sys !! i with
      | Some (AwaitDelay action evalOutput queue) =>
          let form := formId (payload action) in
          let ds := orEmpty (datasourceId (payload action)) in
          let pl := orEmpty (pluginId (payload action)) in
          throws ((emit (EvCallFetchDynamicValues queue form evalOutput ds pl) ;;;
                   fetchAdvance envs published 0 queue.*1 queue form
                     evalOutput ds pl) (world sys))
      | _ => false
      end
  | BackendAnswered i answer envs published =>
      match tasks sys !! i with
      | Some (AwaitBackend frame) =>
          throws (fetchAnswer frame answer envs published (world sys))
      | _ => false
      end
  | _ => false
  end.

(** No error escapes from a fetch cascade anywhere in the run. *)
Fixpoint calm (sys : System) (labels : list Label) : bool :=
  match labels with
  | [] => true
  | l :: rest =>
      negb (cascadeThrows sys l)
      && match step sys l with
         | Some sys' => calm sys' rest
         | None => true
         end
  end.

End Sequencer.

Definition idle (w : World) : System := mkSystem false [] [] w.

(** ** The listener

    [formEvaluationChangeListener] first takes one [START_EVALUATION], then
    [formEvaluationChangeListenerSaga] takes the form evaluation actions
    one by one and forks [setFormEvaluationSagaAsync] for each.  Nothing the
    inner loop yields throws (a [take], and the [fork] of a saga that
    catches its own errors), so the [catch] around it is never entered. *)
Inductive Listener : Type :=
| AwaitStart
| Listening.

Section Listener.

(** [ReduxActionTypes.START_EVALUATION] and the action types listed in
    [FORM_EVALUATION_REDUX_ACTIONS], both declared outside this file. *)
Variable START_EVALUATION : string.
Variable FORM_EVALUATION_REDUX_ACTIONS : list string.

(** [take(pattern)] on a list of action types. *)
Definition taken (pattern : list string) (action : ReduxAction) : bool :=
  existsb (String.eqb (type action)) pattern.

(** An action is dispatched while the listener waits in its [take];
    [currentEvalState] is what the [select] of the forked saga gets. *)
Definition dispatch (l : Listener) (action : ReduxAction)
    (currentEvalState : Result JsVal) (sys : System) : Listener * System :=
  match l with
  | AwaitStart =>
      if taken [START_EVALUATION] action then (Listening, sys)
      else (AwaitStart, sys)
  | Listening =>
      if taken FORM_EVALUATION_REDUX_ACTIONS action
      then (Listening, setFormEvaluationSagaAsync action currentEvalState sys)
      else (Listening, sys)
  end.

Fixpoint dispatchAll (l : Listener)
    (actions : list (ReduxAction * Result JsVal)) (sys : System)
  : Listener * System :=
  match actions with
  | [] => (l, sys)
  | (action, currentEvalState) :: rest =>
      let '(l', sys') := dispatch l action currentEvalState sys in
      dispatchAll l' rest sys'
  end.

End Listener.

(** The requests submitted one after the other. *)
Fixpoint submitAll (actions : list (ReduxAction * Result JsVal))
    (sys : System) : System :=
  match actions with
  | [] => sys
  | (action, currentEvalState) :: rest =>
      submitAll rest (setFormEvaluationSagaAsync action currentEvalState sys)
  end.

(** ** The binding helpers

    [fetchDynamicValueSaga] is stated over any [getDynamicBindings],
    [getDataTreeActionConfigPath] and [isDynamicValue]; the instances below
    are the ones used on concrete inputs. *)
Module Bindings.

(** Modelled from the spec: the first embedded expression of a binding
    (section 4.2, step 4), which [getDynamicBindings] and [isDynamicValue],
    both missing from the sources, rest on: the text between the first
    opening marker and the closing marker that follows it. *)
Definition firstExpression (s : string) : option string :=
  match String.index 0 "{{" s with
  | None => None
  | Some i =>
      match String.index (i + 2) "}}" s with
      | None => None
      | Some j => Some (String.substring (i + 2) (j - (i + 2)) s)
      end
  end.

(** Modelled from the spec: [getDynamicBindings] of
    utils/DynamicBindingUtils is not among the sources.  Section 4.2,
    step 4: extract the inner path from the dynamic-binding expression
    (strip binding delimiters, take the first embedded expression). *)
Definition getDynamicBindings (value : JsVal) : Result JsVal :=
  match value with
  | JStr s =>
      match firstExpression s with
      | Some e => Ok (JObj [("stringSegments", JArr [JStr s]);
                            ("jsSnippets", JArr [JStr e])])
      | None => Ok (JObj [("stringSegments", JArr [JStr s]);
                          ("jsSnippets", JArr [JStr ""])])
      end
  | _ => Ok (JObj [("stringSegments", JArr []); ("jsSnippets", JArr [])])
  end.

(** Modelled from the spec: [getDataTreeActionConfigPath] of
    entities/Action/actionProperties is not among the sources.
    Section 8: the expression [actionConfiguration.formData.x.data]
    resolves to the configuration path [formData.x.data]. *)
Definition getDataTreeActionConfigPath (propertyPath : JsVal) : Result string :=
  match propertyPath with
  | JStr s =>
      if String.prefix "actionConfiguration." s
      then Ok (String.substring 20 (String.length s - 20) s)
      else Ok s
  | _ => Throw TypeError
  end.

(** Modelled from the spec: [isDynamicValue] of
    utils/DynamicBindingUtils is not among the sources.  Glossary: a
    dynamic binding expression is a string embedding a computed
    expression, delimited by the marker syntax. *)
Definition isDynamicValue (value : JsVal) : bool :=
  match value with
  | JStr s => match firstExpression s with Some _ => true | None => false end
  | _ => false
  end.

End Bindings.

(** ** Sample inputs *)
Module Samples.

Definition binding : JsVal := JStr "{{actionConfiguration.formData.x.data}}".

(** A config that declares the parameter [x], and one that declares no
    parameters. *)
Definition declaring : JsVal :=
  JObj [("params", JObj [("parameters", JObj [("x", binding)])])].

Definition dynamicValues (config evaluatedConfig : JsVal) : DynamicValues :=
  [("allowedToFetch", JBool true); ("isLoading", JBool true);
   ("hasStarted", JBool false);
   ("config", config); ("evaluatedConfig", evaluatedConfig)].

Definition notAllowed : DynamicValues :=
  [("allowedToFetch", JBool false); ("isLoading", JBool false);
   ("hasStarted", JBool false);
   ("config", declaring); ("evaluatedConfig", declaring)].

(** Field [x] at address 0, its [fetchDynamicValues] at address 0 of the
    other heap, and the copy handed to the fetch at address 1. *)
Definition world (config evaluatedConfig : JsVal) : World :=
  mkWorld {[ 0%nat := dynamicValues config evaluatedConfig;
             1%nat := dynamicValues config evaluatedConfig ]}
          {[ 0%nat := mkConditionalOutput (Some 0%nat) [] ]} [].

Definition okResponse : JsVal :=
  JObj [("responseMeta", JObj [("status", JNum 200)]);
        ("data", JObj [("trigger", JArr [JNum 1; JNum 2])])].

(** The action is [Api1] in the data tree, with the given evaluated
    values; the backend answers [response]. *)
Definition env (evaluatedValues : JsVal) (response : Result JsVal) : Env :=
  mkEnv (fun _ => Ok (Some "Api1"))
        (Ok (JObj [("Api1",
                    JObj [("__evaluation__",
                           JObj [("evaluatedValues", evaluatedValues)])])]))
        (fun datasourceId => "/datasources/" +:+ datasourceId +:+ "/trigger")
        (fun _ _ => response).

Definition unresolved : JsVal :=
  JObj [("formData", JObj [("x", JObj [("data", JStr "{{Input1.text}}")])])].

(** What [fetchDynamicValueSaga] is about to send for field [x]. *)
Definition request (config evaluatedConfig evaluatedValues : JsVal)
  : Result (JsVal * JsVal) :=
  (fetchRequest Bindings.getDynamicBindings
     Bindings.getDataTreeActionConfigPath Bindings.isDynamicValue
     (env evaluatedValues (Ok okResponse)) (Some 0%nat) 1%nat
     "a1" "d1" "p1" "x" (world config evaluatedConfig)).1.


(** The store the sequencer examples start from; [still] is the same
    with a field that is not allowed to fetch. *)
Definition store : World := world declaring declaring.
Definition still : World :=
  mkWorld {[ 0%nat := notAllowed ]}
          {[ 0%nat := mkConditionalOutput (Some 0%nat) [] ]} [].

Definition R1 : ReduxAction :=
  mkAction "RUN_FORM_EVALUATION" (mkPayload "a1" (Some "d1") None).
Definition R2 : ReduxAction :=
  mkAction "RUN_FORM_EVALUATION" (mkPayload "a2" None None).

Definition R3 : ReduxAction :=
  mkAction "RUN_FORM_EVALUATION" (mkPayload "a3" None None).

(** The evaluation state with the output of form [a1]: its field [x]. *)
Definition evaluated : WorkerResponse := WState [("a1", [("x", 0%nat)])].

Definition envs (i : nat) : Env := env unresolved (Ok okResponse).

Definition runFrom (w : World) (labels : list Label) : option System :=
  run Bindings.getDynamicBindings Bindings.getDataTreeActionConfigPath
    Bindings.isDynamicValue (idle w) labels.


(** The system while [R1] is evaluated, and at the end of its cycle. *)
Definition started (w : World) : System :=
  default (idle w) (runFrom w [Submit R1 (Ok JNull)]).


End Samples.

(** ** Vocabulary of the statements *)

(** The response carries HTTP status 200. *)
Definition hasStatus200 (response : JsVal) : Prop :=
  exists responseMeta,
    Js.get response "responseMeta" = Ok responseMeta /\
    Js.get responseMeta "status" = Ok (JNum 200).

(** The body of the response has a [trigger] field, holding [trigger]. *)
Definition hasTrigger (response trigger : JsVal) : Prop :=
  exists data,
    Js.get response "data" = Ok data /\
    Js.has_in "trigger" data = Ok true /\
    Js.get data "trigger" = Ok trigger.

(** The requests whose evaluation is under way: the tasks suspended in
    the call of the evaluation function. *)
Fixpoint evaluations (ts : list Task) : nat :=
  match ts with
  | [] => 0
  | AwaitEvaluation _ :: ts' => S (evaluations ts')
  | _ :: ts' => evaluations ts'
  end.

(** The busy flag is set exactly while one evaluation is under way, and
    there is never more than one. *)
Definition balanced (sys : System) : Prop :=
  evaluations (tasks sys) = if isEvaluating sys then 1%nat else 0%nat.

(** The events that publish state. *)
Definition publishes (ev : Event) : bool :=
  match ev with
  | EvPutFormEvaluation _ _ | EvPutEvaluationState _ => true
  | _ => false
  end.

(** The fields [fetchDynamicValueSaga] was called for, in order. *)
Fixpoint calls (evs : list Event) : list string :=
  match evs with
  | [] => []
  | EvCallFetchDynamicValue key _ :: evs' => key :: calls evs'
  | _ :: evs' => calls evs'
  end.

(** The value of a property, [undefined] when it is missing. *)
Definition prop (k : string) (o : DynamicValues) : JsVal :=
  default JUndefined (Js.lookup k o).

(** [local_to d m]: whatever [m] returns or throws, it leaves every
    [ConditionalOutput] and every [DynamicValues] object other than [d] as
    they were, keeps [d] allocated, and adds to the trace only logged
    errors and calls of the backend. *)
Definition fetching (ev : Event) : bool :=
  match ev with
  | EvLogError _ | EvFetchDynamicFormValues _ _ => true
  | _ => false
  end.

Record footprint (d : nat) (w w' : World) : Prop := mkFootprint {
  fp_cond : condHeap w' = condHeap w;
  fp_others : forall d', d' <> d -> dynHeap w' !! d' = dynHeap w !! d';
  fp_alloc : is_Some (dynHeap w !! d) -> is_Some (dynHeap w' !! d);
  fp_trace : exists evs, trace w' = (trace w ++ evs)%list
                         /\ Forall (fun ev => fetching ev = true) evs
}.

Definition local_to {A} (d : nat) (m : Saga A) : Prop :=
  forall w r w', m w = (r, w') -> footprint d w w'.

(** [extends w w']: the trace of [w'] continues that of [w], and every
    object of [w] is still there in [w']. *)
Record extends (w w' : World) : Prop := mkExtends {
  ext_trace : exists evs, trace w' = (trace w ++ evs)%list;
  ext_cond : forall c, is_Some (condHeap w !! c) -> is_Some (condHeap w' !! c);
  ext_dyn : forall d, is_Some (dynHeap w !! d) -> is_Some (dynHeap w' !! d)
}.

Definition growing {A} (m : Saga A) : Prop :=
  forall w r w', m w = (r, w') -> extends w w'.


(** Every key names a field of [evalOutput] whose [ConditionalOutput] is
    in the store. *)
Definition defined (w : World) (evalOutput : FormEvalOutput)
    (keys : list string) : Prop :=
  forall key, key ∈ keys ->
    exists c, Js.lookup key evalOutput = Some c /\ is_Some (condHeap w !! c).

(** What a suspended cascade relies on: the keys still to be fetched are
    fields of its [evalOutput], and while the backend is called the field
    and the copy in hand are in the store. *)
Definition grounded (w : World) (t : Task) : Prop :=
  match t with
  | AwaitEvaluation _ => True
  | AwaitReady _ evalOutput queue | AwaitDelay _ evalOutput queue =>
      defined w evalOutput queue.*1
  | AwaitBackend frame =>
      defined w (frameEvalOutput frame) (frameRest frame) /\
      (exists c, frameTarget frame = Some c /\ is_Some (condHeap w !! c)) /\
      is_Some (dynHeap w !! frameCopy frame)
  end.

Definition allGrounded (sys : System) : Prop :=
  Forall (grounded (world sys)) (tasks sys).

(** The publish that ends a cascade, if the step reaches it, succeeds. *)
Definition cascadePublished (l : Label) : bool :=
  match l with
  | DelayElapsed _ _ (Throw _) | BackendAnswered _ _ _ (Throw _) => false
  | _ => true
  end.

(** A field is to be fetched: its [fetchDynamicValues] is there and
    allowed to fetch. *)
Definition fetchable (w : World) (value : nat) : bool :=
  match isFetchable w value with
  | Ok b => b
  | Throw _ => false
  end.

(** The properties [fetchDynamicValueSaga] assigns. *)
Definition lifecycle : list string :=
  ["hasStarted"; "isLoading"; "hasFetchFailed"; "data"].

(** The requests the evaluation function was called for, in order. *)
Fixpoint evaluationCalls (evs : list Event) : list ReduxAction :=
  match evs with
  | [] => []
  | EvCallEvalFormConfig action _ :: evs' => action :: evaluationCalls evs'
  | _ :: evs' => evaluationCalls evs'
  end.

(** [preserving d m]: [m] keeps the object [d] and every property of it
    outside the lifecycle ones. *)
Definition preserving {A} (d : nat) (m : Saga A) : Prop :=
  forall w r w' o,
    m w = (r, w') -> dynHeap w !! d = Some o ->
    exists o', dynHeap w' !! d = Some o' /\
               forall k, k ∉ lifecycle -> Js.lookup k o' = Js.lookup k o.

(** A fetch has come to its end on [o]: it is no longer loading, and
    either it has failed, with no data, or it has not. *)
Definition settled (o : DynamicValues) : Prop :=
  prop "isLoading" o = JBool false /\
  ((prop "hasFetchFailed" o = JBool true /\ prop "data" o = JArr [])
   \/ prop "hasFetchFailed" o = JBool false).

(** The field [c] holds a settled [fetchDynamicValues]. *)
Definition settledField (w : World) (c : nat) : Prop :=
  exists co d o,
    condHeap w !! c = Some co /\ fetchDynamicValues co = Some d /\
    dynHeap w !! d = Some o /\ settled o.

(** Every [fetchDynamicValues] reference of the store names an object of
    the store. *)
Definition wellPointed (w : World) : Prop :=
  forall c co d,
    condHeap w !! c = Some co -> fetchDynamicValues co = Some d ->
    is_Some (dynHeap w !! d).

(** Requests submitted one after the other, and the evaluation at
    position [i] ending again and again, each time with a response, a
    successful publish and a state for the request forked next. *)
Definition submits (requests : list (ReduxAction * Result JsVal))
  : list Label :=
  (fun request => Submit request.1 request.2) <$> requests.

Definition evaluationsDone (i : nat) (answers : list (WorkerResponse * JsVal))
  : list Label :=
  (fun a => EvaluationDone i (Ok a.1) (Ok tt) (Ok a.2)) <$> answers.

(** Nothing the sequencer itself asks for fails: the state reads, the
    evaluation function and the publishes all succeed.  What the backend
    answers is left open. *)
Definition clean (l : Label) : bool :=
  match l with
  | Submit _ (Ok _) | EvaluationDone _ (Ok _) (Ok _) (Ok _) | Ready _
  | DelayElapsed _ _ (Ok _) | BackendAnswered _ _ _ (Ok _) => true
  | _ => false
  end.

(** A queued request has an evaluation ahead of it. *)
Definition served (sys : System) : Prop :=
  evalQueue sys = [] \/ isEvaluating sys = true.

(** * Properties *)

(** ** Property bags *)

Lemma lookup_set_eq {A} (k : string) (v : A) (o : list (string * A)) :
  Js.lookup k (Js.set k v o) = Some v.
Proof.
  induction o as [|[k' v'] o IH]; simpl.
  - now rewrite String.eqb_refl.
  - destruct (String.eqb k k') eqn:E; simpl; rewrite ?String.eqb_refl, ?E; auto.
Qed.

Lemma lookup_set_ne {A} (k k' : string) (v : A) (o : list (string * A)) :
  k <> k' -> Js.lookup k' (Js.set k v o) = Js.lookup k' o.
Proof.
  intros Hne. induction o as [|[k0 v0] o IH]; simpl.
  - destruct (String.eqb k' k) eqn:E; auto.
    apply String.eqb_eq in E. congruence.
  - destruct (String.eqb k k0) eqn:E; simpl.
    + apply String.eqb_eq in E. subst k0.
      destruct (String.eqb k' k) eqn:E'; auto.
      apply String.eqb_eq in E'. congruence.
    + destruct (String.eqb k' k0); auto.
Qed.

Lemma keys_set_present {A} (k : string) (v : A) (o : list (string * A)) :
  Js.has k o = true -> (Js.set k v o).*1 = o.*1.
Proof.
  unfold Js.has. induction o as [|[k' v'] o IH]; simpl; [discriminate|].
  destruct (String.eqb k k') eqn:E; simpl.
  - apply String.eqb_eq in E. now subst.
  - intros H. f_equal. auto.
Qed.

Lemma keys_set_absent {A} (k : string) (v : A) (o : list (string * A)) :
  Js.has k o = false -> (Js.set k v o).*1 = (o.*1 ++ [k])%list.
Proof.
  unfold Js.has. induction o as [|[k' v'] o IH]; simpl; [reflexivity|].
  destruct (String.eqb k k') eqn:E; simpl; [discriminate|].
  intros H. f_equal. auto.
Qed.

Lemma prop_set_eq (k : string) (v : JsVal) (o : DynamicValues) :
  prop k (Js.set k v o) = v.
Proof. unfold prop. now rewrite lookup_set_eq. Qed.

Lemma prop_set_ne (k k' : string) (v : JsVal) (o : DynamicValues) :
  k <> k' -> prop k' (Js.set k v o) = prop k' o.
Proof. intros. unfold prop. now rewrite lookup_set_ne. Qed.

(** ** Steps of the store *)

Lemma set_dyn_allocated (d : nat) (k : string) (v : JsVal) (w : World)
    (o : DynamicValues) :
  dynHeap w !! d = Some o ->
  set_dyn d k v w =
    (Ok tt, mkWorld (<[d := Js.set k v o]> (dynHeap w)) (condHeap w) (trace w)).
Proof. intros H. unfold set_dyn. now rewrite H. Qed.

Lemma set_dyn_inv (d : nat) (k : string) (v : JsVal) (w w' : World)
    (r : Result unit) :
  set_dyn d k v w = (r, w') ->
  condHeap w' = condHeap w /\ trace w' = trace w /\
  (forall d', d' <> d -> dynHeap w' !! d' = dynHeap w !! d') /\
  (forall o, dynHeap w !! d = Some o ->
     r = Ok tt /\ dynHeap w' !! d = Some (Js.set k v o)).
Proof.
  unfold set_dyn. destruct (dynHeap w !! d) eqn:E; intros [= <- <-]; simpl.
  - split_and!; [done | done | |].
    + intros d' Hne. now rewrite lookup_insert_ne.
    + intros o' [= <-]. now rewrite lookup_insert_eq.
  - split_and!; [done | done | done | congruence].
Qed.

Lemma bind_ok {A B} (m : Saga A) (k : A -> Saga B) (w w1 : World) (a : A) :
  m w = (Ok a, w1) -> bind m k w = k a w1.
Proof. intros H. unfold bind. now rewrite H. Qed.

Lemma bind_throw {A B} (m : Saga A) (k : A -> Saga B) (w w1 : World) (e : Exn) :
  m w = (Throw e, w1) -> bind m k w = (Throw e, w1).
Proof. intros H. unfold bind. now rewrite H. Qed.

Lemma read_fetchDynamicValues_some (c : nat) (co : ConditionalOutput)
    (w : World) :
  condHeap w !! c = Some co ->
  read_fetchDynamicValues (Some c) w = (Ok (fetchDynamicValues co), w).
Proof. intros H. unfold read_fetchDynamicValues. simpl. now rewrite H. Qed.

Lemma read_fetchDynamicValues_none (c : option nat) (w : World) :
  (c ≫= fun a => condHeap w !! a) = None ->
  read_fetchDynamicValues c w = (Throw TypeError, w).
Proof. intros H. unfold read_fetchDynamicValues. now rewrite H. Qed.

Lemma write_fetchDynamicValues_some (c d : nat) (co : ConditionalOutput)
    (w : World) :
  condHeap w !! c = Some co ->
  write_fetchDynamicValues (Some c) d w =
    (Ok tt, mkWorld (dynHeap w)
              (<[c := mkConditionalOutput (Some d) (otherProps co)]> (condHeap w))
              (trace w)).
Proof. intros H. unfold write_fetchDynamicValues. simpl. now rewrite H. Qed.

(** ** Footprint of a saga *)


Lemma footprint_refl (d : nat) (w : World) : footprint d w w.
Proof.
  split; auto. exists []. split; [now rewrite app_nil_r | constructor].
Qed.

Lemma footprint_trans (d : nat) (w1 w2 w3 : World) :
  footprint d w1 w2 -> footprint d w2 w3 -> footprint d w1 w3.
Proof.
  intros [c1 o1 a1 (e1 & t1 & q1)] [c2 o2 a2 (e2 & t2 & q2)]. split.
  - congruence.
  - intros d' Hne. rewrite o2, o1; auto.
  - auto.
  - exists (e1 ++ e2)%list. split.
    + rewrite t2, t1. now rewrite app_assoc.
    + now apply Forall_app.
Qed.

Lemma local_ret {A} (d : nat) (a : A) : local_to d (ret a).
Proof. intros w r w' [= <- <-]. apply footprint_refl. Qed.

Lemma local_lift {A} (d : nat) (x : Result A) : local_to d (lift x).
Proof. intros w r w' [= <- <-]. apply footprint_refl. Qed.

Lemma local_bind {A B} (d : nat) (m : Saga A) (k : A -> Saga B) :
  local_to d m -> (forall a, local_to d (k a)) -> local_to d (bind m k).
Proof.
  intros Hm Hk w r w'. unfold bind.
  destruct (m w) as [[a|e] w1] eqn:E; intros H.
  - eapply footprint_trans; [eapply Hm | eapply Hk]; eauto.
  - injection H as <- <-. eapply Hm; eauto.
Qed.

Lemma local_try_catch {A} (d : nat) (body : Saga A) (handler : Exn -> Saga A) :
  local_to d body -> (forall e, local_to d (handler e)) ->
  local_to d (try_catch body handler).
Proof.
  intros Hm Hk w r w'. unfold try_catch.
  destruct (body w) as [[a|e] w1] eqn:E; intros H.
  - injection H as <- <-. eapply Hm; eauto.
  - eapply footprint_trans; [eapply Hm | eapply Hk]; eauto.
Qed.

Lemma local_emit (d : nat) (ev : Event) :
  fetching ev = true -> local_to d (emit ev).
Proof.
  intros Hq w r w' [= <- <-]. split; simpl; auto.
  exists [ev]. split; auto.
Qed.

Lemma local_set_dyn (d : nat) (k : string) (v : JsVal) :
  local_to d (set_dyn d k v).
Proof.
  intros w r w' H. apply set_dyn_inv in H as (Hc & Ht & Ho & Hd).
  split; auto.
  - intros [o Hw]. destruct (Hd o Hw) as [_ ->]. eauto.
  - exists []. split; [now rewrite app_nil_r | constructor].
Qed.

Lemma local_read_fetchDynamicValues (d : nat) (c : option nat) :
  local_to d (read_fetchDynamicValues c).
Proof.
  intros w r w'. unfold read_fetchDynamicValues.
  destruct (c ≫= _); intros [= <- <-]; apply footprint_refl.
Qed.

Create HintDb footprint.
#[export] Hint Resolve local_ret local_lift local_set_dyn
  local_read_fetchDynamicValues : footprint.

Ltac local_steps :=
  repeat first
    [ solve [auto with footprint]
    | apply local_emit; reflexivity
    | apply local_bind; [| intros ?] ].

Section FetchOneProperties.

Variable getDynamicBindings : JsVal -> Result JsVal.
Variable getDataTreeActionConfigPath : JsVal -> Result string.
Variable isDynamicValue : JsVal -> bool.

Local Abbreviation request :=
  (fetchRequest getDynamicBindings getDataTreeActionConfigPath isDynamicValue).
Local Abbreviation tryBlock :=
  (fetchTry getDynamicBindings getDataTreeActionConfigPath isDynamicValue).
Local Abbreviation backendAnswered :=
  (answered getDynamicBindings getDataTreeActionConfigPath isDynamicValue).
Local Abbreviation fetchOne :=
  (fetchDynamicValueSaga getDynamicBindings getDataTreeActionConfigPath
     isDynamicValue).

Lemma local_destructure (d : nat) (src : option nat) :
  local_to d (destructure src).
Proof.
  intros w r w'. unfold destructure.
  destruct (src ≫= _); intros [= <- <-]; apply footprint_refl.
Qed.

Lemma local_fetchRequest (env : Env) (value : option nat) (d : nat)
    (actionId datasourceId pluginId configProperty : string) :
  local_to d (request env value d actionId datasourceId pluginId
                configProperty).
Proof.
  unfold fetchRequest. pose proof local_destructure.
  local_steps.
Qed.

Lemma local_callApi (env : Env) (d : nat) (url body : JsVal) :
  local_to d (callApi env url body).
Proof. unfold callApi. local_steps. Qed.

Lemma local_fetchResponse (d : nat) (response : JsVal) :
  local_to d (fetchResponse d response).
Proof.
  unfold fetchResponse. local_steps.
  destruct (Js.is_num 200 _); local_steps.
  match goal with b : bool |- _ => destruct b end; local_steps.
Qed.

Lemma local_fetchCatch (d : nat) (e : Exn) : local_to d (fetchCatch d e).
Proof. unfold fetchCatch. local_steps. Qed.

Lemma local_fetchTry (env : Env) (value : option nat) (d : nat)
    (actionId datasourceId pluginId configProperty : string) :
  local_to d (tryBlock env value d actionId datasourceId pluginId
                configProperty).
Proof.
  unfold fetchTry.
  pose proof local_fetchRequest. pose proof local_callApi.
  pose proof local_fetchResponse. local_steps.
Qed.

Lemma local_fetchDynamicValueSaga (env : Env) (value : option nat) (d : nat)
    (actionId datasourceId pluginId configProperty : string) :
  local_to d (fetchOne env value d actionId datasourceId pluginId
                configProperty).
Proof.
  unfold fetchDynamicValueSaga.
  apply local_bind; [| intros ?; auto with footprint].
  apply local_try_catch; [apply local_fetchTry | apply local_fetchCatch].
Qed.

(** The [catch] block on an allocated object. *)
Lemma fetchCatch_spec (d : nat) (e : Exn) (w : World) (o : DynamicValues) :
  dynHeap w !! d = Some o ->
  exists w' o',
    fetchCatch d e w = (Ok tt, w') /\
    trace w' = (trace w ++ [EvLogError e])%list /\
    dynHeap w' !! d = Some o' /\
    prop "hasFetchFailed" o' = JBool true /\
    prop "isLoading" o' = JBool false /\
    prop "data" o' = JArr [] /\
    prop "hasStarted" o' = prop "hasStarted" o.
Proof.
  intros Hd. unfold fetchCatch, bind, log_error, emit.
  erewrite set_dyn_allocated by (simpl; eassumption). simpl.
  erewrite set_dyn_allocated by (simpl; apply lookup_insert_eq). simpl.
  erewrite set_dyn_allocated by (simpl; apply lookup_insert_eq). simpl.
  eexists _, _. split; [reflexivity|]. simpl.
  split; [reflexivity|]. split; [apply lookup_insert_eq|].
  rewrite prop_set_eq.
  rewrite !(prop_set_ne "data") by discriminate.
  rewrite !prop_set_eq.
  rewrite !(prop_set_ne "isLoading") by discriminate.
  rewrite !prop_set_eq.
  rewrite !(prop_set_ne "hasFetchFailed") by discriminate.
  auto.
Qed.

(** Lines 253-260 on an allocated object. *)
Lemma fetchResponse_spec (d : nat) (response : JsVal) (w : World)
    (o : DynamicValues) :
  dynHeap w !! d = Some o ->
  exists r w' o',
    fetchResponse d response w = (r, w') /\
    trace w' = trace w /\
    dynHeap w' !! d = Some o' /\
    prop "isLoading" o' = JBool false /\
    prop "hasStarted" o' = prop "hasStarted" o /\
    ((exists trigger,
        hasStatus200 response /\ hasTrigger response trigger /\ r = Ok tt /\
        prop "data" o' = trigger /\ prop "hasFetchFailed" o' = JBool false)
     \/ ((~ exists trigger, hasStatus200 response /\ hasTrigger response trigger) /\
         (r = Ok tt ->
          prop "hasFetchFailed" o' = JBool true /\ prop "data" o' = JArr []))).
Proof.
  intros Hd. unfold fetchResponse, bind, lift.
  erewrite set_dyn_allocated by eassumption. simpl.
  assert (Hl : prop "isLoading" (Js.set "isLoading" (JBool false) o) = JBool false)
    by apply prop_set_eq.
  assert (Hs : prop "hasStarted" (Js.set "isLoading" (JBool false) o)
               = prop "hasStarted" o) by (apply prop_set_ne; discriminate).
  set (o1 := Js.set "isLoading" (JBool false) o) in *.
  set (w1 := mkWorld _ _ _).
  assert (Hd1 : dynHeap w1 !! d = Some o1) by apply lookup_insert_eq.
  assert (Hfailed : exists w' o',
    bind (set_dyn d "hasFetchFailed" (JBool true))
         (fun _ => set_dyn d "data" (JArr [])) w1 = (Ok tt, w') /\
    trace w' = trace w /\ dynHeap w' !! d = Some o' /\
    prop "isLoading" o' = JBool false /\
    prop "hasStarted" o' = prop "hasStarted" o /\
    prop "hasFetchFailed" o' = JBool true /\ prop "data" o' = JArr []).
  { unfold bind. erewrite set_dyn_allocated by eassumption. simpl.
    erewrite set_dyn_allocated by (simpl; apply lookup_insert_eq). simpl.
    eexists _, _. split; [reflexivity|]. simpl.
    split; [reflexivity|]. split; [apply lookup_insert_eq|].
    rewrite prop_set_eq, !(prop_set_ne "data"), prop_set_eq,
      !(prop_set_ne "hasFetchFailed") by discriminate. auto. }
  unfold bind in Hfailed.
  destruct (Js.get response "responseMeta") as [meta|e] eqn:Em.
  2:{ exists (Throw e), w1, o1. split_and!; auto. right. split; [|discriminate].
      intros (t & (m & Hm & _) & _). congruence. }
  destruct (Js.get meta "status") as [status|e] eqn:Es.
  2:{ exists (Throw e), w1, o1. split_and!; auto. right. split; [|discriminate].
      intros (t & (m & Hm & Hst) & _). congruence. }
  destruct (Js.is_num 200 status) eqn:E200.
  2:{ destruct Hfailed as (w' & o' & Hrun & ? & ? & ? & ? & ? & ?).
      exists (Ok tt), w', o'. split_and!; auto. right. split; [|auto].
      intros (t & (m & Hm & Hst) & _).
      assert (meta = m) by congruence. subst m.
      assert (status = JNum 200) by congruence. subst status. discriminate. }
  assert (status = JNum 200) as ->.
  { destruct status; try discriminate. simpl in E200.
    apply Z.eqb_eq in E200. now subst. }
  assert (H200 : hasStatus200 response) by (exists meta; auto).
  destruct (Js.get response "data") as [data|e] eqn:Edata.
  2:{ exists (Throw e), w1, o1. split_and!; auto. right. split; [|discriminate].
      intros (t & _ & (x & Hx & _)). congruence. }
  destruct (Js.has_in "trigger" data) as [[|]|e] eqn:Ein.
  - destruct (Js.get data "trigger") as [trigger|e] eqn:Et.
    + unfold bind. erewrite set_dyn_allocated by eassumption. simpl.
      erewrite set_dyn_allocated by (simpl; apply lookup_insert_eq). simpl.
      eexists _, _, _. split; [reflexivity|]. simpl.
      split; [reflexivity|]. split; [apply lookup_insert_eq|].
      split; [now rewrite !prop_set_ne by discriminate|].
      split; [now rewrite !prop_set_ne by discriminate|].
      left. exists trigger. split_and!; auto.
      * exists data; auto.
      * now rewrite prop_set_ne, prop_set_eq by discriminate.
      * apply prop_set_eq.
    + exists (Throw e), w1, o1. split_and!; auto. right. split; [|discriminate].
      intros (t & _ & (x & Hx & _ & Hy)).
      assert (data = x) by congruence. subst x. congruence.
  - destruct Hfailed as (w' & o' & Hrun & ? & ? & ? & ? & ? & ?).
    exists (Ok tt), w', o'. split_and!; auto. right. split; [|auto].
    intros (t & _ & (x & Hx & Hy & _)).
    assert (data = x) by congruence. subst x. congruence.
  - exists (Throw e), w1, o1. split_and!; auto. right. split; [|discriminate].
    intros (t & _ & (x & Hx & Hy & _)).
    assert (data = x) by congruence. subst x. congruence.
Qed.

Lemma hasTrigger_fun (response t1 t2 : JsVal) :
  hasTrigger response t1 -> hasTrigger response t2 -> t1 = t2.
Proof.
  intros (d1 & H1 & _ & G1) (d2 & H2 & _ & G2).
  assert (d1 = d2) by congruence. subst. congruence.
Qed.

(** What the [try] block does once the request phase is known. *)
Lemma fetchTry_answered (env : Env) (value : option nat) (d : nat)
    (actionId datasourceId pluginId configProperty : string)
    (w : World) (response : JsVal) :
  backendAnswered env value d actionId datasourceId pluginId configProperty
    w response ->
  exists url body w1,
    request env value d actionId datasourceId pluginId configProperty w
      = (Ok (url, body), w1) /\
    tryBlock env value d actionId datasourceId pluginId configProperty w
      = fetchResponse d response
          (mkWorld (dynHeap w1) (condHeap w1)
             (trace w1 ++ [EvFetchDynamicFormValues url body])).
Proof.
  intros (url & body & w1 & Hreq & Hapi). exists url, body, w1.
  split; [assumption|].
  unfold fetchTry, bind at 1. rewrite Hreq. simpl.
  unfold callApi, bind, emit, lift. simpl. now rewrite Hapi.
Qed.

Lemma fetchTry_unanswered (env : Env) (value : option nat) (d : nat)
    (actionId datasourceId pluginId configProperty : string)
    (w w2 : World) (r : Result unit) :
  tryBlock env value d actionId datasourceId pluginId configProperty w
    = (r, w2) ->
  (exists response,
     backendAnswered env value d actionId datasourceId pluginId
       configProperty w response)
  \/ (exists e, r = Throw e).
Proof.
  unfold fetchTry, bind at 1.
  destruct (request _ _ _ _ _ _ _ w) as [[[url body]|e] w1] eqn:Ereq.
  - unfold callApi, bind, emit, lift. simpl.
    destruct (fetchDynamicFormValues env url body) as [response|e] eqn:Eapi.
    + intros _. left. exists response, url, body, w1. auto.
    + intros [= <- _]. right. eauto.
  - intros [= <- _]. right. eauto.
Qed.

Lemma answered_fun (env : Env) (value : option nat) (d : nat)
    (actionId datasourceId pluginId configProperty : string)
    (w : World) (r1 r2 : JsVal) :
  backendAnswered env value d actionId datasourceId pluginId configProperty
    w r1 ->
  backendAnswered env value d actionId datasourceId pluginId configProperty
    w r2 ->
  r1 = r2.
Proof.
  intros (u1 & b1 & w1 & H1 & G1) (u2 & b2 & w2 & H2 & G2).
  rewrite H1 in H2. injection H2 as <- <- <-. congruence.
Qed.

(** C4. Whatever happens, [fetchDynamicValueSaga] returns its
    [dynamicFetchedValues] with [isLoading = false].  When the backend
    answered with status 200 and a [trigger] field in the body, [data] is
    that payload and [hasFetchFailed = false]; in every other case
    [hasFetchFailed = true] and [data = []]; and an error thrown in the
    [try] block is logged, with [hasFetchFailed = true] and [data = []]. *)
Theorem fetchDynamicValueSaga_result (env : Env) (value : option nat)
    (d : nat) (actionId datasourceId pluginId configProperty : string)
    (w : World) (o : DynamicValues) :
  dynHeap w !! d = Some o ->
  exists w' o',
    fetchOne env value d actionId datasourceId pluginId configProperty w
      = (Ok d, w') /\
    dynHeap w' !! d = Some o' /\
    prop "isLoading" o' = JBool false /\
    (forall response trigger,
       backendAnswered env value d actionId datasourceId pluginId
         configProperty w response ->
       hasStatus200 response -> hasTrigger response trigger ->
       prop "data" o' = trigger /\ prop "hasFetchFailed" o' = JBool false) /\
    ((~ exists response trigger,
         backendAnswered env value d actionId datasourceId pluginId
           configProperty w response /\
         hasStatus200 response /\ hasTrigger response trigger) ->
     prop "hasFetchFailed" o' = JBool true /\ prop "data" o' = JArr []) /\
    (forall e w1,
       tryBlock env value d actionId datasourceId pluginId configProperty w
         = (Throw e, w1) ->
       trace w' = (trace w1 ++ [EvLogError e])%list /\
       prop "hasFetchFailed" o' = JBool true /\ prop "data" o' = JArr []).
Proof.
  intros Hd. unfold fetchDynamicValueSaga, bind, try_catch, ret.
  destruct (tryBlock _ _ _ _ _ _ _ w) as [r w2] eqn:Etry.
  pose proof (local_fetchTry _ _ _ _ _ _ _ _ _ _ Etry) as Hfp.
  destruct (fp_alloc _ _ _ Hfp (ex_intro _ o Hd)) as [o2 Hd2].
  destruct (fetchTry_unanswered _ _ _ _ _ _ _ _ _ _ Etry)
    as [[response Hans]|[e ->]].
  - destruct (fetchTry_answered _ _ _ _ _ _ _ _ _ Hans)
      as (url & body & w1 & Hreq & Hrun).
    pose proof (local_fetchRequest _ _ _ _ _ _ _ _ _ _ Hreq) as Hfq.
    destruct (fp_alloc _ _ _ Hfq (ex_intro _ o Hd)) as [o1 Hd1].
    destruct (fetchResponse_spec d response
                (mkWorld (dynHeap w1) (condHeap w1)
                   (trace w1 ++ [EvFetchDynamicFormValues url body])) o1 Hd1)
      as (r' & w' & o' & Hresp & _ & Hd' & Hload & _ & Hcase).
    rewrite Hrun, Hresp in Etry. injection Etry as -> ->.
    destruct Hcase as [(trigger & H200 & Htrig & -> & Hdata & Hfail)
                      |[Hnot Hrest]].
    + exists w2, o'. split_and!; auto.
      * intros response' trigger' Hans' _ Htrig'.
        rewrite (answered_fun _ _ _ _ _ _ _ _ _ _ Hans' Hans) in Htrig'.
        now rewrite (hasTrigger_fun _ _ _ Htrig' Htrig).
      * intros Hnone. exfalso. apply Hnone. eauto 6.
      * discriminate.
    + destruct r as [[]|e].
      * exists w2, o'. split_and!; auto.
        -- intros response' trigger' Hans' H200 Htrig'.
           rewrite (answered_fun _ _ _ _ _ _ _ _ _ _ Hans' Hans) in *.
           exfalso. apply Hnot. eauto.
        -- discriminate.
      * destruct (fetchCatch_spec d e w2 o' Hd')
          as (w3 & o3 & Hc & Htr & Hd3 & Hf & Hl & Hda & _).
        rewrite Hc. exists w3, o3. split_and!; auto.
        -- intros response' trigger' Hans' H200 Htrig'.
           rewrite (answered_fun _ _ _ _ _ _ _ _ _ _ Hans' Hans) in *.
           exfalso. apply Hnot. eauto.
        -- intros e' w1' [= <- <-]. auto.
  - destruct (fetchCatch_spec d e w2 o2 Hd2)
      as (w3 & o3 & Hc & Htr & Hd3 & Hf & Hl & Hda & _).
    rewrite Hc. exists w3, o3. split_and!; auto.
    + intros response trigger Hans H200 Htrig. exfalso.
      destruct (fetchTry_answered _ _ _ _ _ _ _ _ _ Hans)
        as (url & body & w1 & Hreq & Hrun).
      pose proof (local_fetchRequest _ _ _ _ _ _ _ _ _ _ Hreq) as Hfq.
      destruct (fp_alloc _ _ _ Hfq (ex_intro _ o Hd)) as [o1 Hd1].
      destruct (fetchResponse_spec d response
                  (mkWorld (dynHeap w1) (condHeap w1)
                     (trace w1 ++ [EvFetchDynamicFormValues url body])) o1 Hd1)
        as (r' & w' & o' & Hresp & _ & _ & _ & _ & Hcase).
      rewrite Hrun, Hresp in Etry.
      destruct Hcase as [(t & _ & _ & -> & _)|[Hnot _]];
        [discriminate | apply Hnot; eauto].
    + intros e' w1' [= <- <-]. auto.
Qed.

(** Once the destructuring at lines 167-171 has gone through,
    [hasStarted] is set, whatever the rest of the request phase does. *)
Lemma fetchRequest_started (env : Env) (c d s : nat)
    (actionId datasourceId pluginId configProperty : string)
    (w w1 : World) (co : ConditionalOutput) (o src : DynamicValues)
    (r : Result (JsVal * JsVal)) :
  dynHeap w !! d = Some o ->
  condHeap w !! c = Some co ->
  fetchDynamicValues co = Some s ->
  dynHeap w !! s = Some src ->
  Js.nullish (prop "evaluatedConfig" src) = false ->
  request env (Some c) d actionId datasourceId pluginId configProperty w
    = (r, w1) ->
  dynHeap w1 !! d = Some (Js.set "hasStarted" (JBool true) o).
Proof.
  intros Hd Hc Hs Hsrc Hnn. unfold fetchRequest, bind at 1.
  unfold read_fetchDynamicValues. simpl. rewrite Hc, Hs.
  unfold bind at 1, destructure. simpl. rewrite Hsrc. simpl.
  fold (prop "evaluatedConfig" src). fold (prop "config" src).
  unfold bind at 1, lift.
  destruct (Js.get (prop "evaluatedConfig" src) "params") as [params|e] eqn:Ep.
  2:{ destruct (prop "evaluatedConfig" src); discriminate. }
  unfold bind at 1. erewrite set_dyn_allocated by eassumption.
  unfold bind, lift, ret.
  repeat match goal with
         | |- context [match ?x with Ok _ => _ | Throw _ => _ end] =>
             destruct x
         end;
    intros [= <- <-]; simpl; apply lookup_insert_eq.
Qed.

(** After the request phase nothing touches [hasStarted]. *)
Lemma fetchDynamicValueSaga_tail (env : Env) (value : option nat) (d : nat)
    (actionId datasourceId pluginId configProperty : string)
    (w w1 : World) (o1 : DynamicValues) (rq : Result (JsVal * JsVal)) :
  request env value d actionId datasourceId pluginId configProperty w
    = (rq, w1) ->
  dynHeap w1 !! d = Some o1 ->
  exists w' o',
    fetchOne env value d actionId datasourceId pluginId configProperty w
      = (Ok d, w') /\
    dynHeap w' !! d = Some o' /\
    prop "hasStarted" o' = prop "hasStarted" o1 /\
    (forall e, rq = Throw e ->
       trace w' = (trace w1 ++ [EvLogError e])%list /\
       prop "hasFetchFailed" o' = JBool true /\
       prop "isLoading" o' = JBool false /\
       prop "data" o' = JArr []).
Proof.
  intros Hreq Hd1.
  unfold fetchDynamicValueSaga, bind, try_catch, ret, fetchTry.
  unfold bind at 1. rewrite Hreq. destruct rq as [[url body]|e].
  - unfold callApi, bind, emit, lift. simpl.
    set (w2 := mkWorld _ _ _).
    assert (Hd2 : dynHeap w2 !! d = Some o1) by exact Hd1.
    destruct (fetchDynamicFormValues env url body) as [response|e].
    + destruct (fetchResponse_spec d response w2 o1 Hd2)
        as (r & w3 & o3 & -> & _ & Hd3 & _ & Hs3 & _).
      destruct r as [[]|e].
      * exists w3, o3. split_and!; auto. discriminate.
      * destruct (fetchCatch_spec d e w3 o3 Hd3)
          as (w4 & o4 & -> & _ & Hd4 & _ & _ & _ & Hs4).
        exists w4, o4. split_and!; auto; [congruence | discriminate].
    + destruct (fetchCatch_spec d e w2 o1 Hd2)
        as (w4 & o4 & -> & _ & Hd4 & _ & _ & _ & Hs4).
      exists w4, o4. split_and!; auto. discriminate.
  - destruct (fetchCatch_spec d e w1 o1 Hd1)
      as (w4 & o4 & -> & Ht & Hd4 & Hf & Hl & Hda & Hs4).
    exists w4, o4. split_and!; auto. intros e' [= <-]. auto.
Qed.

(** C10. When the [ConditionalOutput] handed to [fetchDynamicValueSaga]
    has no [fetchDynamicValues], the saga still returns, with the
    TypeError logged, [hasFetchFailed = true], [isLoading = false],
    [data = []] and [hasStarted] as it came in; when the destructuring of
    [config] and [evaluatedConfig] goes through, [hasStarted = true]. *)
Theorem fetchDynamicValueSaga_hasStarted (env : Env) (c d : nat)
    (actionId datasourceId pluginId configProperty : string)
    (w : World) (co : ConditionalOutput) (o : DynamicValues) :
  dynHeap w !! d = Some o ->
  condHeap w !! c = Some co ->
  exists w' o',
    fetchOne env (Some c) d actionId datasourceId pluginId configProperty w
      = (Ok d, w') /\
    dynHeap w' !! d = Some o' /\
    (fetchDynamicValues co = None ->
     trace w' = (trace w ++ [EvLogError TypeError])%list /\
     prop "hasFetchFailed" o' = JBool true /\
     prop "isLoading" o' = JBool false /\
     prop "data" o' = JArr [] /\
     prop "hasStarted" o' = prop "hasStarted" o) /\
    (forall s src,
       fetchDynamicValues co = Some s ->
       dynHeap w !! s = Some src ->
       Js.nullish (prop "evaluatedConfig" src) = false ->
       prop "hasStarted" o' = JBool true).
Proof.
  intros Hd Hc.
  destruct (request env (Some c) d actionId datasourceId pluginId
              configProperty w) as [rq w1] eqn:Hreq.
  destruct (fetchDynamicValues co) as [s|] eqn:Hfdv.
  - pose proof (local_fetchRequest _ _ _ _ _ _ _ _ _ _ Hreq) as Hfq.
    destruct (fp_alloc _ _ _ Hfq (ex_intro _ o Hd)) as [o1 Hd1].
    destruct (fetchDynamicValueSaga_tail _ _ _ _ _ _ _ _ _ _ _ Hreq Hd1)
      as (w' & o' & Hrun & Hd' & Hs & _).
    exists w', o'. split_and!; auto; [discriminate|].
    intros s' src [= <-] Hsrc Hnn.
    pose proof (fetchRequest_started _ _ _ _ _ _ _ _ _ _ _ _ _ _
                  Hd Hc Hfdv Hsrc Hnn Hreq) as Hd1'.
    rewrite Hd1 in Hd1'. injection Hd1' as ->.
    rewrite Hs. apply prop_set_eq.
  - assert (rq = Throw TypeError /\ w1 = w) as [-> ->].
    { revert Hreq. unfold fetchRequest, bind at 1, read_fetchDynamicValues.
      simpl. rewrite Hc, Hfdv. unfold bind at 1, destructure. simpl.
      now intros [= <- <-]. }
    destruct (fetchDynamicValueSaga_tail _ _ _ _ _ _ _ _ _ _ _ Hreq Hd)
      as (w' & o' & Hrun & Hd' & Hs & Hthrow).
    destruct (Hthrow TypeError eq_refl) as (Ht & Hf & Hl & Hda).
    exists w', o'. split_and!; auto. discriminate.
Qed.

(** On an allocated object [fetchDynamicValueSaga] always returns, and
    returns the object it was given. *)
Lemma fetchDynamicValueSaga_returns (env : Env) (value : option nat) (d : nat)
    (actionId datasourceId pluginId configProperty : string) (w : World) :
  is_Some (dynHeap w !! d) ->
  exists w',
    fetchOne env value d actionId datasourceId pluginId configProperty w
      = (Ok d, w').
Proof.
  intros Hd.
  destruct (request env value d actionId datasourceId pluginId
              configProperty w) as [rq w1] eqn:Hreq.
  pose proof (local_fetchRequest _ _ _ _ _ _ _ _ _ _ Hreq) as Hfq.
  destruct (fp_alloc _ _ _ Hfq Hd) as [o1 Hd1].
  destruct (fetchDynamicValueSaga_tail _ _ _ _ _ _ _ _ _ _ _ Hreq Hd1)
    as (w' & o' & Hrun & _). eauto.
Qed.

End FetchOneProperties.

(** ** The fetch loop *)

Section FetchAllProperties.

Variable getDynamicBindings : JsVal -> Result JsVal.
Variable getDataTreeActionConfigPath : JsVal -> Result string.
Variable isDynamicValue : JsVal -> bool.

Local Abbreviation fetchOne :=
  (fetchDynamicValueSaga getDynamicBindings getDataTreeActionConfigPath
     isDynamicValue).
Local Abbreviation loop :=
  (fetchLoop getDynamicBindings getDataTreeActionConfigPath isDynamicValue).
Local Abbreviation fetchAll :=
  (fetchDynamicValuesSaga getDynamicBindings getDataTreeActionConfigPath
     isDynamicValue).

(** One turn of the loop: either [evalOutput[key]] is undefined and the
    loop throws, or a fresh copy is fetched into and stored. *)
Lemma fetchLoop_turn (envs : nat -> Env) (i : nat) (key : string)
    (rest : list string) (queue : FormEvalOutput) (formId : string)
    (evalOutput : FormEvalOutput) (datasourceId pluginId : string)
    (w : World) :
  (loop envs i (key :: rest) queue formId evalOutput datasourceId pluginId w
     = (Throw TypeError, w) /\
   (Js.lookup key evalOutput ≫= fun c => condHeap w !! c) = None)
  \/ exists c co w1 evs,
       let d := fresh (dom (dynHeap w)) in
       Js.lookup key evalOutput = Some c /\
       condHeap w !! c = Some co /\
       loop envs i (key :: rest) queue formId evalOutput datasourceId
         pluginId w
         = loop envs (S i) rest queue formId evalOutput datasourceId
             pluginId w1 /\
       condHeap w1
         = <[c := mkConditionalOutput (Some d) (otherProps co)]> (condHeap w) /\
       dynHeap w ⊆ dynHeap w1 /\
       is_Some (dynHeap w1 !! d) /\
       trace w1 = (trace w ++ EvCallFetchDynamicValue key d :: evs)%list /\
       Forall (fun ev => fetching ev = true) evs.
Proof.
  cbn [fetchLoop].
  destruct (Js.lookup key evalOutput ≫= fun c => condHeap w !! c)
    as [co|] eqn:Eco.
  2:{ left. split; [|reflexivity].
      apply bind_throw. now apply read_fetchDynamicValues_none. }
  destruct (Js.lookup key evalOutput) as [c|] eqn:Ek; [|discriminate].
  simpl in Eco. right. exists c, co.
  set (d := fresh (dom (dynHeap w))).
  set (o := default [] (fetchDynamicValues co ≫= fun s => dynHeap w !! s)).
  set (wa := mkWorld (<[d := o]> (dynHeap w)) (condHeap w)
               (trace w ++ [EvCallFetchDynamicValue key d])).
  assert (Hfresh : dynHeap w !! d = None).
  { apply not_elem_of_dom. apply is_fresh. }
  assert (Hda : is_Some (dynHeap wa !! d)).
  { exists o. apply lookup_insert_eq. }
  destruct (fetchDynamicValueSaga_returns getDynamicBindings
              getDataTreeActionConfigPath isDynamicValue (envs i)
              (Js.lookup key queue) d formId datasourceId pluginId key wa Hda)
    as [wb Hrun].
  pose proof (local_fetchDynamicValueSaga _ _ _ _ _ _ _ _ _ _ _ _ _ Hrun)
    as [Hc Ho Ha (evs & Ht & Hq)].
  assert (Ecb : condHeap wb !! c = Some co) by (now rewrite Hc).
  eexists _, evs. split; [reflexivity|]. split; [assumption|].
  split.
  { erewrite bind_ok by (apply read_fetchDynamicValues_some; exact Eco).
    erewrite bind_ok by reflexivity.
    erewrite bind_ok by reflexivity.
    erewrite bind_ok by exact Hrun.
    erewrite bind_ok by (apply write_fetchDynamicValues_some; exact Ecb).
    reflexivity. }
  cbn [dynHeap condHeap trace]. split_and!; auto.
  - now rewrite Hc.
  - apply map_subseteq_spec. intros d' x Hx.
    destruct (decide (d' = d)) as [->|Hne]; [congruence|].
    rewrite Ho by assumption. cbn [dynHeap wa]. now rewrite lookup_insert_ne.
  - rewrite Ht. cbn [trace wa]. now rewrite <- app_assoc.
Qed.

(** The loop never changes a [DynamicValues] object that existed when it
    started, and a [fetchDynamicValues] reference it has changed names an
    object that did not exist then. *)
Lemma fetchLoop_frame (envs : nat -> Env) (keys : list string)
    (queue : FormEvalOutput) (formId : string) (evalOutput : FormEvalOutput)
    (datasourceId pluginId : string) :
  forall (i : nat) (w w' : World) (r : Result unit),
    loop envs i keys queue formId evalOutput datasourceId pluginId w
      = (r, w') ->
    dynHeap w ⊆ dynHeap w' /\
    (forall c co d,
       condHeap w' !! c = Some co -> fetchDynamicValues co = Some d ->
       (exists co0, condHeap w !! c = Some co0
                    /\ fetchDynamicValues co0 = Some d)
       \/ d ∉ dom (dynHeap w)) /\
    exists evs,
      trace w' = (trace w ++ evs)%list /\
      Forall (fun ev => publishes ev = false) evs /\
      forall key d,
        In (EvCallFetchDynamicValue key d) evs -> d ∉ dom (dynHeap w).
Proof.
  induction keys as [|key rest IH]; intros i w w' r Hrun.
  - injection Hrun as <- <-. split; [reflexivity|]. split; [eauto|].
    exists []. rewrite app_nil_r. split_and!; [done | constructor | intros ? ? []].
  - destruct (fetchLoop_turn envs i key rest queue formId evalOutput
                datasourceId pluginId w)
      as [[Hthrow _]
         |(c & co & w1 & evs & Hk & Hc & Hstep & Hc1 & Hsub & Hd1 & Ht1 & Hq1)].
    + rewrite Hthrow in Hrun. injection Hrun as <- <-.
      split; [reflexivity|]. split; [eauto|].
      exists []. rewrite app_nil_r.
      split_and!; [done | constructor | intros ? ? []].
    + rewrite Hstep in Hrun.
      destruct (IH _ _ _ _ Hrun) as (Hsub' & Hrefs & evs' & Ht' & Hp' & Hcalls').
      assert (Hold : forall d, d ∉ dom (dynHeap w1) -> d ∉ dom (dynHeap w)).
      { intros d Hnew Hin. apply Hnew.
        apply elem_of_dom. apply elem_of_dom in Hin as [x Hx].
        exists x. eapply lookup_weaken; eassumption. }
      split; [etrans; eassumption|]. split.
      2:{ exists (EvCallFetchDynamicValue key (fresh (dom (dynHeap w)))
                    :: evs ++ evs')%list.
          split; [rewrite Ht', Ht1, <- app_assoc; reflexivity|]. split.
          - constructor; [reflexivity|]. apply Forall_app. split; [|assumption].
            eapply Forall_impl; [exact Hq1|].
            intros [] ?; simpl in *; congruence.
          - intros k d [Heq|Hin].
            + injection Heq as _ <-. apply is_fresh.
            + apply in_app_or in Hin as [Hin|Hin]; [|eauto].
              rewrite Forall_forall in Hq1.
              apply list_elem_of_In, Hq1 in Hin. discriminate. }
      intros c' co' d Hc' Hfdv.
      destruct (Hrefs c' co' d Hc' Hfdv) as [(co0 & Hco0 & Hd0)|Hnew].
      * rewrite Hc1 in Hco0. destruct (decide (c = c')) as [<-|Hne].
        -- rewrite lookup_insert_eq in Hco0. injection Hco0 as <-.
           simpl in Hd0. injection Hd0 as <-. right. apply is_fresh.
        -- rewrite lookup_insert_ne in Hco0 by assumption. eauto.
      * right. auto.
Qed.

(** [fetchDynamicValuesSaga] is its loop followed by one [put]. *)
Lemma fetchDynamicValuesSaga_inv (envs : nat -> Env) (published : Result unit)
    (queue : FormEvalOutput) (formId : string) (evalOutput : FormEvalOutput)
    (datasourceId pluginId : string) (w w' : World) (r : Result unit) :
  fetchAll envs published queue formId evalOutput datasourceId pluginId w
    = (r, w') ->
  exists r1 w1,
    loop envs 0 queue.*1 queue formId evalOutput datasourceId pluginId w
      = (r1, w1) /\
    dynHeap w' = dynHeap w1 /\ condHeap w' = condHeap w1 /\
    ((r1 = Ok tt /\ r = published /\
      trace w' = (trace w1 ++ [EvPutFormEvaluation formId evalOutput])%list)
     \/ (exists e, r1 = Throw e /\ r = Throw e /\ w' = w1)).
Proof.
  unfold fetchDynamicValuesSaga, bind, put.
  destruct (loop _ _ _ _ _ _ _ _ w) as [[[]|e] w1]; intros [= <- <-];
    eexists _, _; (split; [reflexivity|]); simpl; eauto 10.
Qed.

(** C9. [fetchDynamicValueSaga] changes no [DynamicValues] object but
    the one it is handed.  [fetchDynamicValuesSaga] hands it objects that
    did not exist before, leaves every [DynamicValues] object that existed
    before as it was, and where it has changed a [fetchDynamicValues]
    reference, the reference names such a new object. *)
Theorem fetch_leaves_originals :
  (forall env value d actionId datasourceId pluginId configProperty w r w',
     fetchOne env value d actionId datasourceId pluginId configProperty w
       = (r, w') ->
     forall d', d' <> d -> dynHeap w' !! d' = dynHeap w !! d') /\
  (forall envs published queue formId evalOutput datasourceId pluginId w r w',
     fetchAll envs published queue formId evalOutput datasourceId pluginId w
       = (r, w') ->
     dynHeap w ⊆ dynHeap w' /\
     (forall c co d,
        condHeap w' !! c = Some co -> fetchDynamicValues co = Some d ->
        (exists co0, condHeap w !! c = Some co0
                     /\ fetchDynamicValues co0 = Some d)
        \/ d ∉ dom (dynHeap w)) /\
     exists evs,
       trace w' = (trace w ++ evs)%list /\
       forall key d,
         In (EvCallFetchDynamicValue key d) evs -> d ∉ dom (dynHeap w)).
Proof.
  split.
  - intros env value d actionId datasourceId pluginId configProperty w r w' Hrun.
    exact (fp_others _ _ _ (local_fetchDynamicValueSaga _ _ _ _ _ _ _ _ _ _ _ _ _ Hrun)).
  - intros envs published queue formId evalOutput datasourceId pluginId
      w r w' Hrun.
    apply fetchDynamicValuesSaga_inv in Hrun
      as (r1 & w1 & Hloop & Hdyn & Hcond & Hcase).
    apply fetchLoop_frame in Hloop as (Hsub & Hrefs & evs & Ht & _ & Hcalls).
    rewrite Hdyn, Hcond. split_and!; auto.
    destruct Hcase as [(_ & _ & Ht')|(e & _ & _ & ->)].
    + exists (evs ++ [EvPutFormEvaluation formId evalOutput])%list.
      split; [rewrite Ht', Ht, <- app_assoc; reflexivity|].
      intros key d Hin. apply in_app_or in Hin as [Hin|[Heq|[]]];
        [eauto | discriminate].
    + exists evs. auto.
Qed.

Lemma calls_app (evs1 evs2 : list Event) :
  calls (evs1 ++ evs2) = (calls evs1 ++ calls evs2)%list.
Proof.
  induction evs1 as [|[] evs1 IH]; simpl; auto. now rewrite IH.
Qed.

Lemma calls_fetching (evs : list Event) :
  Forall (fun ev => fetching ev = true) evs -> calls evs = [].
Proof.
  induction 1 as [|[] evs Hev _ IH]; simpl in *; auto; discriminate.
Qed.



End FetchAllProperties.

(** ** Parameter substitution *)

Lemma has_lookup {A} (k : string) (o : list (string * A)) :
  Js.has k o = true <-> k ∈ o.*1.
Proof.
  unfold Js.has. induction o as [|[k' v] o IH]; simpl.
  - split; [discriminate | intros H; inversion H].
  - destruct (String.eqb k k') eqn:E.
    + apply String.eqb_eq in E. subst. split; [left | reflexivity].
    + apply String.eqb_neq in E. rewrite IH. split; [now right|].
      intros H. apply elem_of_cons in H as [?|?]; [congruence | assumption].
Qed.

Lemma lookup_absent {A} (k : string) (o : list (string * A)) :
  k ∉ o.*1 -> Js.lookup k o = None.
Proof.
  intros H. destruct (Js.lookup k o) eqn:E; [|reflexivity].
  exfalso. apply H, has_lookup. unfold Js.has. now rewrite E.
Qed.


Lemma lookup_first {A} (k : string) (v : A) (o : list (string * A)) :
  NoDup o.*1 -> (k, v) ∈ o -> Js.lookup k o = Some v.
Proof.
  induction o as [|[k' v'] o IH]; simpl; intros Hnd Hin; [inversion Hin|].
  apply NoDup_cons in Hnd as [Hk' Hnd].
  apply elem_of_cons in Hin as [[= <- <-]|Hin].
  - now rewrite String.eqb_refl.
  - destruct (String.eqb k k') eqn:E; [|auto].
    apply String.eqb_eq in E. subst k'. exfalso. apply Hk'.
    apply list_elem_of_fmap. exists (k, v). auto.
Qed.

(** [{...base, ...extra}[k]]: the property of [extra] when it has one,
    that of [base] otherwise. *)
Lemma lookup_assign {A} (k : string) (extra : list (string * A)) :
  NoDup extra.*1 ->
  forall base,
    Js.lookup k (Js.assign base extra)
    = match Js.lookup k extra with
      | Some v => Some v
      | None => Js.lookup k base
      end.
Proof.
  unfold Js.assign.
  induction extra as [|[k' v'] extra IH]; simpl; intros Hnd base; [reflexivity|].
  apply NoDup_cons in Hnd as [Hk' Hnd]. rewrite IH by assumption.
  destruct (String.eqb k k') eqn:E.
  - apply String.eqb_eq in E. subst k'.
    rewrite (lookup_absent k extra Hk'). apply lookup_set_eq.
  - destruct (Js.lookup k extra); [reflexivity|].
    apply lookup_set_ne. intros ->. now rewrite String.eqb_refl in E.
Qed.

(** ** Paths of lodash [get] *)

(** A path that is an own property of the object is taken whole, dots and
    brackets included. *)
Lemma lodash_get_own_key (o : list (string * JsVal)) (path : string) :
  Js.has path o = true ->
  Js.lodash_get (JObj o) path = default JUndefined (Js.lookup path o).
Proof.
  intros Hown. unfold Js.lodash_get, Js.castPath, Js.isKey. simpl.
  now rewrite Hown, orb_true_r.
Qed.

(** Dots and bracketed indices both separate names; the walk gives
    [undefined] when it meets null before the path has ended. *)
Lemma lodash_get_paths :
  Js.stringToPath "a[0].b.c" = ["a"; "0"; "b"; "c"] /\
  Js.lodash_get (JObj [("formData", JObj [("list", JArr [JStr "v"])])])
    "formData.list[0]" = JStr "v" /\
  Js.lodash_get (JObj [("formData.x.data", JStr "sheet1")])
    "formData.x.data" = JStr "sheet1" /\
  Js.lodash_get (JObj [("formData", JObj [("x", JObj [("data", JStr "s")])])])
    "formData.x.data" = JStr "s" /\
  Js.lodash_get (JObj [("a", JNull)]) "a.b" = JUndefined.
Proof. vm_compute. auto 10. Qed.

Section SubstitutionProperties.

Variable getDynamicBindings : JsVal -> Result JsVal.
Variable getDataTreeActionConfigPath : JsVal -> Result string.
Variable isDynamicValue : JsVal -> bool.

Local Abbreviation snippetOf := (firstSnippet getDynamicBindings).
Local Abbreviation substituteOne :=
  (substituteParameter getDynamicBindings getDataTreeActionConfigPath
     isDynamicValue).
Local Abbreviation substituteEntries :=
  (substituteAll getDynamicBindings getDataTreeActionConfigPath
     isDynamicValue).
Local Abbreviation substituted :=
  (substitutedParametersOf getDynamicBindings getDataTreeActionConfigPath
     isDynamicValue).





End SubstitutionProperties.


(** ** The sequencer, step by step *)

Section SequencerProperties.

Variable getDynamicBindings : JsVal -> Result JsVal.
Variable getDataTreeActionConfigPath : JsVal -> Result string.
Variable isDynamicValue : JsVal -> bool.

Local Abbreviation next :=
  (step getDynamicBindings getDataTreeActionConfigPath isDynamicValue).
Local Abbreviation runs :=
  (run getDynamicBindings getDataTreeActionConfigPath isDynamicValue).

(** C2. A request submitted while the busy flag is set goes to the end of
    the queue, and nothing else happens: no task is started, nothing is
    added to the trace (no evaluation call, no publish), and the flag
    stays set.  A request submitted while the flag is clear sets it, and
    the state read is followed by the call of the evaluation function. *)
Theorem submit_queues_or_starts (action : ReduxAction)
    (currentEvalState : Result JsVal) (sys : System) :
  exists sys',
    next sys (Submit action currentEvalState) = Some sys' /\
    (isEvaluating sys = true ->
     evalQueue sys' = (evalQueue sys ++ [action])%list /\
     tasks sys' = tasks sys /\
     world sys' = world sys /\
     isEvaluating sys' = true) /\
    (isEvaluating sys = false ->
     forall state, currentEvalState = Ok state ->
       isEvaluating sys' = true /\
       evalQueue sys' = evalQueue sys /\
       tasks sys' = (tasks sys ++ [AwaitEvaluation action])%list /\
       trace (world sys')
       = (trace (world sys) ++ [EvCallEvalFormConfig action state])%list).
Proof.
  eexists. split; [reflexivity|]. unfold setFormEvaluationSagaAsync.
  split; intros Hbusy; rewrite Hbusy.
  - simpl. auto.
  - intros state ->. simpl. auto.
Qed.

(** C8. An error thrown by the state read, by the evaluation function or
    by the publish of its result is logged and the busy flag is reset;
    the queue is left as it is, nothing is forked and no task is
    started. *)
Theorem evaluation_error_strands_queue (action : ReduxAction) (i : nat)
    (e : Exn) (sys : System) :
  (isEvaluating sys = false ->
   exists sys',
     next sys (Submit action (Throw e)) = Some sys' /\
     isEvaluating sys' = false /\
     evalQueue sys' = evalQueue sys /\
     tasks sys' = tasks sys /\
     trace (world sys') = (trace (world sys) ++ [EvLogError e])%list) /\
  (tasks sys !! i = Some (AwaitEvaluation action) ->
   forall published nextEvalState,
   exists sys',
     next sys (EvaluationDone i (Throw e) published nextEvalState) = Some sys' /\
     isEvaluating sys' = false /\
     evalQueue sys' = evalQueue sys /\
     tasks sys' = delete i (tasks sys) /\
     trace (world sys') = (trace (world sys) ++ [EvLogError e])%list) /\
  (tasks sys !! i = Some (AwaitEvaluation action) ->
   forall workerResponse nextEvalState,
   truthyResponse workerResponse = true ->
   exists sys',
     next sys (EvaluationDone i (Ok workerResponse) (Throw e) nextEvalState)
       = Some sys' /\
     isEvaluating sys' = false /\
     evalQueue sys' = evalQueue sys /\
     tasks sys' = delete i (tasks sys) /\
     trace (world sys')
     = (trace (world sys)
          ++ [EvPutEvaluationState workerResponse; EvLogError e])%list).
Proof.
  split_and!.
  - intros Hidle. eexists. split; [reflexivity|].
    unfold setFormEvaluationSagaAsync. rewrite Hidle. simpl. auto.
  - intros Htask published nextEvalState. simpl. rewrite Htask.
    eexists. split; [reflexivity|]. simpl. auto.
  - intros Htask workerResponse nextEvalState Htruthy. simpl. rewrite Htask.
    eexists. split; [reflexivity|].
    unfold afterEvaluation. rewrite Htruthy. simpl.
    rewrite <- app_assoc. auto.
Qed.

(** C6.  An empty [workerResponse], one that the guard at line 84 finds
    falsy (undefined, null, false, 0 or the empty string), is not
    published, and the queue is served all the same: the flag is cleared
    and the oldest queued request, if there is one, is forked and started.
    Every other [workerResponse] is published first, whole, as the new
    evaluation state. *)
Theorem response_published_when_truthy (action : ReduxAction) (i : nat)
    (workerResponse : WorkerResponse) (published : Result unit)
    (nextEvalState : Result JsVal) (sys : System) :
  tasks sys !! i = Some (AwaitEvaluation action) ->
  exists sys',
    next sys (EvaluationDone i (Ok workerResponse) published nextEvalState)
      = Some sys' /\
    (truthyResponse workerResponse = false ->
     (exists evs,
        trace (world sys') = (trace (world sys) ++ evs)%list /\
        Forall (fun ev => publishes ev = false) evs) /\
     (evalQueue sys = [] ->
      isEvaluating sys' = false /\ evalQueue sys' = [] /\
      tasks sys' = delete i (tasks sys)) /\
     (forall nextAction queue state,
        evalQueue sys = nextAction :: queue ->
        nextEvalState = Ok state ->
        isEvaluating sys' = true /\
        evalQueue sys' = queue /\
        tasks sys' = (delete i (tasks sys) ++ [AwaitEvaluation nextAction])%list /\
        trace (world sys')
        = (trace (world sys)
             ++ [EvFork nextAction;
                 EvCallEvalFormConfig nextAction state])%list)) /\
    (truthyResponse workerResponse = true ->
     exists evs,
       trace (world sys')
       = (trace (world sys)
            ++ EvPutEvaluationState workerResponse :: evs)%list).
Proof.
  intros Htask. simpl. rewrite Htask. eexists. split; [reflexivity|].
  unfold afterEvaluation. split; intros Htruthy; rewrite Htruthy.
  - simpl. split_and!.
    + destruct (evalQueue sys) as [|nextAction queue]; simpl.
      * destruct workerResponse as [[]|]; simpl in *; try discriminate;
          first [ exists []; rewrite app_nil_r; split; [reflexivity | constructor]
                | eexists [_]; split; [reflexivity | repeat constructor] ].
      * unfold setFormEvaluationSagaAsync. simpl.
        destruct nextEvalState; simpl; rewrite <- app_assoc;
          eexists; (split; [reflexivity | repeat constructor]).
    + intros Hq. rewrite Hq. simpl.
      destruct workerResponse as [[]|]; simpl in *; try discriminate; auto.
    + intros nextAction queue state Hq ->. rewrite Hq. simpl.
      unfold setFormEvaluationSagaAsync. simpl. rewrite <- app_assoc. auto.
  - destruct published as [[]|e]; simpl.
    + destruct (evalQueue sys) as [|nextAction queue]; simpl.
      * destruct (outputOf workerResponse _) as [[evalOutput|]|e]; simpl.
        -- destruct (extractQueueOfValuesToBeFetched _ evalOutput); simpl;
             rewrite <- app_assoc; eexists; reflexivity.
        -- exists []. reflexivity.
        -- rewrite <- app_assoc. eexists. reflexivity.
      * unfold setFormEvaluationSagaAsync. simpl.
        destruct nextEvalState; simpl; rewrite <- !app_assoc;
          eexists; reflexivity.
    + rewrite <- app_assoc. eexists. reflexivity.
Qed.

End SequencerProperties.

(** ** Traces only grow *)


Lemma extends_refl (w : World) : extends w w.
Proof. split; auto. exists []. now rewrite app_nil_r. Qed.

Lemma extends_trans (w1 w2 w3 : World) :
  extends w1 w2 -> extends w2 w3 -> extends w1 w3.
Proof.
  intros [(e1 & t1) c1 d1] [(e2 & t2) c2 d2]. split; auto.
  exists (e1 ++ e2)%list. now rewrite t2, t1, app_assoc.
Qed.

Lemma extends_record (ev : Event) (w : World) : extends w (record ev w).
Proof. split; simpl; eauto. Qed.

Lemma growing_ret {A} (a : A) : growing (ret a).
Proof. intros w r w' [= <- <-]. apply extends_refl. Qed.

Lemma growing_lift {A} (x : Result A) : growing (lift x).
Proof. intros w r w' [= <- <-]. apply extends_refl. Qed.

Lemma growing_bind {A B} (m : Saga A) (k : A -> Saga B) :
  growing m -> (forall a, growing (k a)) -> growing (bind m k).
Proof.
  intros Hm Hk w r w'. unfold bind.
  destruct (m w) as [[a|e] w1] eqn:E; intros H.
  - eapply extends_trans; [eapply Hm | eapply Hk]; eauto.
  - injection H as <- <-. eauto.
Qed.

Lemma growing_try_catch {A} (body : Saga A) (handler : Exn -> Saga A) :
  growing body -> (forall e, growing (handler e)) ->
  growing (try_catch body handler).
Proof.
  intros Hm Hk w r w'. unfold try_catch.
  destruct (body w) as [[a|e] w1] eqn:E; intros H.
  - injection H as <- <-. eauto.
  - eapply extends_trans; [eapply Hm | eapply Hk]; eauto.
Qed.

Lemma growing_local {A} (d : nat) (m : Saga A) : local_to d m -> growing m.
Proof.
  intros H w r w' Hrun.
  destruct (H _ _ _ Hrun) as [Hc Ho Ha (evs & Ht & _)]. split; eauto.
  - intros c. now rewrite Hc.
  - intros d'. destruct (decide (d' = d)) as [->|Hne]; [auto|].
    now rewrite Ho.
Qed.

Lemma growing_emit (ev : Event) : growing (emit ev).
Proof. intros w r w' [= <- <-]. apply extends_record. Qed.

Lemma growing_put (ev : Event) (outcome : Result unit) : growing (put ev outcome).
Proof. intros w r w' [= <- <-]. apply extends_record. Qed.

Lemma growing_object_assign_empty (src : option nat) :
  growing (object_assign_empty src).
Proof.
  intros w r w' [= <- <-]. split; simpl; auto.
  - exists []. now rewrite app_nil_r.
  - intros d Hd. apply lookup_insert_is_Some.
    destruct (decide (fresh (dom (dynHeap w)) = d)); auto.
Qed.

Lemma growing_write_fetchDynamicValues (c : option nat) (d : nat) :
  growing (write_fetchDynamicValues c d).
Proof.
  intros w r w'. unfold write_fetchDynamicValues.
  destruct (c ≫= _) as [[a o]|]; intros [= <- <-]; [|apply extends_refl].
  split; simpl; auto.
  - exists []. now rewrite app_nil_r.
  - intros c' Hc'. apply lookup_insert_is_Some.
    destruct (decide (a = c')); auto.
Qed.

Create HintDb growing.
#[export] Hint Resolve growing_ret growing_lift growing_emit growing_put
  growing_object_assign_empty growing_write_fetchDynamicValues : growing.

Section FetchDriverProperties.

Variable getDynamicBindings : JsVal -> Result JsVal.
Variable getDataTreeActionConfigPath : JsVal -> Result string.
Variable isDynamicValue : JsVal -> bool.

Local Abbreviation advance :=
  (fetchAdvance getDynamicBindings getDataTreeActionConfigPath isDynamicValue).
Local Abbreviation answer :=
  (fetchAnswer getDynamicBindings getDataTreeActionConfigPath isDynamicValue).

Lemma growing_fetchAdvance (envs : nat -> Env) (published : Result unit)
    (keys : list string) (queue : FormEvalOutput) (form : string)
    (evalOutput : FormEvalOutput) (ds pl : string) :
  forall i, growing (advance envs published i keys queue form evalOutput ds pl).
Proof.
  induction keys as [|key rest IH]; intros i; simpl.
  - apply growing_bind; [|intros ?]; auto with growing.
  - apply growing_bind; [|intros current].
    { eapply growing_local, (local_read_fetchDynamicValues 0%nat). }
    apply growing_bind; [|intros copy]; [auto with growing|].
    apply growing_bind; [|intros []]; [auto with growing|].
    intros w r w'.
    destruct (fetchRequest _ _ _ _ _ _ _ _ _ _ w) as [[request|e] w1] eqn:Hreq;
      intros Hrun;
      pose proof (growing_local _ _ (local_fetchRequest _ _ _ _ _ _ _ _ _ _)
                    _ _ _ Hreq) as H1.
    + injection Hrun as <- <-.
      eapply extends_trans; [exact H1 | apply extends_record].
    + assert (Hrest : growing
                (fetchCatch copy e ;;;
                 write_fetchDynamicValues (Js.lookup key evalOutput) copy ;;;
                 advance envs published (S i) rest queue form evalOutput ds pl)).
      { apply growing_bind; [|intros ?].
        - eapply growing_local, local_fetchCatch.
        - apply growing_bind; [|intros ?]; auto with growing. }
      eapply extends_trans; [exact H1 | eapply Hrest; exact Hrun].
Qed.

Lemma growing_fetchAnswer (frame : FetchFrame) (response : Result JsVal)
    (envs : nat -> Env) (published : Result unit) :
  growing (answer frame response envs published).
Proof.
  unfold fetchAnswer.
  apply growing_bind; [|intros ?].
  - apply growing_try_catch; [|intros e; eapply growing_local, local_fetchCatch].
    apply growing_bind; [|intros ?]; [auto with growing|].
    eapply growing_local, local_fetchResponse.
  - apply growing_bind; [|intros ?]; [auto with growing|].
    apply growing_fetchAdvance.
Qed.

Lemma bind_assoc {A B C} (m : Saga A) (k : A -> Saga B) (p : B -> Saga C)
    (w : World) :
  bind (bind m k) p w = bind m (fun a => bind (k a) p) w.
Proof. unfold bind. now destruct (m w) as [[a|e] w1]. Qed.

Lemma settle_bind {A} (envs : nat -> Env) (published : Result unit) (n : nat)
    (m : Saga A) (k : A -> Saga (option FetchFrame)) (w : World) :
  settle getDynamicBindings getDataTreeActionConfigPath isDynamicValue
    envs published n (bind m k w)
  = match m w with
    | (Ok a, w1) =>
        settle getDynamicBindings getDataTreeActionConfigPath isDynamicValue
          envs published n (k a w1)
    | (Throw e, w1) => (Throw e, w1)
    end.
Proof. unfold bind. destruct (m w) as [[a|e] w1]; [reflexivity|]. now destruct n. Qed.

Lemma bind_ext {A B} (m m' : Saga A) (k : A -> Saga B) (w w' : World) :
  m w = m' w' -> bind m k w = bind m' k w'.
Proof. intros H. unfold bind. now rewrite H. Qed.

(** [fetchDynamicValueSaga] from the point where its request phase has
    thrown, and from the point where the backend is called. *)
Lemma fetchDynamicValueSaga_thrown (env : Env) (value : option nat) (d : nat)
    (actionId datasourceId pluginId configProperty : string)
    (w w1 : World) (e : Exn) :
  fetchRequest getDynamicBindings getDataTreeActionConfigPath isDynamicValue
    env value d actionId datasourceId pluginId configProperty w
    = (Throw e, w1) ->
  fetchDynamicValueSaga getDynamicBindings getDataTreeActionConfigPath
    isDynamicValue env value d actionId datasourceId pluginId configProperty w
  = (fetchCatch d e ;;; ret d) w1.
Proof.
  intros H. unfold fetchDynamicValueSaga, fetchTry.
  unfold bind at 1, try_catch, bind at 1. rewrite H. reflexivity.
Qed.

Lemma fetchDynamicValueSaga_called (env : Env) (value : option nat) (d : nat)
    (actionId datasourceId pluginId configProperty : string)
    (w w1 : World) (request : JsVal * JsVal) :
  fetchRequest getDynamicBindings getDataTreeActionConfigPath isDynamicValue
    env value d actionId datasourceId pluginId configProperty w
    = (Ok request, w1) ->
  fetchDynamicValueSaga getDynamicBindings getDataTreeActionConfigPath
    isDynamicValue env value d actionId datasourceId pluginId configProperty w
  = (try_catch
       (response <- lift (fetchDynamicFormValues env request.1 request.2) ;;
        fetchResponse d response)
       (fetchCatch d) ;;; ret d)
      (record (EvFetchDynamicFormValues request.1 request.2) w1).
Proof.
  intros H. unfold fetchDynamicValueSaga, fetchTry, callApi.
  unfold bind at 1, try_catch, bind at 1. rewrite H.
  unfold bind, emit, lift, record. simpl.
  now destruct (fetchDynamicFormValues env request.1 request.2).
Qed.

(** The cascade cut at its suspension points and resumed with the answers
    of the backend is [fetchDynamicValuesSaga]. *)
Lemma settle_fetchAdvance (envs : nat -> Env) (published : Result unit)
    (keys : list string) (queue : FormEvalOutput) (form : string)
    (evalOutput : FormEvalOutput) (ds pl : string) :
  forall (n i : nat) (w : World),
    (List.length keys <= n)%nat ->
    settle getDynamicBindings getDataTreeActionConfigPath isDynamicValue
      envs published n
      (advance envs published i keys queue form evalOutput ds pl w)
    = (fetchLoop getDynamicBindings getDataTreeActionConfigPath isDynamicValue
         envs i keys queue form evalOutput ds pl ;;;
       put (EvPutFormEvaluation form evalOutput) published) w.
Proof.
  induction keys as [|key rest IH]; intros n i w Hn.
  - simpl. unfold bind, put, ret.
    destruct published as [[]|e]; destruct n; reflexivity.
  - destruct n as [|n]; [simpl in Hn; lia|].
    assert (Hn' : (List.length rest <= n)%nat) by (simpl in Hn; lia).
    cbn [fetchAdvance fetchLoop].
    rewrite !bind_assoc, settle_bind.
    destruct (read_fetchDynamicValues _ w) as [[current|e] w0] eqn:E0;
      [rewrite (bind_ok _ _ _ _ _ E0)
      | now rewrite (bind_throw _ _ _ _ _ E0)].
    rewrite !bind_assoc, settle_bind.
    destruct (object_assign_empty current w0) as [[copy|e] w1] eqn:E1;
      [rewrite (bind_ok _ _ _ _ _ E1)
      | now rewrite (bind_throw _ _ _ _ _ E1)].
    rewrite !bind_assoc, settle_bind.
    destruct (emit _ w1) as [[[]|e] w2] eqn:E2;
      [rewrite (bind_ok _ _ _ _ _ E2)
      | now rewrite (bind_throw _ _ _ _ _ E2)].
    rewrite bind_assoc.
    (* both sides once the fetch of this key has settled, by [m] *)
    assert (Htail : forall (m : Saga unit) (k : nat) (w3 : World),
      (List.length rest <= k)%nat ->
      settle getDynamicBindings getDataTreeActionConfigPath isDynamicValue
        envs published k
        ((m ;;;
          write_fetchDynamicValues (Js.lookup key evalOutput) copy ;;;
          advance envs published (S i) rest queue form evalOutput ds pl) w3)
      = bind (m ;;; ret copy)
          (fun fetched =>
             (write_fetchDynamicValues (Js.lookup key evalOutput) fetched ;;;
              fetchLoop getDynamicBindings getDataTreeActionConfigPath
                isDynamicValue envs (S i) rest queue form evalOutput ds pl) ;;;
             put (EvPutFormEvaluation form evalOutput) published) w3).
    { intros m k w3 Hk. rewrite settle_bind, bind_assoc.
      destruct (m w3) as [[[]|e] w4] eqn:E4;
        [rewrite (bind_ok _ _ _ _ _ E4) | now rewrite (bind_throw _ _ _ _ _ E4)].
      rewrite (bind_ok (ret copy) _ w4 w4 copy eq_refl).
      rewrite settle_bind, bind_assoc.
      destruct (write_fetchDynamicValues _ copy w4) as [[[]|e] w5] eqn:E5;
        [rewrite (bind_ok _ _ _ _ _ E5); now apply IH
        | now rewrite (bind_throw _ _ _ _ _ E5)]. }
    destruct (fetchRequest getDynamicBindings getDataTreeActionConfigPath
                isDynamicValue (envs i) (Js.lookup key queue) copy form ds pl
                key w2) as [[request|e] w3] eqn:Ereq.
    + rewrite (bind_ext _ _ _ _ _
                 (fetchDynamicValueSaga_called _ _ _ _ _ _ _ _ _ _ Ereq)).
      unfold bind at 1, emit at 1, ret at 1.
      cbn [settle frameTurn frameUrl frameBody]. unfold fetchAnswer.
      cbn [frameCopy frameTarget frameRest frameQueue frameFormId
           frameEvalOutput frameDatasourceId framePluginId frameTurn].
      now apply Htail.
    + rewrite (bind_ext _ _ _ _ _
                 (fetchDynamicValueSaga_thrown _ _ _ _ _ _ _ _ _ _ Ereq)).
      apply Htail. lia.
Qed.

End FetchDriverProperties.

(** ** The cascade *)

Lemma extract_record (ev : Event) (w : World) (evalOutput : FormEvalOutput) :
  extractQueueOfValuesToBeFetched (record ev w) evalOutput
  = extractQueueOfValuesToBeFetched w evalOutput.
Proof.
  unfold extractQueueOfValuesToBeFetched. generalize (@nil (string * nat)).
  induction evalOutput as [|[key value] rest IH]; intros output; simpl; auto.
  unfold rbind, isFetchable. simpl.
  destruct (condHeap w !! value) as [c|]; [|reflexivity].
  destruct (fetchDynamicValues c) as [d|]; [|apply IH].
  destruct (dynHeap w !! d); apply IH.
Qed.

Section CascadeProperties.

Variable getDynamicBindings : JsVal -> Result JsVal.
Variable getDataTreeActionConfigPath : JsVal -> Result string.
Variable isDynamicValue : JsVal -> bool.

Local Abbreviation next :=
  (step getDynamicBindings getDataTreeActionConfigPath isDynamicValue).
Local Abbreviation runs :=
  (run getDynamicBindings getDataTreeActionConfigPath isDynamicValue).
Local Abbreviation advance :=
  (fetchAdvance getDynamicBindings getDataTreeActionConfigPath isDynamicValue).

Lemma lookup_spawned (t : Task) (ev : Event) (sys : System) :
  tasks (spawn t ev sys) !! List.length (tasks sys) = Some t.
Proof. unfold spawn. simpl. now apply list_lookup_middle. Qed.

Lemma without_spawned (t : Task) (ev : Event) (sys : System) :
  without (List.length (tasks sys)) (spawn t ev sys)
  = mkSystem (isEvaluating sys) (evalQueue sys) (tasks sys)
      (record ev (world sys)).
Proof.
  unfold without, spawn. simpl. rewrite delete_middle. now rewrite app_nil_r.
Qed.

Lemma step_Ready_spawned (action : ReduxAction)
    (evalOutput queue : FormEvalOutput) (ev : Event) (sys : System) :
  next (spawn (AwaitReady action evalOutput queue) ev sys)
    (Ready (List.length (tasks sys)))
  = Some (spawn (AwaitDelay action evalOutput queue) (EvDelay 500)
            (mkSystem (isEvaluating sys) (evalQueue sys) (tasks sys)
               (record ev (world sys)))).
Proof.
  unfold step. rewrite lookup_spawned. now rewrite without_spawned.
Qed.

Lemma step_DelayElapsed_spawned (action : ReduxAction)
    (evalOutput queue : FormEvalOutput) (ev : Event) (sys : System)
    (envs : nat -> Env) (published : Result unit) :
  next (spawn (AwaitDelay action evalOutput queue) ev sys)
    (DelayElapsed (List.length (tasks sys)) envs published)
  = Some (runFetch
            (emit (EvCallFetchDynamicValues queue (formId (payload action))
                     evalOutput (orEmpty (datasourceId (payload action)))
                     (orEmpty (pluginId (payload action)))) ;;;
             advance envs published 0 queue.*1 queue
               (formId (payload action)) evalOutput
               (orEmpty (datasourceId (payload action)))
               (orEmpty (pluginId (payload action))))
            (mkSystem (isEvaluating sys) (evalQueue sys) (tasks sys)
               (record ev (world sys)))).
Proof.
  unfold step. rewrite lookup_spawned. now rewrite without_spawned.
Qed.

(** C5, as the code has it.  After an evaluation that ends with an empty
    queue, [fetchDynamicValuesSaga] is called exactly when the response
    has an output for the form of the request, whether or not any field
    is allowed to fetch: the race and the delay come first, and with no
    field to fetch the saga still publishes the output of the form.
    Without an output for the form nothing follows the publish of the
    response. *)
Theorem fetcher_follows_output (action : ReduxAction) (i : nat)
    (forms : list (string * FormEvalOutput)) (nextEvalState : Result JsVal)
    (sys : System) :
  tasks sys !! i = Some (AwaitEvaluation action) ->
  evalQueue sys = [] ->
  let form := formId (payload action) in
  let ds := orEmpty (datasourceId (payload action)) in
  let pl := orEmpty (pluginId (payload action)) in
  let j := List.length (delete i (tasks sys)) in
  (Js.lookup form forms = None ->
   exists sys',
     next sys (EvaluationDone i (Ok (WState forms)) (Ok tt) nextEvalState)
       = Some sys' /\
     tasks sys' = delete i (tasks sys) /\
     trace (world sys')
     = (trace (world sys) ++ [EvPutEvaluationState (WState forms)])%list) /\
  (forall evalOutput queue,
     Js.lookup form forms = Some evalOutput ->
     extractQueueOfValuesToBeFetched (world sys) evalOutput = Ok queue ->
     forall envs published,
     exists sys3 evs,
       runs sys [EvaluationDone i (Ok (WState forms)) (Ok tt) nextEvalState;
                 Ready j; DelayElapsed j envs published] = Some sys3 /\
       trace (world sys3)
       = (trace (world sys)
            ++ [EvPutEvaluationState (WState forms); EvRace; EvDelay 500;
                EvCallFetchDynamicValues queue form evalOutput ds pl]
            ++ evs)%list /\
       (queue = [] ->
        evs = EvPutFormEvaluation form evalOutput
                :: match published with
                   | Ok _ => []
                   | Throw e => [EvLogError e]
                   end)).
Proof.
  intros Htask Hq form ds pl j. split.
  - intros Hnone. simpl. rewrite Htask. eexists. split; [reflexivity|].
    unfold afterEvaluation. simpl. rewrite Hq. simpl.
    fold form. rewrite Hnone. simpl. auto.
  - intros evalOutput queue Hsome Hext envs published.
    set (sys2 := mkSystem false [] (delete i (tasks sys))
                   (record (EvPutEvaluationState (WState forms)) (world sys))).
    assert (Hfirst :
      next sys (EvaluationDone i (Ok (WState forms)) (Ok tt) nextEvalState)
      = Some (spawn (AwaitReady action evalOutput queue) EvRace sys2)).
    { simpl. rewrite Htask. f_equal.
      unfold afterEvaluation. simpl truthyResponse. cbv iota.
      simpl evalQueue. rewrite Hq. cbv iota. simpl outputOf.
      fold form. rewrite Hsome. cbv iota. simpl world.
      rewrite extract_record, Hext. reflexivity. }
    change j with (List.length (tasks sys2)).
    unfold run. rewrite Hfirst, step_Ready_spawned.
    change (List.length (tasks sys2)) with
      (List.length (tasks (mkSystem (isEvaluating sys2) (evalQueue sys2)
                             (tasks sys2) (record EvRace (world sys2))))).
    rewrite step_DelayElapsed_spawned.
    fold form ds pl. unfold runFetch. simpl world.
    unfold bind at 1, emit. simpl.
    match goal with |- context [advance ?a ?b ?c ?d ?e ?f ?g ?h ?k ?w] =>
      destruct (advance a b c d e f g h k w) as [r w'] eqn:Hrun end.
    destruct (ext_trace _ _
                (growing_fetchAdvance _ _ _ _ _ _ _ _ _ _ _ _ _ _ _ Hrun))
      as [evs Hevs]. simpl in Hevs.
    assert (Hempty : queue = [] ->
              r = match published with Ok _ => Ok None | Throw e => Throw e end
              /\ evs = [EvPutFormEvaluation form evalOutput]).
    { intros ->. simpl in Hrun. unfold bind, put, ret in Hrun. simpl in Hrun.
      destruct published as [[]|e]; injection Hrun as <- <-; simpl in Hevs;
        apply app_inv_head in Hevs; auto. }
    destruct r as [[frame|]|e]; simpl; eexists _, _;
      (split; [reflexivity|]); simpl; rewrite ?Hevs, <- ?app_assoc; simpl;
      (split; [reflexivity|]); intros Hnil;
      destruct (Hempty Hnil) as [Hr ->]; destruct published as [[]|e'];
      try discriminate; try reflexivity.
    injection Hr as <-. reflexivity.
Qed.

End CascadeProperties.

(** ** One evaluation at a time *)

Lemma evaluations_app (ts : list Task) (t : Task) :
  evaluations (ts ++ [t])
  = (evaluations ts + evaluations [t])%nat.
Proof.
  induction ts as [|[] ts IH]; simpl in *; try rewrite IH; auto.
Qed.

Lemma evaluations_delete (ts : list Task) (i : nat) (t : Task) :
  ts !! i = Some t ->
  evaluations ts = (evaluations (delete i ts) + evaluations [t])%nat.
Proof.
  revert i. induction ts as [|t' ts IH]; intros [|i] H; simpl in *;
    try discriminate.
  - injection H as ->. destruct t; simpl; lia.
  - rewrite (IH i H). destruct t'; simpl; lia.
Qed.

Lemma balanced_caught (e : Exn) (sys : System) :
  evaluations (tasks sys) = 0%nat -> balanced (caught e sys).
Proof. intros H. unfold balanced. simpl. exact H. Qed.

Lemma balanced_start (action : ReduxAction) (currentEvalState : Result JsVal)
    (sys : System) :
  balanced sys -> balanced (setFormEvaluationSagaAsync action currentEvalState sys).
Proof.
  unfold balanced, setFormEvaluationSagaAsync.
  destruct (isEvaluating sys); simpl; intros H; [assumption|].
  destruct currentEvalState; simpl; [|assumption].
  rewrite evaluations_app, H. reflexivity.
Qed.

Lemma balanced_afterEvaluation (action : ReduxAction)
    (workerResponse : Result WorkerResponse) (published : Result unit)
    (nextEvalState : Result JsVal) (sys : System) :
  evaluations (tasks sys) = 0%nat ->
  balanced (afterEvaluation action workerResponse published nextEvalState sys).
Proof.
  intros H0. unfold afterEvaluation.
  destruct workerResponse as [wr|e]; [|now apply balanced_caught].
  destruct (truthyResponse wr).
  - destruct published as [[]|e]; [|now apply balanced_caught].
    simpl. destruct (evalQueue sys) as [|nextAction queue].
    + destruct (outputOf wr _) as [[evalOutput|]|e];
        [|exact H0|now apply balanced_caught].
      destruct (extractQueueOfValuesToBeFetched _ _);
        [|now apply balanced_caught].
      unfold balanced. simpl. rewrite evaluations_app, H0. reflexivity.
    + apply balanced_start. exact H0.
  - simpl. destruct (evalQueue sys) as [|nextAction queue].
    + destruct (outputOf wr _) as [[evalOutput|]|e];
        [|exact H0|now apply balanced_caught].
      destruct (extractQueueOfValuesToBeFetched _ _);
        [|now apply balanced_caught].
      unfold balanced. simpl. rewrite evaluations_app, H0. reflexivity.
    + apply balanced_start. exact H0.
Qed.

Section OrderProperties.

Variable getDynamicBindings : JsVal -> Result JsVal.
Variable getDataTreeActionConfigPath : JsVal -> Result string.
Variable isDynamicValue : JsVal -> bool.

Local Abbreviation next :=
  (step getDynamicBindings getDataTreeActionConfigPath isDynamicValue).
Local Abbreviation runs :=
  (run getDynamicBindings getDataTreeActionConfigPath isDynamicValue).
Local Abbreviation escapes :=
  (cascadeThrows getDynamicBindings getDataTreeActionConfigPath
     isDynamicValue).
Local Abbreviation quiet :=
  (calm getDynamicBindings getDataTreeActionConfigPath isDynamicValue).

Lemma balanced_runFetch (m : Saga (option FetchFrame)) (sys : System) :
  balanced sys -> throws (m (world sys)) = false -> balanced (runFetch m sys).
Proof.
  unfold balanced, runFetch.
  destruct (m (world sys)) as [[[frame|]|e] w]; simpl; intros H Hthrow;
    [| assumption | discriminate].
  rewrite evaluations_app, H. simpl. lia.
Qed.

Lemma balanced_step (sys sys' : System) (l : Label) :
  balanced sys -> escapes sys l = false -> next sys l = Some sys' ->
  balanced sys'.
Proof.
  intros Hb Hcalm Hstep. destruct l; simpl in Hstep, Hcalm.
  - injection Hstep as <-. now apply balanced_start.
  - destruct (tasks sys !! i) as [[]|] eqn:Ht; try discriminate.
    injection Hstep as <-. apply balanced_afterEvaluation.
    unfold balanced in Hb. rewrite (evaluations_delete _ _ _ Ht) in Hb.
    simpl in *. destruct (isEvaluating sys); lia.
  - destruct (tasks sys !! i) as [[]|] eqn:Ht; try discriminate.
    injection Hstep as <-. unfold balanced in *. simpl.
    rewrite evaluations_app. rewrite (evaluations_delete _ _ _ Ht) in Hb.
    simpl in *. lia.
  - destruct (tasks sys !! i) as [[]|] eqn:Ht; try discriminate.
    injection Hstep as <-. apply balanced_runFetch; [|exact Hcalm].
    unfold balanced in *. simpl.
    rewrite (evaluations_delete _ _ _ Ht) in Hb. simpl in *. lia.
  - destruct (tasks sys !! i) as [[]|] eqn:Ht; try discriminate.
    injection Hstep as <-. apply balanced_runFetch; [|exact Hcalm].
    unfold balanced in *. simpl.
    rewrite (evaluations_delete _ _ _ Ht) in Hb. simpl in *. lia.
Qed.

Lemma balanced_run (labels : list Label) :
  forall sys sys',
    balanced sys -> quiet sys labels = true -> runs sys labels = Some sys' ->
    balanced sys'.
Proof.
  induction labels as [|l rest IH]; simpl; intros sys sys' Hb Hcalm Hrun.
  - now injection Hrun as <-.
  - apply andb_true_iff in Hcalm as [Hl Hrest].
    apply negb_true_iff in Hl.
    destruct (next sys l) as [sys1|] eqn:Hstep; [|discriminate].
    eapply IH; [eapply balanced_step | |]; eauto.
Qed.



End OrderProperties.

(** ** The queue of values to be fetched *)

Lemma extractLoop_spec (w : World) (entries : list (string * nat)) :
  forall output queue,
    extractLoop w entries output = Ok queue ->
    (forall key c, (key, c) ∈ entries -> is_Some (condHeap w !! c)) /\
    (forall key, key ∈ queue.*1 -> key ∈ output.*1 \/ key ∈ entries.*1).
Proof.
  induction entries as [|[key c] rest IH]; simpl; intros output queue Hrun.
  - injection Hrun as <-. split; [intros ? ? Hin; inversion Hin | auto].
  - unfold rbind in Hrun.
    destruct (isFetchable w c) as [fetchable|] eqn:Hf; [|discriminate].
    assert (Hc : is_Some (condHeap w !! c)).
    { unfold isFetchable in Hf. destruct (condHeap w !! c); [eauto|discriminate]. }
    destruct (IH _ _ Hrun) as [Halloc Hkeys]. split.
    + intros key' c' Hin. apply elem_of_cons in Hin as [[= -> ->]|Hin]; eauto.
    + intros key' Hin. destruct (Hkeys key' Hin) as [Hout|Hrest].
      * destruct fetchable; [|now left].
        destruct (Js.has key output) eqn:Hhas.
        -- rewrite keys_set_present in Hout by assumption. now left.
        -- rewrite keys_set_absent in Hout by assumption.
           apply elem_of_app in Hout as [Hout|Hout]; [now left|].
           apply list_elem_of_singleton in Hout. subst key'.
           right. simpl. left.
      * right. simpl. now right.
Qed.

(** Every key of the extracted queue is a field of [evalOutput], whose
    [ConditionalOutput] is in the store. *)
Lemma extracted_keys_defined (w : World) (evalOutput queue : FormEvalOutput) :
  extractQueueOfValuesToBeFetched w evalOutput = Ok queue ->
  forall key, key ∈ queue.*1 ->
    exists c, Js.lookup key evalOutput = Some c /\ is_Some (condHeap w !! c).
Proof.
  intros Hrun key Hin.
  destruct (extractLoop_spec w evalOutput [] queue Hrun) as [Halloc Hkeys].
  destruct (Hkeys key Hin) as [Hnil|Hfield]; [inversion Hnil|].
  apply has_lookup in Hfield. unfold Js.has in Hfield.
  destruct (Js.lookup key evalOutput) as [c|] eqn:Hc; [|discriminate].
  exists c. split; [reflexivity|].
  assert (Hmem : (key, c) ∈ evalOutput).
  { clear -Hc. induction evalOutput as [|[k' c'] rest IH]; simpl in Hc;
      [discriminate|].
    destruct (String.eqb key k') eqn:E.
    - apply String.eqb_eq in E. injection Hc as ->. subst. left.
    - right. auto. }
  eauto.
Qed.

(** ** A cascade throws only where its publish does *)

Lemma defined_extends (w w' : World) (evalOutput : FormEvalOutput)
    (keys : list string) :
  extends w w' -> defined w evalOutput keys -> defined w' evalOutput keys.
Proof.
  intros Hext Hdef key Hin. destruct (Hdef key Hin) as (c & Hc & Halloc).
  exists c. split; [assumption|]. now apply (ext_cond _ _ Hext).
Qed.

Lemma grounded_extends (w w' : World) (t : Task) :
  extends w w' -> grounded w t -> grounded w' t.
Proof.
  intros Hext. destruct t; simpl; eauto using defined_extends.
  intros (Hdef & (c & Hc & Halloc) & Hcopy). split_and!.
  - eauto using defined_extends.
  - exists c. split; [assumption|]. now apply (ext_cond _ _ Hext).
  - now apply (ext_dyn _ _ Hext).
Qed.

Section GroundedCascade.

Variable getDynamicBindings : JsVal -> Result JsVal.
Variable getDataTreeActionConfigPath : JsVal -> Result string.
Variable isDynamicValue : JsVal -> bool.

Local Abbreviation advance :=
  (fetchAdvance getDynamicBindings getDataTreeActionConfigPath isDynamicValue).
Local Abbreviation answer :=
  (fetchAnswer getDynamicBindings getDataTreeActionConfigPath isDynamicValue).
Local Abbreviation next :=
  (step getDynamicBindings getDataTreeActionConfigPath isDynamicValue).
Local Abbreviation runs :=
  (run getDynamicBindings getDataTreeActionConfigPath isDynamicValue).
Local Abbreviation escapes :=
  (cascadeThrows getDynamicBindings getDataTreeActionConfigPath
     isDynamicValue).
Local Abbreviation quiet :=
  (calm getDynamicBindings getDataTreeActionConfigPath isDynamicValue).

(** On keys that are fields of [evalOutput] the cascade goes on to its
    next call of the backend or to its publish, and throws only what the
    publish throws. *)
Lemma fetchAdvance_grounded (envs : nat -> Env) (published : Result unit)
    (keys : list string) (queue : FormEvalOutput) (form : string)
    (evalOutput : FormEvalOutput) (ds pl : string) :
  forall (i : nat) (w : World),
    defined w evalOutput keys ->
    exists r w',
      advance envs published i keys queue form evalOutput ds pl w = (r, w') /\
      (forall frame, r = Ok (Some frame) -> grounded w' (AwaitBackend frame)) /\
      (forall e, r = Throw e -> published = Throw e).
Proof.
  induction keys as [|key rest IH]; intros i w Hdef.
  - simpl. unfold bind, put, ret.
    destruct published as [[]|e]; eexists _, _;
      (split; [reflexivity|]); split; congruence.
  - destruct (Hdef key) as (c & Hk & [co Hc]); [left|].
    assert (Hrest : defined w evalOutput rest).
    { intros key' Hin. apply Hdef. now right. }
    cbn [fetchAdvance]. rewrite Hk.
    erewrite bind_ok by (apply read_fetchDynamicValues_some; exact Hc).
    erewrite bind_ok by reflexivity.
    erewrite bind_ok by reflexivity.
    set (d := fresh (dom (dynHeap w))).
    set (wa := mkWorld _ _ _).
    assert (Hda : is_Some (dynHeap wa !! d)).
    { unfold wa. simpl. rewrite lookup_insert_eq. eauto. }
    destruct (fetchRequest getDynamicBindings getDataTreeActionConfigPath
                isDynamicValue (envs i) (Js.lookup key queue) d form ds pl
                key wa) as [[request|e] w1] eqn:Hreq;
      pose proof (local_fetchRequest _ _ _ _ _ _ _ _ _ _ _ _ _ Hreq)
        as [Hc1 _ Ha1 _];
      assert (Hcw : condHeap w1 = condHeap w) by (now rewrite Hc1);
      specialize (Ha1 Hda).
    + eexists _, _. split; [reflexivity|]. split; [|discriminate].
      intros frame [= <-]. simpl. split_and!.
      * intros key' Hin. destruct (Hrest key' Hin) as (c' & ? & ?).
        exists c'. split; [assumption|]. now rewrite Hcw.
      * exists c. split; [reflexivity|]. rewrite Hcw, Hc. eauto.
      * exact Ha1.
    + destruct Ha1 as [o1 Ho1].
      destruct (fetchCatch_spec d e w1 o1 Ho1)
        as (w2 & o2 & Hcatch & _ & Ho2 & _).
      pose proof (local_fetchCatch _ _ _ _ _ Hcatch) as [Hc2 _ _ _].
      assert (Hc2' : condHeap w2 !! c = Some co) by (now rewrite Hc2, Hcw).
      erewrite bind_ok by exact Hcatch.
      erewrite bind_ok by (apply write_fetchDynamicValues_some; exact Hc2').
      apply IH. intros key' Hin. destruct (Hrest key' Hin) as (c' & ? & ?).
      exists c'. split; [assumption|]. simpl.
      apply lookup_insert_is_Some. destruct (decide (c = c')); [auto|].
      right. split; [assumption|]. now rewrite Hc2, Hcw.
Qed.

Lemma fetchAnswer_grounded (frame : FetchFrame) (response : Result JsVal)
    (envs : nat -> Env) (published : Result unit) (w : World) :
  grounded w (AwaitBackend frame) ->
  exists r w',
    answer frame response envs published w = (r, w') /\
    (forall frame', r = Ok (Some frame') -> grounded w' (AwaitBackend frame')) /\
    (forall e, r = Throw e -> published = Throw e).
Proof.
  intros (Hdef & (c & Htarget & [co Hc]) & Hcopy). unfold fetchAnswer.
  set (body := response0 <- lift response ;;
               fetchResponse (frameCopy frame) response0).
  assert (Hlocal : local_to (frameCopy frame) body).
  { apply local_bind; [apply local_lift | intros ?; apply local_fetchResponse]. }
  assert (Hsettled : exists w1,
            try_catch body (fetchCatch (frameCopy frame)) w = (Ok tt, w1) /\
            condHeap w1 = condHeap w).
  { unfold try_catch. destruct (body w) as [[[]|e] w0] eqn:Hbody;
      pose proof (Hlocal _ _ _ Hbody) as [Hc0 _ Ha0 _].
    - eauto.
    - destruct (Ha0 Hcopy) as [o0 Ho0].
      destruct (fetchCatch_spec (frameCopy frame) e w0 o0 Ho0)
        as (w1 & o1 & Hcatch & _).
      pose proof (local_fetchCatch _ _ _ _ _ Hcatch) as [Hc1 _ _ _].
      exists w1. split; [assumption | congruence]. }
  destruct Hsettled as (w1 & Htry & Hc1).
  erewrite bind_ok by exact Htry. rewrite Htarget.
  assert (Hc1' : condHeap w1 !! c = Some co) by (now rewrite Hc1).
  erewrite bind_ok by (apply write_fetchDynamicValues_some; exact Hc1').
  apply fetchAdvance_grounded.
  intros key Hin. destruct (Hdef key Hin) as (c' & ? & ?).
  exists c'. split; [assumption|]. simpl.
  apply lookup_insert_is_Some. destruct (decide (c = c')); [auto|].
  right. split; [assumption|]. now rewrite Hc1.
Qed.

Lemma allGrounded_world (w w' : World) (ts : list Task) :
  extends w w' -> Forall (grounded w) ts -> Forall (grounded w') ts.
Proof.
  intros Hext Hall. eapply Forall_impl; [exact Hall|].
  intros t. now apply grounded_extends.
Qed.

Lemma allGrounded_caught (e : Exn) (sys : System) :
  allGrounded sys -> allGrounded (caught e sys).
Proof. apply allGrounded_world, extends_record. Qed.

Lemma allGrounded_spawn (t : Task) (ev : Event) (sys : System) :
  allGrounded sys -> grounded (world sys) t -> allGrounded (spawn t ev sys).
Proof.
  intros Hall Ht. unfold allGrounded, spawn. simpl. apply Forall_app. split.
  - eapply allGrounded_world; [apply extends_record | exact Hall].
  - constructor; [|constructor].
    eapply grounded_extends; [apply extends_record | exact Ht].
Qed.

Lemma allGrounded_without (i : nat) (sys : System) :
  allGrounded sys -> allGrounded (without i sys).
Proof. unfold allGrounded, without. simpl. apply Forall_delete. Qed.

Lemma allGrounded_start (action : ReduxAction) (currentEvalState : Result JsVal)
    (sys : System) :
  allGrounded sys ->
  allGrounded (setFormEvaluationSagaAsync action currentEvalState sys).
Proof.
  intros Hall. unfold setFormEvaluationSagaAsync.
  destruct (isEvaluating sys); [exact Hall|].
  destruct currentEvalState.
  - now apply allGrounded_spawn.
  - now apply allGrounded_caught.
Qed.

Lemma allGrounded_afterEvaluation (action : ReduxAction)
    (workerResponse : Result WorkerResponse) (published : Result unit)
    (nextEvalState : Result JsVal) (sys : System) :
  allGrounded sys ->
  allGrounded (afterEvaluation action workerResponse published nextEvalState sys).
Proof.
  intros Hall. unfold afterEvaluation.
  destruct workerResponse as [wr|e]; [|now apply allGrounded_caught].
  set (sys1 := if truthyResponse wr then _ else sys).
  assert (H1 : allGrounded sys1).
  { unfold sys1. destruct (truthyResponse wr); [|exact Hall].
    eapply allGrounded_world; [apply extends_record | exact Hall]. }
  destruct (if truthyResponse wr then published else Ok tt) as [[]|e];
    [|now apply allGrounded_caught].
  cbv zeta. simpl evalQueue.
  destruct (evalQueue sys1) as [|nextAction queue].
  - destruct (outputOf wr _) as [[evalOutput|]|e];
      [| exact H1 | now apply (allGrounded_caught e) in H1].
    destruct (extractQueueOfValuesToBeFetched _ evalOutput) as [q|e] eqn:Hext;
      [| now apply (allGrounded_caught e) in H1].
    apply allGrounded_spawn; [exact H1|]. simpl.
    exact (extracted_keys_defined _ _ _ Hext).
  - apply allGrounded_start.
    eapply allGrounded_world; [apply extends_record | exact H1].
Qed.

Lemma allGrounded_runFetch (m : Saga (option FetchFrame)) (sys : System) :
  allGrounded sys ->
  (forall r w', m (world sys) = (r, w') ->
     extends (world sys) w' /\
     forall frame, r = Ok (Some frame) -> grounded w' (AwaitBackend frame)) ->
  allGrounded (runFetch m sys).
Proof.
  intros Hall Hm. unfold runFetch.
  destruct (m (world sys)) as [[[frame|]|e] w'] eqn:Hrun;
    destruct (Hm _ _ eq_refl) as [Hext Hframe]; unfold allGrounded; simpl.
  - apply Forall_app. split; [now apply (allGrounded_world _ _ _ Hext)|].
    constructor; [auto | constructor].
  - now apply (allGrounded_world _ _ _ Hext).
  - eapply allGrounded_world; [|exact Hall].
    eapply extends_trans; [exact Hext | apply extends_record].
Qed.

Lemma allGrounded_step (sys sys' : System) (l : Label) :
  allGrounded sys -> next sys l = Some sys' -> allGrounded sys'.
Proof.
  intros Hall Hstep.
  destruct l as [a st | i wr pub nxt | i | i envs published
                | i backend envs published]; simpl in Hstep.
  - injection Hstep as <-. now apply allGrounded_start.
  - destruct (tasks sys !! i) as [[]|] eqn:Ht; try discriminate.
    injection Hstep as <-.
    now apply allGrounded_afterEvaluation, allGrounded_without.
  - destruct (tasks sys !! i) as [[]|] eqn:Ht; try discriminate.
    injection Hstep as <-.
    apply allGrounded_spawn; [now apply allGrounded_without|].
    exact (proj1 (Forall_lookup _ _) Hall _ _ Ht).
  - destruct (tasks sys !! i) as [[]|] eqn:Ht; try discriminate.
    injection Hstep as <-.
    pose proof (proj1 (Forall_lookup _ _) Hall _ _ Ht) as Hdef. simpl in Hdef.
    apply allGrounded_runFetch; [now apply allGrounded_without|].
    simpl world. intros r w' Hrun. unfold bind at 1, emit at 1 in Hrun.
    split.
    + eapply extends_trans; [apply extends_record|].
      eapply growing_fetchAdvance. exact Hrun.
    + destruct (fetchAdvance_grounded envs published queue.*1 queue
                  (formId (payload action)) evalOutput
                  (orEmpty (datasourceId (payload action)))
                  (orEmpty (pluginId (payload action))) 0%nat
                  (record (EvCallFetchDynamicValues queue
                             (formId (payload action)) evalOutput
                             (orEmpty (datasourceId (payload action)))
                             (orEmpty (pluginId (payload action))))
                     (world sys)))
        as (r0 & w0 & Hrun0 & Hframe & _).
      { eapply defined_extends; [apply extends_record | exact Hdef]. }
      unfold record in Hrun0. rewrite Hrun0 in Hrun.
      injection Hrun as <- <-. exact Hframe.
  - destruct (tasks sys !! i) as [[]|] eqn:Ht; try discriminate.
    injection Hstep as <-.
    pose proof (proj1 (Forall_lookup _ _) Hall _ _ Ht) as Hfr.
    apply allGrounded_runFetch; [now apply allGrounded_without|].
    simpl world. intros r w' Hrun. split.
    + eapply growing_fetchAnswer. exact Hrun.
    + destruct (fetchAnswer_grounded frame backend envs published (world sys) Hfr)
        as (r0 & w0 & Hrun0 & Hframe & _).
      rewrite Hrun0 in Hrun. injection Hrun as <- <-. exact Hframe.
Qed.

Lemma escapes_published (sys : System) (l : Label) :
  allGrounded sys -> cascadePublished l = true -> escapes sys l = false.
Proof.
  intros Hall Hpub.
  destruct l as [a st | i wr pub nxt | i | i envs published
                | i backend envs published]; simpl; auto.
  - destruct (tasks sys !! i) as [[]|] eqn:Ht; auto.
    pose proof (proj1 (Forall_lookup _ _) Hall _ _ Ht) as Hdef. simpl in Hdef.
    unfold bind at 1, emit at 1.
    destruct (fetchAdvance_grounded envs published queue.*1 queue
                (formId (payload action)) evalOutput
                (orEmpty (datasourceId (payload action)))
                (orEmpty (pluginId (payload action))) 0%nat
                (record (EvCallFetchDynamicValues queue
                           (formId (payload action)) evalOutput
                           (orEmpty (datasourceId (payload action)))
                           (orEmpty (pluginId (payload action))))
                   (world sys)))
      as (r0 & w0 & Hrun0 & _ & Hthrow).
    { eapply defined_extends; [apply extends_record | exact Hdef]. }
    unfold record in Hrun0. rewrite Hrun0.
    destruct r0 as [fr|e]; [reflexivity|].
    rewrite (Hthrow e eq_refl) in Hpub. discriminate.
  - destruct (tasks sys !! i) as [[]|] eqn:Ht; auto.
    pose proof (proj1 (Forall_lookup _ _) Hall _ _ Ht) as Hfr.
    destruct (fetchAnswer_grounded frame backend envs published (world sys) Hfr)
      as (r0 & w0 & Hrun0 & _ & Hthrow).
    rewrite Hrun0. destruct r0 as [fr|e]; [reflexivity|].
    rewrite (Hthrow e eq_refl) in Hpub. discriminate.
Qed.

Lemma calm_published (labels : list Label) :
  forall sys,
    allGrounded sys -> forallb cascadePublished labels = true ->
    quiet sys labels = true.
Proof.
  induction labels as [|l rest IH]; simpl; intros sys Hall Hpub; [reflexivity|].
  apply andb_true_iff in Hpub as [Hl Hrest].
  rewrite (escapes_published sys l Hall Hl). simpl.
  destruct (next sys l) as [sys'|] eqn:Hstep; [|reflexivity].
  apply IH; [|exact Hrest]. eapply allGrounded_step; eassumption.
Qed.






End GroundedCascade.

(** ** Where the specification and the code part *)


(** Why the statement of C1 asks the publish of a cascade not to throw:
    the [catch] resets the busy flag also for an error thrown after the
    flag was cleared.  Here the cascade of [R1] ends in a failing publish
    while [R2] is evaluated; the flag is reset, [R3] starts, and two
    evaluations are under way. *)
Lemma failed_cascade_publish_resets_flag :
  (fun sys => (evaluations (tasks sys), tasks sys)) <$>
    Samples.runFrom Samples.store
      [Submit Samples.R1 (Ok JNull);
       EvaluationDone 0 (Ok Samples.evaluated) (Ok tt) (Ok JNull);
       Ready 0;
       DelayElapsed 0 Samples.envs (Ok tt);
       Submit Samples.R2 (Ok JNull);
       BackendAnswered 0 (Ok Samples.okResponse) Samples.envs
         (Throw (Thrown (JStr "reducer")));
       Submit Samples.R3 (Ok JNull)]
  = Some (2%nat, [AwaitEvaluation Samples.R2; AwaitEvaluation Samples.R3]).
Proof. vm_compute. reflexivity. Qed.

(** C5, as stated, fails.  With no field allowed to fetch the queue of
    values is empty, and still the race, the delay, the call of
    [fetchDynamicValuesSaga] and its publish of the form all happen. *)
Lemma fetcher_invoked_with_nothing_to_fetch :
  extractQueueOfValuesToBeFetched Samples.still [("x", 0%nat)] = Ok [] /\
  ((fun sys => trace (world sys)) <$> Samples.runFrom Samples.still
     [Submit Samples.R1 (Ok JNull);
      EvaluationDone 0 (Ok Samples.evaluated) (Ok tt) (Ok JNull);
      Ready 0;
      DelayElapsed 0 Samples.envs (Ok tt)])
  = Some [EvCallEvalFormConfig Samples.R1 JNull;
          EvPutEvaluationState Samples.evaluated;
          EvRace;
          EvDelay 500;
          EvCallFetchDynamicValues [] "a1" [("x", 0%nat)] "d1" "";
          EvPutFormEvaluation "a1" [("x", 0%nat)]].
Proof. vm_compute. auto. Qed.

(** ** The statements at work on the sample inputs *)

Lemma fetchDynamicValueSaga_result_witness :
  dynHeap Samples.store !! 1%nat
  = Some (Samples.dynamicValues Samples.declaring Samples.declaring) /\
  exists w' o',
    fetchDynamicValueSaga Bindings.getDynamicBindings
      Bindings.getDataTreeActionConfigPath Bindings.isDynamicValue
      (Samples.env Samples.unresolved (Ok Samples.okResponse))
      (Some 0%nat) 1%nat "a1" "d1" "p1" "x" Samples.store = (Ok 1%nat, w') /\
    dynHeap w' !! 1%nat = Some o' /\
    prop "isLoading" o' = JBool false.
Proof.
  assert (H : dynHeap Samples.store !! 1%nat
              = Some (Samples.dynamicValues Samples.declaring Samples.declaring))
    by (vm_compute; reflexivity).
  split; [exact H|].
  destruct (fetchDynamicValueSaga_result Bindings.getDynamicBindings
              Bindings.getDataTreeActionConfigPath Bindings.isDynamicValue
              (Samples.env Samples.unresolved (Ok Samples.okResponse))
              (Some 0%nat) 1%nat "a1" "d1" "p1" "x" Samples.store _ H)
    as (w' & o' & Hrun & Hd & Hl & _).
  exists w', o'. auto.
Defined.

Lemma fetchDynamicValueSaga_hasStarted_witness :
  dynHeap Samples.store !! 1%nat
  = Some (Samples.dynamicValues Samples.declaring Samples.declaring) /\
  condHeap Samples.store !! 0%nat = Some (mkConditionalOutput (Some 0%nat) []) /\
  exists w' o',
    fetchDynamicValueSaga Bindings.getDynamicBindings
      Bindings.getDataTreeActionConfigPath Bindings.isDynamicValue
      (Samples.env Samples.unresolved (Ok Samples.okResponse))
      (Some 0%nat) 1%nat "a1" "d1" "p1" "x" Samples.store = (Ok 1%nat, w') /\
    dynHeap w' !! 1%nat = Some o' /\
    prop "hasStarted" o' = JBool true.
Proof.
  assert (H : dynHeap Samples.store !! 1%nat
              = Some (Samples.dynamicValues Samples.declaring Samples.declaring))
    by (vm_compute; reflexivity).
  assert (Hc : condHeap Samples.store !! 0%nat
               = Some (mkConditionalOutput (Some 0%nat) []))
    by (vm_compute; reflexivity).
  split; [exact H|]. split; [exact Hc|].
  destruct (fetchDynamicValueSaga_hasStarted Bindings.getDynamicBindings
              Bindings.getDataTreeActionConfigPath Bindings.isDynamicValue
              (Samples.env Samples.unresolved (Ok Samples.okResponse))
              0%nat 1%nat "a1" "d1" "p1" "x" Samples.store _ _ H Hc)
    as (w' & o' & Hrun & Hd & _ & Hs).
  exists w', o'. split_and!; auto.
  apply (Hs 0%nat (Samples.dynamicValues Samples.declaring Samples.declaring));
    vm_compute; reflexivity.
Defined.


Lemma fetch_leaves_originals_witness :
  dynHeap
    (fetchDynamicValueSaga Bindings.getDynamicBindings
       Bindings.getDataTreeActionConfigPath Bindings.isDynamicValue
       (Samples.env Samples.unresolved (Ok Samples.okResponse))
       (Some 0%nat) 1%nat "a1" "d1" "p1" "x" Samples.store).2 !! 0%nat
  = dynHeap Samples.store !! 0%nat.
Proof.
  apply (proj1 (fetch_leaves_originals Bindings.getDynamicBindings
                  Bindings.getDataTreeActionConfigPath Bindings.isDynamicValue)
           (Samples.env Samples.unresolved (Ok Samples.okResponse))
           (Some 0%nat) 1%nat "a1" "d1" "p1" "x" Samples.store
           (fetchDynamicValueSaga Bindings.getDynamicBindings
              Bindings.getDataTreeActionConfigPath Bindings.isDynamicValue
              (Samples.env Samples.unresolved (Ok Samples.okResponse))
              (Some 0%nat) 1%nat "a1" "d1" "p1" "x" Samples.store).1).
  - apply surjective_pairing.
  - lia.
Defined.



Lemma submit_queues_or_starts_witness :
  isEvaluating (Samples.started Samples.store) = true /\
  exists sys',
    step Bindings.getDynamicBindings Bindings.getDataTreeActionConfigPath
      Bindings.isDynamicValue (Samples.started Samples.store)
      (Submit Samples.R2 (Ok JNull)) = Some sys' /\
    evalQueue sys' = [Samples.R2] /\
    tasks sys' = tasks (Samples.started Samples.store) /\
    world sys' = world (Samples.started Samples.store) /\
    isEvaluating sys' = true.
Proof.
  assert (Hbusy : isEvaluating (Samples.started Samples.store) = true)
    by (vm_compute; reflexivity).
  split; [exact Hbusy|].
  destruct (submit_queues_or_starts Bindings.getDynamicBindings
              Bindings.getDataTreeActionConfigPath Bindings.isDynamicValue
              Samples.R2 (Ok JNull) (Samples.started Samples.store))
    as (sys' & Hstep & Hqueued & _).
  exists sys'. split; [exact Hstep|]. exact (Hqueued Hbusy).
Defined.

Lemma evaluation_error_strands_queue_witness :
  tasks (Samples.started Samples.store) !! 0%nat
  = Some (AwaitEvaluation Samples.R1) /\
  exists sys',
    step Bindings.getDynamicBindings Bindings.getDataTreeActionConfigPath
      Bindings.isDynamicValue (Samples.started Samples.store)
      (EvaluationDone 0 (Throw TypeError) (Ok tt) (Ok JNull)) = Some sys' /\
    isEvaluating sys' = false /\
    evalQueue sys' = evalQueue (Samples.started Samples.store) /\
    tasks sys' = delete 0%nat (tasks (Samples.started Samples.store)) /\
    trace (world sys')
    = (trace (world (Samples.started Samples.store))
         ++ [EvLogError TypeError])%list.
Proof.
  assert (Htask : tasks (Samples.started Samples.store) !! 0%nat
                  = Some (AwaitEvaluation Samples.R1))
    by (vm_compute; reflexivity).
  split; [exact Htask|].
  exact (proj1 (proj2 (evaluation_error_strands_queue
                         Bindings.getDynamicBindings
                         Bindings.getDataTreeActionConfigPath
                         Bindings.isDynamicValue Samples.R1 0%nat TypeError
                         (Samples.started Samples.store)))
           Htask (Ok tt) (Ok JNull)).
Defined.

Lemma response_published_when_truthy_witness :
  tasks (Samples.started Samples.store) !! 0%nat
  = Some (AwaitEvaluation Samples.R1) /\
  truthyResponse (WPrimitive PUndefined) = false /\
  exists sys',
    step Bindings.getDynamicBindings Bindings.getDataTreeActionConfigPath
      Bindings.isDynamicValue (Samples.started Samples.store)
      (EvaluationDone 0 (Ok (WPrimitive PUndefined)) (Ok tt) (Ok JNull))
      = Some sys' /\
    exists evs,
      trace (world sys')
      = (trace (world (Samples.started Samples.store)) ++ evs)%list /\
      Forall (fun ev => publishes ev = false) evs.
Proof.
  assert (Htask : tasks (Samples.started Samples.store) !! 0%nat
                  = Some (AwaitEvaluation Samples.R1))
    by (vm_compute; reflexivity).
  split; [exact Htask|]. split; [reflexivity|].
  destruct (response_published_when_truthy Bindings.getDynamicBindings
              Bindings.getDataTreeActionConfigPath Bindings.isDynamicValue
              Samples.R1 0%nat (WPrimitive PUndefined) (Ok tt) (Ok JNull)
              (Samples.started Samples.store) Htask)
    as (sys' & Hstep & Hfalsy & _).
  exists sys'. split; [exact Hstep|]. exact (proj1 (Hfalsy eq_refl)).
Defined.

Lemma fetcher_follows_output_witness :
  tasks (Samples.started Samples.still) !! 0%nat
  = Some (AwaitEvaluation Samples.R1) /\
  evalQueue (Samples.started Samples.still) = [] /\
  extractQueueOfValuesToBeFetched (world (Samples.started Samples.still))
    [("x", 0%nat)] = Ok [] /\
  exists sys3 evs,
    run Bindings.getDynamicBindings Bindings.getDataTreeActionConfigPath
      Bindings.isDynamicValue (Samples.started Samples.still)
      [EvaluationDone 0 (Ok Samples.evaluated) (Ok tt) (Ok JNull);
       Ready 0; DelayElapsed 0 Samples.envs (Ok tt)] = Some sys3 /\
    trace (world sys3)
    = (trace (world (Samples.started Samples.still))
         ++ [EvPutEvaluationState Samples.evaluated; EvRace; EvDelay 500;
             EvCallFetchDynamicValues [] "a1" [("x", 0%nat)] "d1" ""]
         ++ evs)%list /\
    evs = [EvPutFormEvaluation "a1" [("x", 0%nat)]].
Proof.
  assert (Htask : tasks (Samples.started Samples.still) !! 0%nat
                  = Some (AwaitEvaluation Samples.R1))
    by (vm_compute; reflexivity).
  assert (Hq : evalQueue (Samples.started Samples.still) = [])
    by (vm_compute; reflexivity).
  assert (Hext : extractQueueOfValuesToBeFetched
                   (world (Samples.started Samples.still)) [("x", 0%nat)]
                 = Ok []) by (vm_compute; reflexivity).
  split; [exact Htask|]. split; [exact Hq|]. split; [exact Hext|].
  destruct (proj2 (fetcher_follows_output Bindings.getDynamicBindings
                     Bindings.getDataTreeActionConfigPath
                     Bindings.isDynamicValue Samples.R1 0%nat
                     [("a1", [("x", 0%nat)])] (Ok JNull)
                     (Samples.started Samples.still) Htask Hq)
              [("x", 0%nat)] [] eq_refl Hext Samples.envs (Ok tt))
    as (sys3 & evs & Hrun & Htrace & Hevs).
  exists sys3, evs. split; [exact Hrun|]. split; [exact Htrace|].
  exact (Hevs eq_refl).
Defined.

(** * Further properties *)

(** ** The listener *)

Section ListenerProperties.

Variable START_EVALUATION : string.
Variable FORM_EVALUATION_REDUX_ACTIONS : list string.

Local Abbreviation hears :=
  (dispatchAll START_EVALUATION FORM_EVALUATION_REDUX_ACTIONS).

Lemma taken_start (action : ReduxAction) :
  taken [START_EVALUATION] action = String.eqb (type action) START_EVALUATION.
Proof. unfold taken. simpl. apply orb_false_r. Qed.

(** X1. Until a [START_EVALUATION] has been dispatched the listener
    forks nothing: whatever is dispatched, form evaluation actions
    included, leaves the sequencer as it was. *)
Theorem listener_ignores_until_start
    (actions : list (ReduxAction * Result JsVal)) (sys : System) :
  Forall (fun request => type request.1 <> START_EVALUATION) actions ->
  hears AwaitStart actions sys = (AwaitStart, sys).
Proof.
  induction 1 as [|[action state] rest Hne _ IH];
    cbn [dispatchAll dispatch]; [reflexivity|].
  rewrite taken_start. simpl in Hne.
  destruct (String.eqb (type action) START_EVALUATION) eqn:E; [|exact IH].
  apply String.eqb_eq in E. contradiction.
Qed.

Lemma listening_forwards (actions : list (ReduxAction * Result JsVal)) :
  forall sys,
    hears Listening actions sys
    = (Listening,
       submitAll
         (List.filter
            (fun request => taken FORM_EVALUATION_REDUX_ACTIONS request.1)
            actions) sys).
Proof.
  induction actions as [|[action state] rest IH]; intros sys;
    cbn [dispatchAll dispatch List.filter fst]; [reflexivity|].
  destruct (taken FORM_EVALUATION_REDUX_ACTIONS action);
    cbn [submitAll]; apply IH.
Qed.

(** X2. Once [START_EVALUATION] has been dispatched, the requests
    submitted to the sequencer are exactly the actions dispatched after it
    whose type is one of [FORM_EVALUATION_REDUX_ACTIONS], each once and in
    the order of dispatch; the start action itself and what came before it
    are not submitted. *)
Theorem listener_forwards_after_start
    (before after : list (ReduxAction * Result JsVal))
    (start : ReduxAction) (state : Result JsVal) (sys : System) :
  Forall (fun request => type request.1 <> START_EVALUATION) before ->
  type start = START_EVALUATION ->
  hears AwaitStart (before ++ (start, state) :: after) sys
  = (Listening,
     submitAll
       (List.filter
          (fun request => taken FORM_EVALUATION_REDUX_ACTIONS request.1)
          after) sys).
Proof.
  intros Hbefore Hstart.
  induction Hbefore as [|[action state'] rest Hne _ IH];
    cbn [dispatchAll dispatch app].
  - rewrite taken_start, Hstart, String.eqb_refl. apply listening_forwards.
  - rewrite taken_start. simpl in Hne.
    destruct (String.eqb (type action) START_EVALUATION) eqn:E; [|exact IH].
    apply String.eqb_eq in E. contradiction.
Qed.

End ListenerProperties.

(** ** The queue of values, entry by entry *)

Lemma set_absent {A} (k : string) (v : A) (o : list (string * A)) :
  k ∉ o.*1 -> Js.set k v o = (o ++ [(k, v)])%list.
Proof.
  induction o as [|[k' v'] o IH]; simpl; intros Hk; [reflexivity|].
  apply not_elem_of_cons in Hk as [Hne Hk].
  destruct (String.eqb k k') eqn:E.
  - apply String.eqb_eq in E. contradiction.
  - now rewrite IH.
Qed.

Lemma extractLoop_filter (w : World) (entries : list (string * nat)) :
  forall output,
    NoDup (output.*1 ++ entries.*1) ->
    (forall key c, (key, c) ∈ entries -> is_Some (condHeap w !! c)) ->
    extractLoop w entries output
    = Ok (output ++ List.filter (fun entry => fetchable w entry.2) entries)%list.
Proof.
  induction entries as [|[key c] rest IH]; intros output Hnd Halloc; simpl.
  - now rewrite app_nil_r.
  - assert (Hc : exists b, isFetchable w c = Ok b).
    { destruct (Halloc key c) as [co Hco]; [left|].
      unfold isFetchable. rewrite Hco.
      destruct (fetchDynamicValues co) as [d|]; [|eauto].
      destruct (dynHeap w !! d); eauto. }
    destruct Hc as [b Hb]. unfold fetchable at 1. rewrite Hb. simpl.
    simpl in Hnd. apply NoDup_app in Hnd as (Hout & Hsep & Hrest).
    apply NoDup_cons in Hrest as [Hkey Hrest].
    assert (Hfresh : key ∉ output.*1).
    { intros Hin. apply (Hsep key Hin). left. }
    destruct b.
    + rewrite set_absent by assumption. rewrite IH.
      * now rewrite <- app_assoc.
      * rewrite fmap_app. simpl. rewrite <- app_assoc. simpl.
        apply NoDup_app. split_and!; [assumption | | now apply NoDup_cons].
        exact Hsep.
      * intros key' c' Hin. apply (Halloc key' c'). now right.
    + apply IH.
      * apply NoDup_app. split_and!; [assumption | | assumption].
        intros x Hx Hin. apply (Hsep x Hx). now right.
      * intros key' c' Hin. apply (Halloc key' c'). now right.
Qed.

(** X3. For an evaluation output with distinct keys whose fields are all
    in the store, the queue of values to be fetched is the output filtered
    to its fetchable fields: the same keys in the same order, naming the
    very same [ConditionalOutput] objects, so that [queue[key]] and
    [evalOutput[key]] are one object. *)
Theorem extract_is_filter (w : World) (evalOutput : FormEvalOutput) :
  NoDup evalOutput.*1 ->
  (forall key c, (key, c) ∈ evalOutput -> is_Some (condHeap w !! c)) ->
  extractQueueOfValuesToBeFetched w evalOutput
  = Ok (List.filter (fun entry => fetchable w entry.2) evalOutput) /\
  forall key c,
    Js.lookup key (List.filter (fun entry => fetchable w entry.2) evalOutput)
    = Some c ->
    Js.lookup key evalOutput = Some c.
Proof.
  intros Hnd Halloc. split.
  - unfold extractQueueOfValuesToBeFetched.
    now rewrite extractLoop_filter.
  - clear Halloc. induction evalOutput as [|[k c'] rest IH]; simpl;
      intros key c Hl; [discriminate|].
    apply NoDup_cons in Hnd as [Hk Hnd].
    destruct (fetchable w c'); simpl in Hl.
    + destruct (String.eqb key k); [assumption | now apply IH].
    + destruct (String.eqb key k) eqn:E; [|now apply IH].
      apply String.eqb_eq in E. subst k. exfalso. apply Hk.
      specialize (IH Hnd key c Hl).
      apply (proj1 (has_lookup key rest)). unfold Js.has. now rewrite IH.
Qed.

(** ** What a fetch leaves alone *)

Lemma preserving_same {A} (d : nat) (m : Saga A) :
  (forall w r w', m w = (r, w') -> dynHeap w' = dynHeap w) -> preserving d m.
Proof.
  intros H w r w' o Hrun Hd. exists o. rewrite (H _ _ _ Hrun). auto.
Qed.

Lemma preserving_ret {A} (d : nat) (a : A) : preserving d (ret a).
Proof. apply preserving_same. now intros w r w' [= <- <-]. Qed.

Lemma preserving_lift {A} (d : nat) (x : Result A) : preserving d (lift x).
Proof. apply preserving_same. now intros w r w' [= <- <-]. Qed.

Lemma preserving_emit (d : nat) (ev : Event) : preserving d (emit ev).
Proof. apply preserving_same. now intros w r w' [= <- <-]. Qed.

Lemma preserving_bind {A B} (d : nat) (m : Saga A) (k : A -> Saga B) :
  preserving d m -> (forall a, preserving d (k a)) -> preserving d (bind m k).
Proof.
  intros Hm Hk w r w' o. unfold bind.
  destruct (m w) as [[a|e] w1] eqn:E; intros Hrun Hd;
    destruct (Hm _ _ _ _ E Hd) as (o1 & Hd1 & Hsame1).
  - destruct (Hk _ _ _ _ _ Hrun Hd1) as (o2 & Hd2 & Hsame2).
    exists o2. split; [assumption|]. intros k0 Hk0.
    now rewrite Hsame2, Hsame1.
  - injection Hrun as <- <-. eauto.
Qed.

Lemma preserving_try_catch {A} (d : nat) (body : Saga A)
    (handler : Exn -> Saga A) :
  preserving d body -> (forall e, preserving d (handler e)) ->
  preserving d (try_catch body handler).
Proof.
  intros Hm Hk w r w' o. unfold try_catch.
  destruct (body w) as [[a|e] w1] eqn:E; intros Hrun Hd;
    destruct (Hm _ _ _ _ E Hd) as (o1 & Hd1 & Hsame1).
  - injection Hrun as <- <-. eauto.
  - destruct (Hk _ _ _ _ _ Hrun Hd1) as (o2 & Hd2 & Hsame2).
    exists o2. split; [assumption|]. intros k0 Hk0.
    now rewrite Hsame2, Hsame1.
Qed.

Lemma preserving_set_dyn (d : nat) (k : string) (v : JsVal) :
  k ∈ lifecycle -> preserving d (set_dyn d k v).
Proof.
  intros Hk w r w' o Hrun Hd.
  rewrite (set_dyn_allocated _ _ _ _ _ Hd) in Hrun. injection Hrun as <- <-.
  exists (Js.set k v o). simpl. split; [apply lookup_insert_eq|].
  intros k' Hk'. apply lookup_set_ne. intros ->. contradiction.
Qed.

Create HintDb preserving.
#[export] Hint Resolve preserving_ret preserving_lift preserving_emit
  : preserving.

Ltac preserving_steps :=
  repeat first
    [ solve [auto with preserving]
    | apply preserving_set_dyn; unfold lifecycle; set_solver
    | apply preserving_bind; [| intros ?] ].

Section FetchOnePreserves.

Variable getDynamicBindings : JsVal -> Result JsVal.
Variable getDataTreeActionConfigPath : JsVal -> Result string.
Variable isDynamicValue : JsVal -> bool.

Local Abbreviation fetchOne :=
  (fetchDynamicValueSaga getDynamicBindings getDataTreeActionConfigPath
     isDynamicValue).

Lemma preserving_read (d : nat) (c : option nat) :
  preserving d (read_fetchDynamicValues c).
Proof.
  apply preserving_same. intros w r w'. unfold read_fetchDynamicValues.
  now destruct (c ≫= _); intros [= <- <-].
Qed.

Lemma preserving_destructure (d : nat) (src : option nat) :
  preserving d (destructure src).
Proof.
  apply preserving_same. intros w r w'. unfold destructure.
  now destruct (src ≫= _); intros [= <- <-].
Qed.

Lemma preserving_fetchResponse (d : nat) (response : JsVal) :
  preserving d (fetchResponse d response).
Proof.
  unfold fetchResponse. preserving_steps.
  destruct (Js.is_num 200 _); preserving_steps.
  match goal with b : bool |- _ => destruct b end; preserving_steps.
Qed.

Lemma preserving_fetchDynamicValueSaga (env : Env) (value : option nat)
    (d : nat) (actionId datasourceId pluginId configProperty : string) :
  preserving d (fetchOne env value d actionId datasourceId pluginId
                  configProperty).
Proof.
  pose proof preserving_read. pose proof preserving_destructure.
  pose proof preserving_fetchResponse.
  unfold fetchDynamicValueSaga.
  apply preserving_bind; [| intros ?; auto with preserving].
  apply preserving_try_catch.
  - unfold fetchTry, fetchRequest, callApi. preserving_steps.
  - intros e. unfold fetchCatch, log_error. preserving_steps.
Qed.

(** X4. Whatever happens during a fetch, the object handed in is still
    there afterwards and differs from what it was in at most its four
    lifecycle properties [hasStarted], [isLoading], [hasFetchFailed] and
    [data]: its [config], [evaluatedConfig], [allowedToFetch] and anything
    else it carries are as they were. *)
Theorem fetch_writes_lifecycle_only (env : Env) (value : option nat)
    (d : nat) (actionId datasourceId pluginId configProperty : string)
    (w w' : World) (r : Result nat) (o : DynamicValues) :
  dynHeap w !! d = Some o ->
  fetchOne env value d actionId datasourceId pluginId configProperty w
    = (r, w') ->
  exists o',
    dynHeap w' !! d = Some o' /\
    forall k, k ∉ lifecycle -> Js.lookup k o' = Js.lookup k o.
Proof.
  intros Hd Hrun.
  exact (preserving_fetchDynamicValueSaga _ _ _ _ _ _ _ _ _ _ _ Hrun Hd).
Qed.

End FetchOnePreserves.

(** ** The state a cascade leaves behind *)

Section CascadeOutcome.

Variable getDynamicBindings : JsVal -> Result JsVal.
Variable getDataTreeActionConfigPath : JsVal -> Result string.
Variable isDynamicValue : JsVal -> bool.

Local Abbreviation fetchOne :=
  (fetchDynamicValueSaga getDynamicBindings getDataTreeActionConfigPath
     isDynamicValue).
Local Abbreviation loop :=
  (fetchLoop getDynamicBindings getDataTreeActionConfigPath isDynamicValue).
Local Abbreviation fetchAll :=
  (fetchDynamicValuesSaga getDynamicBindings getDataTreeActionConfigPath
     isDynamicValue).

(** On an allocated object a fetch returns the object, settled. *)
Lemma fetchDynamicValueSaga_settles (env : Env) (value : option nat) (d : nat)
    (actionId datasourceId pluginId configProperty : string)
    (w : World) :
  is_Some (dynHeap w !! d) ->
  exists w' o',
    fetchOne env value d actionId datasourceId pluginId configProperty w
      = (Ok d, w') /\
    dynHeap w' !! d = Some o' /\ settled o'.
Proof.
  intros Hd.
  destruct (fetchRequest getDynamicBindings getDataTreeActionConfigPath
              isDynamicValue env value d actionId datasourceId pluginId
              configProperty w) as [rq w1] eqn:Hreq.
  pose proof (local_fetchRequest _ _ _ _ _ _ _ _ _ _ _ _ _ Hreq) as Hfq.
  destruct (fp_alloc _ _ _ Hfq Hd) as [o1 Hd1].
  unfold fetchDynamicValueSaga, bind, try_catch, ret, fetchTry.
  unfold bind at 1. rewrite Hreq. destruct rq as [[url body]|e].
  - unfold callApi, bind, emit, lift. simpl.
    set (w2 := mkWorld _ _ _).
    assert (Hd2 : dynHeap w2 !! d = Some o1) by exact Hd1.
    destruct (fetchDynamicFormValues env url body) as [response|e].
    + destruct (fetchResponse_spec d response w2 o1 Hd2)
        as (r & w3 & o3 & -> & _ & Hd3 & Hl3 & _ & Hcase).
      destruct r as [[]|e].
      * exists w3, o3. split_and!; auto. split; [assumption|].
        destruct Hcase as [(t & _ & _ & _ & _ & Hf)|[_ Hf]]; auto.
      * destruct (fetchCatch_spec d e w3 o3 Hd3)
          as (w4 & o4 & -> & _ & Hd4 & Hf & Hl & Hda & _).
        exists w4, o4. split_and!; auto. split; auto.
    + destruct (fetchCatch_spec d e w2 o1 Hd2)
        as (w4 & o4 & -> & _ & Hd4 & Hf & Hl & Hda & _).
      exists w4, o4. split_and!; auto. split; auto.
  - destruct (fetchCatch_spec d e w1 o1 Hd1)
      as (w4 & o4 & -> & _ & Hd4 & Hf & Hl & Hda & _).
    exists w4, o4. split_and!; auto. split; auto.
Qed.

(** One turn of the loop, with what it leaves in the copy. *)
Lemma fetchLoop_turn_copy (envs : nat -> Env) (i : nat) (key : string)
    (rest : list string) (queue : FormEvalOutput) (formId : string)
    (evalOutput : FormEvalOutput) (datasourceId pluginId : string)
    (w : World) :
  (loop envs i (key :: rest) queue formId evalOutput datasourceId pluginId w
     = (Throw TypeError, w) /\
   (Js.lookup key evalOutput ≫= fun c => condHeap w !! c) = None)
  \/ exists c co w1 o',
       let d := fresh (dom (dynHeap w)) in
       Js.lookup key evalOutput = Some c /\
       condHeap w !! c = Some co /\
       loop envs i (key :: rest) queue formId evalOutput datasourceId
         pluginId w
         = loop envs (S i) rest queue formId evalOutput datasourceId
             pluginId w1 /\
       condHeap w1
         = <[c := mkConditionalOutput (Some d) (otherProps co)]> (condHeap w) /\
       (forall d', d' <> d -> dynHeap w1 !! d' = dynHeap w !! d') /\
       dynHeap w !! d = None /\
       dynHeap w1 !! d = Some o' /\
       settled o' /\
       forall k, k ∉ lifecycle ->
         Js.lookup k o'
         = Js.lookup k
             (default [] (fetchDynamicValues co ≫= fun s => dynHeap w !! s)).
Proof.
  cbn [fetchLoop].
  destruct (Js.lookup key evalOutput ≫= fun c => condHeap w !! c)
    as [co|] eqn:Eco.
  2:{ left. split; [|reflexivity].
      apply bind_throw. now apply read_fetchDynamicValues_none. }
  destruct (Js.lookup key evalOutput) as [c|] eqn:Ek; [|discriminate].
  simpl in Eco. right. exists c, co.
  set (d := fresh (dom (dynHeap w))).
  set (o := default [] (fetchDynamicValues co ≫= fun s => dynHeap w !! s)).
  set (wa := mkWorld (<[d := o]> (dynHeap w)) (condHeap w)
               (trace w ++ [EvCallFetchDynamicValue key d])).
  assert (Hfresh : dynHeap w !! d = None).
  { apply not_elem_of_dom. apply is_fresh. }
  assert (Hda : dynHeap wa !! d = Some o) by apply lookup_insert_eq.
  destruct (fetchDynamicValueSaga_settles (envs i) (Js.lookup key queue) d
              formId datasourceId pluginId key wa (ex_intro _ o Hda))
    as (wb & o' & Hrun & Hdb & Hset).
  pose proof (local_fetchDynamicValueSaga _ _ _ _ _ _ _ _ _ _ _ _ _ Hrun)
    as [Hc Ho _ _].
  destruct (preserving_fetchDynamicValueSaga _ _ _ _ _ _ _ _ _ _ _ _ _ _
              Hrun Hda) as (o'' & Hdb' & Hsame).
  assert (o'' = o') by congruence. subst o''.
  assert (Ecb : condHeap wb !! c = Some co) by (now rewrite Hc).
  eexists _, o'. split; [reflexivity|]. split; [assumption|].
  split.
  { erewrite bind_ok by (apply read_fetchDynamicValues_some; exact Eco).
    erewrite bind_ok by reflexivity.
    erewrite bind_ok by reflexivity.
    erewrite bind_ok by exact Hrun.
    erewrite bind_ok by (apply write_fetchDynamicValues_some; exact Ecb).
    reflexivity. }
  cbn [dynHeap condHeap trace]. split_and!; auto.
  - now rewrite Hc.
  - intros d' Hne. rewrite Ho by assumption. cbn [dynHeap wa].
    now rewrite lookup_insert_ne.
Qed.

Lemma isFetchable_turn (w w1 : World) (c : nat) (co : ConditionalOutput)
    (o' : DynamicValues) :
  let d := fresh (dom (dynHeap w)) in
  wellPointed w ->
  condHeap w !! c = Some co ->
  condHeap w1
    = <[c := mkConditionalOutput (Some d) (otherProps co)]> (condHeap w) ->
  (forall d', d' <> d -> dynHeap w1 !! d' = dynHeap w !! d') ->
  dynHeap w !! d = None ->
  dynHeap w1 !! d = Some o' ->
  (forall k, k ∉ lifecycle ->
     Js.lookup k o'
     = Js.lookup k
         (default [] (fetchDynamicValues co ≫= fun s => dynHeap w !! s))) ->
  wellPointed w1 /\ forall c', isFetchable w1 c' = isFetchable w c'.
Proof.
  intros d Hwp Hc Hc1 Hothers Hfresh Hd1 Hsame.
  assert (Hold : forall d', is_Some (dynHeap w !! d') ->
                            dynHeap w1 !! d' = dynHeap w !! d').
  { intros d' [x Hx]. apply Hothers. intros ->. congruence. }
  split.
  - intros c' co' d'. rewrite Hc1.
    destruct (decide (c = c')) as [<-|Hne].
    + rewrite lookup_insert_eq. intros [= <-] [= <-]. eauto.
    + rewrite lookup_insert_ne by assumption. intros Hco' Hfdv.
      rewrite Hold; eauto.
  - intros c'. unfold isFetchable. rewrite Hc1.
    destruct (decide (c = c')) as [<-|Hne].
    + rewrite lookup_insert_eq, Hc. cbn [fetchDynamicValues]. rewrite Hd1.
      assert (Hk : "allowedToFetch" ∉ lifecycle).
      { unfold lifecycle. intros Hin. apply list_elem_of_In in Hin.
        simpl in Hin. intuition discriminate. }
      unfold Js.has. rewrite (Hsame _ Hk).
      destruct (fetchDynamicValues co) as [s|] eqn:Hs; [|reflexivity].
      destruct (Hwp c co s Hc Hs) as [os Hos]. simpl. now rewrite Hos.
    + rewrite lookup_insert_ne by assumption.
      destruct (condHeap w !! c') as [co'|] eqn:Hco'; [|reflexivity].
      destruct (fetchDynamicValues co') as [d'|] eqn:Hd'; [|reflexivity].
      rewrite Hold; eauto.
Qed.

Lemma fetchLoop_fetchable (envs : nat -> Env) (keys : list string)
    (queue : FormEvalOutput) (formId : string) (evalOutput : FormEvalOutput)
    (datasourceId pluginId : string) :
  forall (i : nat) (w w' : World) (r : Result unit),
    wellPointed w ->
    loop envs i keys queue formId evalOutput datasourceId pluginId w
      = (r, w') ->
    wellPointed w' /\ forall c, isFetchable w' c = isFetchable w c.
Proof.
  induction keys as [|key rest IH]; intros i w w' r Hwp Hrun.
  - injection Hrun as <- <-. auto.
  - destruct (fetchLoop_turn_copy envs i key rest queue formId evalOutput
                datasourceId pluginId w)
      as [[Hthrow _]
         |(c & co & w1 & o' & Hk & Hc & Hstep & Hc1 & Hothers & Hfresh
           & Hd1 & _ & Hsame)].
    + rewrite Hthrow in Hrun. injection Hrun as <- <-. auto.
    + rewrite Hstep in Hrun.
      destruct (isFetchable_turn w w1 c co o' Hwp Hc Hc1 Hothers Hfresh Hd1
                  Hsame) as [Hwp1 Hf1].
      destruct (IH _ _ _ _ Hwp1 Hrun) as [Hwp' Hf'].
      split; [assumption|]. intros c'. now rewrite Hf', Hf1.
Qed.

Lemma extractLoop_ext (w w' : World) (entries : FormEvalOutput) :
  (forall c, isFetchable w' c = isFetchable w c) ->
  forall output, extractLoop w' entries output = extractLoop w entries output.
Proof.
  intros Hf. induction entries as [|[key c] rest IH]; intros output;
    cbn [extractLoop]; [reflexivity|].
  rewrite Hf. destruct (isFetchable w c) as [b|e]; simpl; auto.
Qed.

(** X5. A cascade does not change which fields are to be fetched.  In a
    store whose [fetchDynamicValues] references all name objects,
    [fetchDynamicValuesSaga], whether it completes or throws on the way,
    leaves every field as fetchable as it was: the copies it stores keep
    [allowedToFetch], so extracting the queue again from any evaluation
    output gives what it gave before. *)
Theorem cascade_keeps_fetchability (envs : nat -> Env)
    (published : Result unit) (queue : FormEvalOutput) (formId : string)
    (evalOutput : FormEvalOutput) (datasourceId pluginId : string)
    (w w' : World) (r : Result unit) :
  wellPointed w ->
  fetchAll envs published queue formId evalOutput datasourceId pluginId w
    = (r, w') ->
  wellPointed w' /\
  (forall c, isFetchable w' c = isFetchable w c) /\
  forall output,
    extractQueueOfValuesToBeFetched w' output
    = extractQueueOfValuesToBeFetched w output.
Proof.
  intros Hwp Hrun.
  apply fetchDynamicValuesSaga_inv in Hrun
    as (r1 & w1 & Hloop & Hdyn & Hcond & _).
  destruct (fetchLoop_fetchable _ _ _ _ _ _ _ _ _ _ _ Hwp Hloop)
    as [Hwp1 Hf1].
  assert (Hf : forall c, isFetchable w' c = isFetchable w c).
  { intros c. rewrite <- Hf1. unfold isFetchable. now rewrite Hdyn, Hcond. }
  split_and!; [| exact Hf |].
  - intros c co d. rewrite Hdyn, Hcond. apply Hwp1.
  - intros output. unfold extractQueueOfValuesToBeFetched.
    now apply extractLoop_ext.
Qed.


Lemma settledField_turn (w w1 : World) (c : nat) (co : ConditionalOutput)
    (o' : DynamicValues) :
  let d := fresh (dom (dynHeap w)) in
  condHeap w1
    = <[c := mkConditionalOutput (Some d) (otherProps co)]> (condHeap w) ->
  (forall d', d' <> d -> dynHeap w1 !! d' = dynHeap w !! d') ->
  dynHeap w !! d = None ->
  dynHeap w1 !! d = Some o' ->
  settled o' ->
  settledField w1 c /\ forall c', settledField w c' -> settledField w1 c'.
Proof.
  intros d Hc1 Hothers Hfresh Hd1 Hset.
  assert (Hc : settledField w1 c).
  { exists (mkConditionalOutput (Some d) (otherProps co)), d, o'.
    rewrite Hc1, lookup_insert_eq. auto. }
  split; [exact Hc|].
  intros c' (co' & d' & x & Hco' & Hfdv & Hd' & Hx).
  destruct (decide (c = c')) as [<-|Hne]; [exact Hc|].
  exists co', d', x. rewrite Hc1, lookup_insert_ne by assumption.
  split_and!; auto. rewrite Hothers; [assumption|]. intros ->. congruence.
Qed.

Lemma fetchLoop_settles (envs : nat -> Env) (keys : list string)
    (queue : FormEvalOutput) (formId : string) (evalOutput : FormEvalOutput)
    (datasourceId pluginId : string) :
  forall (i : nat) (w : World),
    defined w evalOutput keys ->
    exists w',
      loop envs i keys queue formId evalOutput datasourceId pluginId w
        = (Ok tt, w') /\
      (forall c, settledField w c -> settledField w' c) /\
      forall key, key ∈ keys ->
        exists c, Js.lookup key evalOutput = Some c /\ settledField w' c.
Proof.
  induction keys as [|key rest IH]; intros i w Hdef.
  - exists w. split_and!; auto. intros key Hin. inversion Hin.
  - destruct (fetchLoop_turn_copy envs i key rest queue formId evalOutput
                datasourceId pluginId w)
      as [[_ Hnone]
         |(c & co & w1 & o' & Hk & Hc & Hstep & Hc1 & Hothers & Hfresh
           & Hd1 & Hset & _)].
    { destruct (Hdef key) as (c & Hk & [co Hc]); [left|].
      rewrite Hk in Hnone. simpl in Hnone. congruence. }
    destruct (settledField_turn w w1 c co o' Hc1 Hothers Hfresh Hd1 Hset)
      as [Hnow Hkept].
    destruct (IH (S i) w1) as (w' & Hrun & Hkept' & Hrest).
    { intros key' Hin. destruct (Hdef key') as (c' & Hk' & Hc'); [now right|].
      exists c'. split; [assumption|]. rewrite Hc1.
      apply lookup_insert_is_Some. destruct (decide (c = c')); auto. }
    exists w'. split_and!.
    + now rewrite Hstep.
    + auto.
    + intros key' Hin. apply elem_of_cons in Hin as [->|Hin]; [|auto].
      exists c. auto.
Qed.

(** X6. When every queued key is a field of the evaluation output,
    [fetchDynamicValuesSaga] completes with the outcome of its publish, and
    no queued field is left loading: each holds a [fetchDynamicValues]
    with [isLoading = false] that has either failed, with [data = []], or
    has [hasFetchFailed = false] -- whatever the backend answered, and also
    when a later key of the queue names the same field again. *)
Theorem cascade_settles_fields (envs : nat -> Env)
    (published : Result unit) (queue : FormEvalOutput) (formId : string)
    (evalOutput : FormEvalOutput) (datasourceId pluginId : string)
    (w : World) :
  defined w evalOutput queue.*1 ->
  exists w',
    fetchAll envs published queue formId evalOutput datasourceId pluginId w
      = (published, w') /\
    forall key, key ∈ queue.*1 ->
      exists c, Js.lookup key evalOutput = Some c /\ settledField w' c.
Proof.
  intros Hdef.
  destruct (fetchLoop_settles envs queue.*1 queue formId evalOutput
              datasourceId pluginId 0%nat w Hdef) as (w1 & Hrun & _ & Hkeys).
  unfold fetchDynamicValuesSaga. erewrite bind_ok by exact Hrun.
  unfold put. eexists. split; [reflexivity|].
  intros key Hin. destruct (Hkeys key Hin) as (c & Hk & Hs).
  exists c. split; [assumption|]. exact Hs.
Qed.

Lemma fetchLoop_stops (envs : nat -> Env) (key : string)
    (after : list string) (queue : FormEvalOutput) (formId : string)
    (evalOutput : FormEvalOutput) (datasourceId pluginId : string) :
  Js.lookup key evalOutput = None ->
  forall (before : list string) (i : nat) (w : World),
    defined w evalOutput before ->
    exists w' evs,
      loop envs i (before ++ key :: after) queue formId evalOutput
        datasourceId pluginId w = (Throw TypeError, w') /\
      trace w' = (trace w ++ evs)%list /\
      calls evs = before /\
      Forall (fun ev => publishes ev = false) evs.
Proof.
  intros Hkey. induction before as [|k before IH]; intros i w Hdef;
    cbn [app].
  - destruct (fetchLoop_turn getDynamicBindings getDataTreeActionConfigPath
                isDynamicValue envs i key after queue formId evalOutput
                datasourceId pluginId w)
      as [[Hthrow _]|(c & co & w1 & evs & Hk & _)]; [|congruence].
    exists w, []. rewrite app_nil_r. split_and!; auto.
  - destruct (fetchLoop_turn getDynamicBindings getDataTreeActionConfigPath
                isDynamicValue envs i k (before ++ key :: after) queue formId
                evalOutput datasourceId pluginId w)
      as [[_ Hnone]
         |(c & co & w1 & evs & Hk & Hc & Hstep & Hc1 & _ & _ & Ht1 & Hq1)].
    { destruct (Hdef k) as (c & Hk & [co Hc]); [left|].
      rewrite Hk in Hnone. simpl in Hnone. congruence. }
    destruct (IH (S i) w1) as (w' & evs' & Hrun & Ht' & Hcalls & Hp').
    { intros key' Hin. destruct (Hdef key') as (c' & Hk' & Hc'); [now right|].
      exists c'. split; [assumption|]. rewrite Hc1.
      apply lookup_insert_is_Some. destruct (decide (c = c')); auto. }
    exists w', (EvCallFetchDynamicValue k (fresh (dom (dynHeap w)))
                  :: evs ++ evs')%list.
    split_and!.
    + now rewrite Hstep.
    + rewrite Ht', Ht1, <- app_assoc. reflexivity.
    + simpl. rewrite calls_app, (calls_fetching evs Hq1), Hcalls. reflexivity.
    + constructor; [reflexivity|]. apply Forall_app. split; [|assumption].
      eapply Forall_impl; [exact Hq1|]. intros [] ?; simpl in *; congruence.
Qed.

(** X7. A queued key that is not a field of the evaluation output stops
    the cascade: the keys before it are fetched, in order, then reading
    [evalOutput[key].fetchDynamicValues] throws a TypeError out of
    [fetchDynamicValuesSaga]; the keys after it are not fetched and
    nothing is published. *)
Theorem cascade_stops_at_missing_field (envs : nat -> Env)
    (published : Result unit) (queue : FormEvalOutput) (formId : string)
    (evalOutput : FormEvalOutput) (datasourceId pluginId : string)
    (w : World) (before after : list string) (key : string) :
  queue.*1 = (before ++ key :: after)%list ->
  defined w evalOutput before ->
  Js.lookup key evalOutput = None ->
  exists w' evs,
    fetchAll envs published queue formId evalOutput datasourceId pluginId w
      = (Throw TypeError, w') /\
    trace w' = (trace w ++ evs)%list /\
    calls evs = before /\
    Forall (fun ev => publishes ev = false) evs.
Proof.
  intros Hq Hdef Hkey.
  destruct (fetchLoop_stops envs key after queue formId evalOutput
              datasourceId pluginId Hkey before 0%nat w Hdef)
    as (w' & evs & Hrun & Ht & Hcalls & Hp).
  exists w', evs. split_and!; auto.
  unfold fetchDynamicValuesSaga. rewrite Hq. now apply bind_throw.
Qed.

End CascadeOutcome.

(** ** Requests are not left behind *)

Lemma evaluations_pos (ts : list Task) :
  evaluations ts <> 0%nat ->
  exists i action, ts !! i = Some (AwaitEvaluation action).
Proof.
  induction ts as [|t ts IH]; simpl; [congruence|].
  destruct t; try (intros H; destruct (IH H) as (i & a & Hi);
                   exists (S i), a; exact Hi).
  intros _. exists 0%nat, action. reflexivity.
Qed.

Lemma clean_published (labels : list Label) :
  forallb clean labels = true -> forallb cascadePublished labels = true.
Proof.
  induction labels as [|l rest IH]; simpl; [reflexivity|].
  intros H. apply andb_true_iff in H as [Hl Hrest].
  rewrite (IH Hrest), andb_true_r.
  destruct l as [a st | i wr pub nxt | i | i envs [|] | i backend envs [|]];
    auto.
Qed.

Section Served.

Variable getDynamicBindings : JsVal -> Result JsVal.
Variable getDataTreeActionConfigPath : JsVal -> Result string.
Variable isDynamicValue : JsVal -> bool.

Local Abbreviation next :=
  (step getDynamicBindings getDataTreeActionConfigPath isDynamicValue).
Local Abbreviation runs :=
  (run getDynamicBindings getDataTreeActionConfigPath isDynamicValue).
Local Abbreviation escapes :=
  (cascadeThrows getDynamicBindings getDataTreeActionConfigPath
     isDynamicValue).

Lemma served_runFetch (m : Saga (option FetchFrame)) (sys : System) :
  served sys -> throws (m (world sys)) = false -> served (runFetch m sys).
Proof.
  unfold served, runFetch.
  destruct (m (world sys)) as [[[frame|]|e] w]; simpl; auto; discriminate.
Qed.

Lemma served_step (sys sys' : System) (l : Label) :
  allGrounded sys -> served sys -> clean l = true ->
  next sys l = Some sys' -> served sys'.
Proof.
  intros Hall Hs Hclean Hstep.
  pose proof (escapes_published getDynamicBindings
                getDataTreeActionConfigPath isDynamicValue sys l Hall) as Hesc.
  destruct l as [a [st|] | i [wr|] [[]|] [st|] | i | i envs [[]|]
                | i backend envs [[]|]]; try discriminate;
    simpl in Hstep, Hesc.
  - injection Hstep as <-. unfold served, setFormEvaluationSagaAsync.
    destruct (isEvaluating sys); simpl; auto.
  - destruct (tasks sys !! i) as [[]|] eqn:Ht; try discriminate.
    injection Hstep as <-. unfold served, afterEvaluation.
    assert (Hif : (if truthyResponse wr then Ok tt else Ok tt)
                  = (Ok tt : Result unit)) by (now destruct (truthyResponse wr)).
    rewrite Hif.
    destruct (truthyResponse wr); simpl;
      (destruct (evalQueue sys) as [|nextAction queue];
       [ destruct (outputOf wr _) as [[evalOutput|]|e]; simpl; auto;
         destruct (extractQueueOfValuesToBeFetched _ evalOutput); simpl; auto
       | unfold setFormEvaluationSagaAsync; simpl; auto ]).
  - destruct (tasks sys !! i) as [[]|] eqn:Ht; try discriminate.
    injection Hstep as <-. exact Hs.
  - destruct (tasks sys !! i) as [[]|] eqn:Ht; try discriminate.
    injection Hstep as <-. apply served_runFetch; [exact Hs|].
    exact (Hesc eq_refl).
  - destruct (tasks sys !! i) as [[]|] eqn:Ht; try discriminate.
    injection Hstep as <-. apply served_runFetch; [exact Hs|].
    exact (Hesc eq_refl).
Qed.

Lemma served_run (labels : list Label) :
  forall sys sys',
    allGrounded sys -> served sys -> forallb clean labels = true ->
    runs sys labels = Some sys' -> served sys'.
Proof.
  induction labels as [|l rest IH]; simpl; intros sys sys' Hall Hs Hclean Hrun.
  - now injection Hrun as <-.
  - apply andb_true_iff in Hclean as [Hl Hrest].
    destruct (next sys l) as [sys1|] eqn:Hstep; [|discriminate].
    eapply (IH sys1); [| |exact Hrest|exact Hrun].
    + eapply allGrounded_step; eassumption.
    + eapply served_step; eassumption.
Qed.

(** X8. As long as nothing the sequencer asks for fails (state reads,
    evaluations and publishes succeed, whatever the backend answers), no
    request is left behind in the queue: in every state reached from the
    idle one, a non-empty queue comes with the busy flag set and with an
    evaluation under way, the one whose end forks the head of the queue. *)
Theorem queued_request_has_evaluation_ahead (w : World)
    (labels : list Label) (sys : System) :
  forallb clean labels = true ->
  runs (idle w) labels = Some sys ->
  evalQueue sys <> [] ->
  isEvaluating sys = true /\
  exists i action, tasks sys !! i = Some (AwaitEvaluation action).
Proof.
  intros Hclean Hrun Hq.
  assert (Hs : served sys).
  { eapply served_run; [| |exact Hclean|exact Hrun]; [constructor | now left]. }
  destruct Hs as [Hs|Hs]; [contradiction|]. split; [exact Hs|].
  assert (Hb : balanced sys).
  { eapply balanced_run; [| |exact Hrun]; [reflexivity|].
    apply calm_published; [constructor | now apply clean_published]. }
  apply evaluations_pos. unfold balanced in Hb. rewrite Hb, Hs. discriminate.
Qed.

Lemma evaluationCalls_app (evs1 evs2 : list Event) :
  evaluationCalls (evs1 ++ evs2)
  = (evaluationCalls evs1 ++ evaluationCalls evs2)%list.
Proof.
  induction evs1 as [|[] evs1 IH]; simpl; auto. now rewrite IH.
Qed.

Lemma submits_while_busy (requests : list (ReduxAction * Result JsVal)) :
  forall sys,
    isEvaluating sys = true ->
    runs sys (submits requests)
    = Some (mkSystem true (evalQueue sys ++ requests.*1) (tasks sys)
              (world sys)).
Proof.
  induction requests as [|[action state] rest IH]; intros sys Hbusy.
  - simpl. rewrite app_nil_r, <- Hbusy. now destruct sys.
  - cbn [submits fmap list_fmap run step fst snd].
    unfold setFormEvaluationSagaAsync. rewrite Hbusy.
    fold (submits rest). rewrite IH by reflexivity. simpl.
    now rewrite <- app_assoc.
Qed.

Lemma run_app (labels1 labels2 : list Label) :
  forall sys,
    runs sys (labels1 ++ labels2)
    = runs sys labels1 ≫= fun sys' => runs sys' labels2.
Proof.
  induction labels1 as [|l rest IH]; intros sys; simpl; [reflexivity|].
  destruct (next sys l); [apply IH | reflexivity].
Qed.

Lemma queue_drains (answers : list (WorkerResponse * JsVal)) :
  forall (action : ReduxAction) (queue : list ReduxAction) (w : World),
    List.length answers = List.length queue ->
    exists w',
      runs (mkSystem true queue [AwaitEvaluation action] w)
        (evaluationsDone 0 answers)
      = Some (mkSystem true [] [AwaitEvaluation (default action (last queue))]
                w') /\
      evaluationCalls (trace w') = (evaluationCalls (trace w) ++ queue)%list /\
      (In EvRace (trace w') -> In EvRace (trace w)).
Proof.
  induction answers as [|[wr state] rest IH]; intros action queue w Hlen.
  - destruct queue; [|discriminate]. exists w. simpl.
    now rewrite app_nil_r.
  - destruct queue as [|nextAction queue]; [discriminate|].
    injection Hlen as Hlen.
    cbn [evaluationsDone fmap list_fmap run step fst snd tasks lookup
         list_lookup].
    fold (evaluationsDone 0 rest).
    unfold afterEvaluation, without, setFormEvaluationSagaAsync, spawn.
    destruct (truthyResponse wr); cbn -[run evaluationsDone];
      (match goal with
       | |- context [run _ _ _
                       (mkSystem true queue [AwaitEvaluation nextAction] ?w1)
                       _] =>
           destruct (IH nextAction queue w1 Hlen)
             as (w' & Hrun & Hcalls & Hrace)
       end;
       exists w'; rewrite last_cons; split_and!;
       [ rewrite Hrun; now destruct (last queue)
       | rewrite Hcalls; simpl; rewrite !evaluationCalls_app; simpl;
         rewrite ?app_nil_r, <- ?app_assoc; reflexivity
       | intros Hin; apply Hrace in Hin; revert Hin; simpl;
         rewrite !in_app_iff; simpl; intuition discriminate ]).
Qed.

(** X9. Requests submitted while an evaluation is under way are
    evaluated one after the other in the order of their submission, each
    forked when the one before it ends.  None but the last goes on to
    fetch dynamic values: when the queue has drained the evaluation of the
    last request is the only task, and no wait for the data tree has been
    started on the way. *)
Theorem burst_is_evaluated_in_order (w : World) (first : ReduxAction)
    (state : JsVal) (requests : list (ReduxAction * Result JsVal))
    (answers : list (WorkerResponse * JsVal)) :
  List.length answers = List.length requests ->
  exists sys,
    runs (idle w)
      (Submit first (Ok state) :: submits requests
         ++ evaluationsDone 0 answers)%list
    = Some sys /\
    isEvaluating sys = true /\
    evalQueue sys = [] /\
    tasks sys = [AwaitEvaluation (default first (last requests.*1))] /\
    evaluationCalls (trace (world sys))
    = (evaluationCalls (trace w) ++ first :: requests.*1)%list /\
    (In EvRace (trace (world sys)) -> In EvRace (trace w)).
Proof.
  intros Hlen.
  destruct (queue_drains answers first requests.*1
              (record (EvCallEvalFormConfig first state) w))
    as (w' & Hrun & Hcalls & Hrace).
  { now rewrite length_fmap. }
  eexists. split.
  - cbn [run step]. unfold setFormEvaluationSagaAsync, idle, spawn.
    cbn [isEvaluating evalQueue tasks world app].
    rewrite run_app, submits_while_busy by reflexivity.
    cbn [mbind option_bind evalQueue tasks world app]. exact Hrun.
  - cbn [isEvaluating evalQueue tasks world]. split_and!; auto.
    + rewrite Hcalls. simpl. rewrite evaluationCalls_app. simpl.
      now rewrite <- app_assoc.
    + intros Hin. apply Hrace in Hin. simpl in Hin.
      apply in_app_iff in Hin as [Hin|[Hin|[]]]; [assumption | discriminate].
Qed.

End Served.

(** ** One fetch, one call *)

Section FetchOnce.

Variable getDynamicBindings : JsVal -> Result JsVal.
Variable getDataTreeActionConfigPath : JsVal -> Result string.
Variable isDynamicValue : JsVal -> bool.

Local Abbreviation request :=
  (fetchRequest getDynamicBindings getDataTreeActionConfigPath isDynamicValue).
Local Abbreviation fetchOne :=
  (fetchDynamicValueSaga getDynamicBindings getDataTreeActionConfigPath
     isDynamicValue).

Lemma fetchRequest_silent (env : Env) (value : option nat) (d : nat)
    (actionId datasourceId pluginId configProperty : string)
    (w w1 : World) (rq : Result (JsVal * JsVal)) :
  request env value d actionId datasourceId pluginId configProperty w
    = (rq, w1) ->
  trace w1 = trace w.
Proof.
  unfold fetchRequest, bind, read_fetchDynamicValues, destructure, lift, ret.
  destruct (value ≫= _); [|now intros [= _ <-]].
  destruct (fetchDynamicValues _ ≫= _); [|now intros [= _ <-]].
  destruct (Js.get _ "params"); [|now intros [= _ <-]].
  destruct (set_dyn d "hasStarted" (JBool true) w) as [[[]|e] w2] eqn:Es;
    apply set_dyn_inv in Es as (_ & Ht & _); [|now intros [= _ <-]].
  repeat match goal with
         | |- context [match ?x with Ok _ => _ | Throw _ => _ end] =>
             destruct x
         end;
    now intros [= _ <-].
Qed.

(** X10. A fetch calls the backend at most once and logs at most one
    error.  Handed an object of the store, [fetchDynamicValueSaga] adds to
    the trace one of three things and nothing else: the error thrown while
    the request was prepared, and then no call at all; the one call of the
    backend with the prepared URL and body; or that call followed by the
    error thrown by the call or by reading its response.  It never calls a
    second time. *)
Theorem fetch_calls_backend_at_most_once (env : Env) (value : option nat)
    (d : nat) (actionId datasourceId pluginId configProperty : string)
    (w : World) :
  is_Some (dynHeap w !! d) ->
  exists w' evs,
    fetchOne env value d actionId datasourceId pluginId configProperty w
      = (Ok d, w') /\
    trace w' = (trace w ++ evs)%list /\
    ((exists e w1,
        request env value d actionId datasourceId pluginId configProperty w
          = (Throw e, w1) /\
        evs = [EvLogError e])
     \/ (exists url body w1,
           request env value d actionId datasourceId pluginId configProperty w
             = (Ok (url, body), w1) /\
           (evs = [EvFetchDynamicFormValues url body]
            \/ exists e,
                 evs = [EvFetchDynamicFormValues url body; EvLogError e]))).
Proof.
  intros Hd.
  destruct (request env value d actionId datasourceId pluginId
              configProperty w) as [rq w1] eqn:Hreq.
  pose proof (local_fetchRequest _ _ _ _ _ _ _ _ _ _ _ _ _ Hreq) as Hfq.
  pose proof (fetchRequest_silent _ _ _ _ _ _ _ _ _ _ Hreq) as Hsilent.
  destruct (fp_alloc _ _ _ Hfq Hd) as [o1 Hd1].
  unfold fetchDynamicValueSaga, bind, try_catch, ret, fetchTry.
  unfold bind at 1. rewrite Hreq. destruct rq as [[url body]|e].
  - unfold callApi, bind, emit, lift. simpl.
    set (w2 := mkWorld _ _ _).
    assert (Hd2 : dynHeap w2 !! d = Some o1) by exact Hd1.
    assert (Ht2 : trace w2
                  = (trace w ++ [EvFetchDynamicFormValues url body])%list)
      by (simpl; now rewrite Hsilent).
    destruct (fetchDynamicFormValues env url body) as [response|e].
    + destruct (fetchResponse_spec d response w2 o1 Hd2)
        as (r & w3 & o3 & -> & Ht3 & Hd3 & _).
      destruct r as [[]|e].
      * exists w3, [EvFetchDynamicFormValues url body].
        split_and!; [reflexivity | congruence |]. right. eauto 8.
      * destruct (fetchCatch_spec d e w3 o3 Hd3) as (w4 & o4 & -> & Ht4 & _).
        exists w4, [EvFetchDynamicFormValues url body; EvLogError e].
        split_and!; [reflexivity | |].
        -- rewrite Ht4, Ht3, Ht2, <- app_assoc. reflexivity.
        -- right. eauto 8.
    + destruct (fetchCatch_spec d e w2 o1 Hd2) as (w4 & o4 & -> & Ht4 & _).
      exists w4, [EvFetchDynamicFormValues url body; EvLogError e].
      split_and!; [reflexivity | |].
      * rewrite Ht4, Ht2, <- app_assoc. reflexivity.
      * right. eauto 8.
  - destruct (fetchCatch_spec d e w1 o1 Hd1) as (w4 & o4 & -> & Ht4 & _).
    exists w4, [EvLogError e]. split_and!; [reflexivity | |].
    + now rewrite Ht4, Hsilent.
    + left. eauto.
Qed.

End FetchOnce.

(** ** The request when the action is unknown *)

Section RequestWithoutAction.

Variable getDynamicBindings : JsVal -> Result JsVal.
Variable getDataTreeActionConfigPath : JsVal -> Result string.
Variable isDynamicValue : JsVal -> bool.

Local Abbreviation request :=
  (fetchRequest getDynamicBindings getDataTreeActionConfigPath isDynamicValue).

(** On an object, lines 175-182 always come to a URL. *)
Lemma urlOf_object (env : Env) (datasourceId : string)
    (evaluatedConfig : list (string * JsVal)) :
  exists url, urlOf env datasourceId (JObj evaluatedConfig) = Ok url.
Proof.
  unfold urlOf. simpl. destruct (Js.has "url" evaluatedConfig); [|eauto].
  simpl. destruct (default JUndefined _) as [| |b|n|s|l|o]; simpl; eauto.
  - destruct b; simpl; eauto.
  - destruct (negb _); simpl; eauto.
  - destruct (negb _); simpl; eauto.
Qed.

(** X11. When the store has no action for the form, nothing is
    substituted: the request is prepared all the same, and its body is the
    four identifiers followed by [evaluatedConfig.params] as it stands,
    with [parameters] copied as they are -- dynamic bindings left in them
    are sent to the backend. *)
Theorem request_without_action (env : Env) (c d s : nat)
    (actionId datasourceId pluginId configProperty : string)
    (w : World) (co : ConditionalOutput) (src : DynamicValues)
    (config configParams evaluatedConfig params : list (string * JsVal))
    (dataTree : JsVal) :
  is_Some (dynHeap w !! d) ->
  condHeap w !! c = Some co ->
  fetchDynamicValues co = Some s ->
  dynHeap w !! s = Some src ->
  Js.lookup "config" src = Some (JObj config) ->
  Js.lookup "params" config = Some (JObj configParams) ->
  Js.lookup "evaluatedConfig" src = Some (JObj evaluatedConfig) ->
  Js.lookup "params" evaluatedConfig = Some (JObj params) ->
  getAction env actionId = Ok None ->
  getDataTree env = Ok dataTree ->
  exists url w1,
    urlOf env datasourceId (JObj evaluatedConfig) = Ok url /\
    request env (Some c) d actionId datasourceId pluginId configProperty w
    = (Ok (url,
           requestBody actionId configProperty datasourceId pluginId
             (if Js.has "parameters" params
              then Js.set "parameters"
                     (JObj (Js.entries (prop "parameters" params))) params
              else params)),
       w1).
Proof.
  intros [o Hd] Hc Hs Hsrc Hcfg Hcps Hecfg Hps Haction Htree.
  destruct (urlOf_object env datasourceId evaluatedConfig) as [url Hurl].
  exists url. eexists. split; [exact Hurl|].
  unfold fetchRequest.
  erewrite bind_ok by (apply read_fetchDynamicValues_some; exact Hc).
  rewrite Hs.
  erewrite bind_ok
    by (unfold destructure; simpl; rewrite Hsrc, Hcfg, Hecfg; reflexivity).
  cbv zeta. cbn [fst snd from_option id].
  erewrite bind_ok by (unfold lift; simpl; rewrite Hps; reflexivity).
  erewrite bind_ok by (apply set_dyn_allocated; exact Hd).
  cbn [from_option id].
  erewrite bind_ok by (unfold lift; rewrite Hurl; reflexivity).
  erewrite bind_ok
    by (unfold lift, evalActionOf; rewrite Haction, Htree; reflexivity).
  erewrite bind_ok
    by (unfold lift, substitutedParametersOf; simpl; rewrite Hcps; simpl;
        rewrite andb_false_r; reflexivity).
  unfold evaluatedParamsOf. simpl.
  destruct (Js.has "parameters" params); reflexivity.
Qed.

End RequestWithoutAction.

(** ** The further statements at work on the sample inputs *)

Lemma listener_ignores_until_start_witness :
  Forall (fun request : ReduxAction * Result JsVal =>
            type request.1 <> "START_EVALUATION")
    [(Samples.R1, Ok JNull); (Samples.R2, Ok JNull)] /\
  dispatchAll "START_EVALUATION" ["RUN_FORM_EVALUATION"] AwaitStart
    [(Samples.R1, Ok JNull); (Samples.R2, Ok JNull)] (idle Samples.store)
  = (AwaitStart, idle Samples.store).
Proof.
  assert (H : Forall (fun request : ReduxAction * Result JsVal =>
                        type request.1 <> "START_EVALUATION")
                [(Samples.R1, Ok JNull); (Samples.R2, Ok JNull)])
    by (repeat constructor; simpl; discriminate).
  split; [exact H|].
  exact (listener_ignores_until_start "START_EVALUATION"
           ["RUN_FORM_EVALUATION"] _ (idle Samples.store) H).
Defined.

Lemma listener_forwards_after_start_witness :
  Forall (fun request : ReduxAction * Result JsVal =>
            type request.1 <> "START_EVALUATION")
    [(Samples.R1, Ok JNull)] /\
  dispatchAll "START_EVALUATION" ["RUN_FORM_EVALUATION"] AwaitStart
    ([(Samples.R1, Ok JNull)]
       ++ (mkAction "START_EVALUATION" (mkPayload "" None None), Ok JNull)
       :: [(Samples.R2, Ok JNull);
           (mkAction "SET_LOADING_ENTITIES" (mkPayload "" None None), Ok JNull);
           (Samples.R3, Ok JNull)])%list
    (idle Samples.store)
  = (Listening,
     submitAll [(Samples.R2, Ok JNull); (Samples.R3, Ok JNull)]
       (idle Samples.store)).
Proof.
  assert (H : Forall (fun request : ReduxAction * Result JsVal =>
                        type request.1 <> "START_EVALUATION")
                [(Samples.R1, Ok JNull)])
    by (repeat constructor; simpl; discriminate).
  split; [exact H|].
  exact (listener_forwards_after_start "START_EVALUATION"
           ["RUN_FORM_EVALUATION"] [(Samples.R1, Ok JNull)]
           [(Samples.R2, Ok JNull);
            (mkAction "SET_LOADING_ENTITIES" (mkPayload "" None None), Ok JNull);
            (Samples.R3, Ok JNull)]
           (mkAction "START_EVALUATION" (mkPayload "" None None)) (Ok JNull)
           (idle Samples.store) H eq_refl).
Defined.

Lemma extract_is_filter_witness :
  NoDup [("x", 0%nat)].*1 /\
  (forall key c, (key, c) ∈ [("x", 0%nat)] ->
                 is_Some (condHeap Samples.store !! c)) /\
  extractQueueOfValuesToBeFetched Samples.store [("x", 0%nat)]
  = Ok [("x", 0%nat)].
Proof.
  assert (Hnd : NoDup [("x", 0%nat)].*1) by apply NoDup_singleton.
  assert (Halloc : forall key c, (key, c) ∈ [("x", 0%nat)] ->
                                 is_Some (condHeap Samples.store !! c)).
  { intros key c Hin. apply list_elem_of_singleton in Hin.
    injection Hin as -> ->. vm_compute. eauto. }
  split; [exact Hnd|]. split; [exact Halloc|].
  exact (proj1 (extract_is_filter Samples.store [("x", 0%nat)] Hnd Halloc)).
Defined.

Lemma fetch_writes_lifecycle_only_witness :
  dynHeap Samples.store !! 1%nat
  = Some (Samples.dynamicValues Samples.declaring Samples.declaring) /\
  exists o',
    dynHeap
      (fetchDynamicValueSaga Bindings.getDynamicBindings
         Bindings.getDataTreeActionConfigPath Bindings.isDynamicValue
         (Samples.env Samples.unresolved (Ok Samples.okResponse))
         (Some 0%nat) 1%nat "a1" "d1" "p1" "x" Samples.store).2 !! 1%nat
    = Some o' /\
    Js.lookup "config" o' = Some Samples.declaring.
Proof.
  assert (H : dynHeap Samples.store !! 1%nat
              = Some (Samples.dynamicValues Samples.declaring Samples.declaring))
    by (vm_compute; reflexivity).
  split; [exact H|].
  destruct (fetch_writes_lifecycle_only Bindings.getDynamicBindings
              Bindings.getDataTreeActionConfigPath Bindings.isDynamicValue
              (Samples.env Samples.unresolved (Ok Samples.okResponse))
              (Some 0%nat) 1%nat "a1" "d1" "p1" "x" Samples.store _ _ _ H
              (surjective_pairing _))
    as (o' & Hd & Hsame).
  exists o'. split; [exact Hd|].
  rewrite Hsame; [reflexivity|]. unfold lifecycle. intros Hin.
  apply list_elem_of_In in Hin. simpl in Hin. intuition discriminate.
Defined.

Lemma cascade_keeps_fetchability_witness :
  wellPointed Samples.store /\
  extractQueueOfValuesToBeFetched
    (fetchDynamicValuesSaga Bindings.getDynamicBindings
       Bindings.getDataTreeActionConfigPath Bindings.isDynamicValue
       Samples.envs (Ok tt) [("x", 0%nat)] "a1" [("x", 0%nat)] "d1" "p1"
       Samples.store).2 [("x", 0%nat)]
  = extractQueueOfValuesToBeFetched Samples.store [("x", 0%nat)].
Proof.
  assert (H : wellPointed Samples.store).
  { intros c co d Hc Hfdv. unfold Samples.store, Samples.world in Hc.
    simpl in Hc. apply lookup_singleton_Some in Hc as [<- <-].
    injection Hfdv as <-. vm_compute. eauto. }
  split; [exact H|].
  apply (cascade_keeps_fetchability Bindings.getDynamicBindings
           Bindings.getDataTreeActionConfigPath Bindings.isDynamicValue
           Samples.envs (Ok tt) [("x", 0%nat)] "a1" [("x", 0%nat)] "d1" "p1"
           Samples.store _ _ H (surjective_pairing _)).
Defined.

Lemma cascade_settles_fields_witness :
  defined Samples.store [("x", 0%nat)] [("x", 0%nat)].*1 /\
  exists w',
    fetchDynamicValuesSaga Bindings.getDynamicBindings
      Bindings.getDataTreeActionConfigPath Bindings.isDynamicValue
      Samples.envs (Ok tt) [("x", 0%nat)] "a1" [("x", 0%nat)] "d1" "p1"
      Samples.store = (Ok tt, w') /\
    exists c, Js.lookup "x" [("x", 0%nat)] = Some c /\ settledField w' c.
Proof.
  assert (H : defined Samples.store [("x", 0%nat)] [("x", 0%nat)].*1).
  { intros key Hin. apply list_elem_of_singleton in Hin. subst key.
    exists 0%nat. split; [reflexivity|]. vm_compute. eauto. }
  split; [exact H|].
  destruct (cascade_settles_fields Bindings.getDynamicBindings
              Bindings.getDataTreeActionConfigPath Bindings.isDynamicValue
              Samples.envs (Ok tt) [("x", 0%nat)] "a1" [("x", 0%nat)]
              "d1" "p1" Samples.store H) as (w' & Hrun & Hkeys).
  exists w'. split; [exact Hrun|]. apply Hkeys. simpl. left.
Defined.

Lemma cascade_stops_at_missing_field_witness :
  defined Samples.store [("x", 0%nat)] ["x"] /\
  exists w' evs,
    fetchDynamicValuesSaga Bindings.getDynamicBindings
      Bindings.getDataTreeActionConfigPath Bindings.isDynamicValue
      Samples.envs (Ok tt) [("x", 0%nat); ("y", 0%nat)] "a1" [("x", 0%nat)]
      "d1" "p1" Samples.store = (Throw TypeError, w') /\
    trace w' = (trace Samples.store ++ evs)%list /\
    calls evs = ["x"] /\
    Forall (fun ev => publishes ev = false) evs.
Proof.
  assert (H : defined Samples.store [("x", 0%nat)] ["x"]).
  { intros key Hin. apply list_elem_of_singleton in Hin. subst key.
    exists 0%nat. split; [reflexivity|]. vm_compute. eauto. }
  split; [exact H|].
  exact (cascade_stops_at_missing_field Bindings.getDynamicBindings
           Bindings.getDataTreeActionConfigPath Bindings.isDynamicValue
           Samples.envs (Ok tt) [("x", 0%nat); ("y", 0%nat)] "a1"
           [("x", 0%nat)] "d1" "p1" Samples.store ["x"] [] "y"
           eq_refl H eq_refl).
Defined.

Lemma queued_request_has_evaluation_ahead_witness :
  forallb clean [Submit Samples.R1 (Ok JNull); Submit Samples.R2 (Ok JNull)]
  = true /\
  exists sys,
    Samples.runFrom Samples.store
      [Submit Samples.R1 (Ok JNull); Submit Samples.R2 (Ok JNull)]
    = Some sys /\
    evalQueue sys = [Samples.R2] /\
    isEvaluating sys = true /\
    tasks sys !! 0%nat = Some (AwaitEvaluation Samples.R1).
Proof.
  split; [reflexivity|].
  set (labels := [Submit Samples.R1 (Ok JNull); Submit Samples.R2 (Ok JNull)]).
  set (sys := default (idle Samples.store)
                (Samples.runFrom Samples.store labels)).
  assert (Hrun : Samples.runFrom Samples.store labels = Some sys)
    by reflexivity.
  assert (Hq : evalQueue sys <> []) by (simpl; discriminate).
  exists sys. split; [exact Hrun|]. split; [reflexivity|].
  split; [|reflexivity].
  exact (proj1 (queued_request_has_evaluation_ahead
                  Bindings.getDynamicBindings
                  Bindings.getDataTreeActionConfigPath Bindings.isDynamicValue
                  Samples.store labels sys eq_refl Hrun Hq)).
Defined.

Lemma burst_is_evaluated_in_order_witness :
  exists sys,
    Samples.runFrom Samples.store
      [Submit Samples.R1 (Ok JNull);
       Submit Samples.R2 (Ok JNull);
       Submit Samples.R3 (Throw TypeError);
       EvaluationDone 0 (Ok Samples.evaluated) (Ok tt) (Ok JNull);
       EvaluationDone 0 (Ok (WPrimitive PUndefined)) (Ok tt) (Ok JNull)]
    = Some sys /\
    tasks sys = [AwaitEvaluation Samples.R3] /\
    evaluationCalls (trace (world sys))
    = [Samples.R1; Samples.R2; Samples.R3].
Proof.
  destruct (burst_is_evaluated_in_order Bindings.getDynamicBindings
              Bindings.getDataTreeActionConfigPath Bindings.isDynamicValue
              Samples.store Samples.R1 JNull
              [(Samples.R2, Ok JNull); (Samples.R3, Throw TypeError)]
              [(Samples.evaluated, JNull); (WPrimitive PUndefined, JNull)]
              eq_refl)
    as (sys & Hrun & _ & _ & Htasks & Hcalls & _).
  exists sys. split; [exact Hrun|]. split; [exact Htasks|]. exact Hcalls.
Defined.

Lemma fetch_calls_backend_at_most_once_witness :
  is_Some (dynHeap Samples.store !! 1%nat) /\
  exists w' evs,
    fetchDynamicValueSaga Bindings.getDynamicBindings
      Bindings.getDataTreeActionConfigPath Bindings.isDynamicValue
      (Samples.env Samples.unresolved (Ok Samples.okResponse))
      (Some 0%nat) 1%nat "a1" "d1" "p1" "x" Samples.store = (Ok 1%nat, w') /\
    trace w' = (trace Samples.store ++ evs)%list /\
    (List.length evs <= 2)%nat.
Proof.
  assert (H : is_Some (dynHeap Samples.store !! 1%nat))
    by (vm_compute; eauto).
  split; [exact H|].
  destruct (fetch_calls_backend_at_most_once Bindings.getDynamicBindings
              Bindings.getDataTreeActionConfigPath Bindings.isDynamicValue
              (Samples.env Samples.unresolved (Ok Samples.okResponse))
              (Some 0%nat) 1%nat "a1" "d1" "p1" "x" Samples.store H)
    as (w' & evs & Hrun & Ht & Hcase).
  exists w', evs. split; [exact Hrun|]. split; [exact Ht|].
  destruct Hcase as [(e & w1 & _ & ->)
                    |(url & body & w1 & _ & [->|[e ->]])]; simpl; lia.
Defined.

Lemma request_without_action_witness :
  exists url w1,
    urlOf (mkEnv (fun _ => Ok None) (Ok (JObj []))
             (fun datasourceId => "/datasources/" +:+ datasourceId)
             (fun _ _ => Ok Samples.okResponse))
      "d1" Samples.declaring = Ok url /\
    fetchRequest Bindings.getDynamicBindings
      Bindings.getDataTreeActionConfigPath Bindings.isDynamicValue
      (mkEnv (fun _ => Ok None) (Ok (JObj []))
         (fun datasourceId => "/datasources/" +:+ datasourceId)
         (fun _ _ => Ok Samples.okResponse))
      (Some 0%nat) 1%nat "a1" "d1" "p1" "x" Samples.store
    = (Ok (url,
           JObj [("actionId", JStr "a1"); ("configProperty", JStr "x");
                 ("datasourceId", JStr "d1"); ("pluginId", JStr "p1");
                 ("parameters", JObj [("x", Samples.binding)])]),
       w1).
Proof.
  assert (Hd : is_Some (dynHeap Samples.store !! 1%nat))
    by (vm_compute; eauto).
  assert (Hc : condHeap Samples.store !! 0%nat
               = Some (mkConditionalOutput (Some 0%nat) []))
    by (vm_compute; reflexivity).
  assert (Hs : dynHeap Samples.store !! 0%nat
               = Some (Samples.dynamicValues Samples.declaring
                         Samples.declaring))
    by (vm_compute; reflexivity).
  exact (request_without_action Bindings.getDynamicBindings
           Bindings.getDataTreeActionConfigPath Bindings.isDynamicValue
           (mkEnv (fun _ => Ok None) (Ok (JObj []))
              (fun datasourceId => "/datasources/" +:+ datasourceId)
              (fun _ _ => Ok Samples.okResponse))
           0%nat 1%nat 0%nat "a1" "d1" "p1" "x" Samples.store
           (mkConditionalOutput (Some 0%nat) [])
           (Samples.dynamicValues Samples.declaring Samples.declaring)
           [("params", JObj [("parameters", JObj [("x", Samples.binding)])])]
           [("parameters", JObj [("x", Samples.binding)])]
           [("params", JObj [("parameters", JObj [("x", Samples.binding)])])]
           [("parameters", JObj [("x", Samples.binding)])]
           (JObj [])
           Hd Hc eq_refl Hs eq_refl eq_refl eq_refl eq_refl eq_refl eq_refl).
Defined.
